(** * A2A relay between a LangChain agent and a Google ADK agent

    Shallow embedding of [src/google_adk/agent.py] (the [calculate] tool and
    the [set_thread_id_middleware] adapter) and of
    [src/test_agent_conversation.py] (the two send functions and the relay
    loop [simulate_conversation]), with the properties of the specification
    stated over it.

    Python values are dynamically typed: what comes back from an endpoint is
    whatever JSON the endpoint chose to send.  The embedding keeps that: the
    driver's variables hold [pyval]s, tests such as [if context_id:] are
    Python truthiness, and subscripting the wrong kind of value raises the
    exception Python raises. *)

From Stdlib Require Import ZArith List String Ascii Bool Lia Floats Uint63.
From Stdlib Require Import DecimalString DecimalPos DecimalZ.
Import ListNotations.
Local Open Scope string_scope.
Local Open Scope Z_scope.
#[local] Set Warnings "-register-all".

(** ** Python values, exceptions and outcomes *)

Module Py.

(** The values [json.loads] / [response.json()] produce, plus [None]. *)
Inductive pyval : Type :=
| PNone
| PBool (b : bool)
| PInt (z : Z)
| PFloat (f : float)
| PStr (s : string)
| PList (l : list pyval)
| PDict (d : list (string * pyval)).

(** Exception classes.  [KeyboardInterrupt], [SystemExit] and
    [CancelledError] derive from [BaseException] only, so that
    [except Exception] lets them through. *)
Inductive exn_class : Type :=
| SyntaxError | NameError | TypeError | ValueError | ZeroDivisionError
| KeyError | IndexError | AttributeError
| OtherException (name : string)
| KeyboardInterrupt | SystemExit | CancelledError.

Definition is_Exception (c : exn_class) : bool :=
  match c with
  | KeyboardInterrupt | SystemExit | CancelledError => false
  | _ => true
  end.

(** What the interpreter itself raises in the fragment modelled here.  The
    type names are those of [type_name] below. *)
Inductive fault : Type :=
| NotIterable (ty : string)           (* [k in v], [v] not a container *)
| NotSubscriptable (ty : string)      (* [v[k]], [v[0]], [v[:n]] on such a [v] *)
| DictSliced                          (* [d[:n]] on a dict *)
| BadIndexType (ty : string)          (* [v["k"]] on a list or a string *)
| MissingKey (repr : string)          (* [d[k]], [k] not in [d]; [repr(k)] *)
| IndexOutOfRange (ty : string)       (* [v[0]] on an empty list or string *)
| NoAttribute (ty attr : string)      (* [v.get], [v] not a dict *)
| InvalidSyntax (text : string)       (* [eval] of text that is no expression *)
| UndefinedName (name : string)       (* a name bound nowhere *)
| DivisionByZero (op : string)        (* [/], [//], [%] with a zero divisor *)
| TooManyDigits.                      (* [str] of an integer over the limit *)

Definition fault_class (f : fault) : exn_class :=
  match f with
  | NotIterable _ | NotSubscriptable _ | BadIndexType _ => TypeError
  | DictSliced => TypeError           (* [KeyError] from CPython 3.12 on *)
  | MissingKey _ => KeyError
  | IndexOutOfRange _ => IndexError
  | NoAttribute _ _ => AttributeError
  | InvalidSyntax _ => SyntaxError
  | UndefinedName _ => NameError
  | DivisionByZero _ => ZeroDivisionError
  | TooManyDigits => ValueError
  end.

(** An exception instance: raised by the interpreter, or by code outside
    this repository (the HTTP client, the JSON decoder, the downstream
    handler), which comes with its class and its [str(e)]. *)
Inductive exn : Type :=
| Fault (f : fault)
| Foreign (c : exn_class) (msg : string).

Definition class_of (e : exn) : exn_class :=
  match e with
  | Fault f => fault_class f
  | Foreign c _ => c
  end.

(** [isinstance(e, Exception)] *)
Definition caught_by_except_Exception (e : exn) : bool :=
  is_Exception (class_of e).

(** How an interpreter words its own exceptions differs between releases:
    [str(e)] takes the wording as a parameter. *)
Definition wording : Type := fault -> string.

Definition str_exn (W : wording) (e : exn) : string :=
  match e with
  | Fault f => W f
  | Foreign _ msg => msg
  end.

Inductive outcome (A : Type) : Type :=
| Val (a : A)
| Exc (e : exn).
Arguments Val {A} a.
Arguments Exc {A} e.

Definition obind {A B} (m : outcome A) (k : A -> outcome B) : outcome B :=
  match m with
  | Val a => k a
  | Exc e => Exc e
  end.

(** [type(v).__name__] *)
Definition type_name (v : pyval) : string :=
  match v with
  | PNone => "NoneType"
  | PBool _ => "bool"
  | PInt _ => "int"
  | PFloat _ => "float"
  | PStr _ => "str"
  | PList _ => "list"
  | PDict _ => "dict"
  end.

(** Truthiness, as tested by [if v:] and [v or w]. *)
Definition truthy (v : pyval) : bool :=
  match v with
  | PNone => false
  | PBool b => b
  | PInt z => negb (z =? 0)
  | PFloat f => negb (PrimFloat.eqb f PrimFloat.zero)
  | PStr s => negb (String.eqb s "")
  | PList l => match l with [] => false | _ => true end
  | PDict d => match d with [] => false | _ => true end
  end.

(** [a or b] *)
Definition py_or (a b : pyval) : pyval := if truthy a then a else b.

(** *** Dictionaries: insertion-ordered, keyed by strings *)

Fixpoint dict_get (k : string) (d : list (string * pyval)) : option pyval :=
  match d with
  | [] => None
  | (k', v) :: d' => if String.eqb k k' then Some v else dict_get k d'
  end.

Definition dict_has (k : string) (d : list (string * pyval)) : bool :=
  match dict_get k d with Some _ => true | None => false end.

(** [d[k] = v]: overwrite in place, or append. *)
Fixpoint dict_set (k : string) (v : pyval) (d : list (string * pyval))
  : list (string * pyval) :=
  match d with
  | [] => [(k, v)]
  | (k', v') :: d' =>
      if String.eqb k k' then (k, v) :: d' else (k', v') :: dict_set k v d'
  end.

(** *** Strings *)

Fixpoint is_prefix (p s : string) : bool :=
  match p, s with
  | EmptyString, _ => true
  | String a p', String b s' => Ascii.eqb a b && is_prefix p' s'
  | String _ _, EmptyString => false
  end.

(** [p in s] for two strings: substring test. *)
Fixpoint is_substring (p s : string) : bool :=
  is_prefix p s ||
  match s with
  | EmptyString => false
  | String _ s' => is_substring p s'
  end.

(** A Python [str] is a sequence of code points; it is held here as the
    bytes of its UTF-8 encoding (a lone surrogate in the three bytes of its
    code point).  Every code point starts with one byte that is not a
    continuation byte ([10xxxxxx]) and goes on with continuation bytes only,
    so characters are counted by the bytes that start them. *)
Definition is_continuation (a : ascii) : bool :=
  (Nat.leb 128 (nat_of_ascii a) && Nat.ltb (nat_of_ascii a) 192)%bool.

(** [len(s)] *)
Fixpoint py_len (s : string) : nat :=
  match s with
  | EmptyString => O
  | String a s' => if is_continuation a then py_len s' else S (py_len s')
  end.

(** [s[:n]] for [n >= 0]: the first [n] characters. *)
Fixpoint take (n : nat) (s : string) : string :=
  match s with
  | EmptyString => ""
  | String a s' =>
      if is_continuation a then String a (take n s')
      else
        match n with
        | O => ""
        | S n' => String a (take n' s')
        end
  end.

(** [str(z)] for an integer, without any limit on the number of digits. *)
Definition str_Z (z : Z) : string := NilZero.string_of_int (Z.to_int z).

Definition quoted (s : string) : string := "'" ++ s ++ "'".

(** *** The dynamic operations the sources use on decoded JSON *)

Definition is_str (k : string) (v : pyval) : bool :=
  match v with PStr s => String.eqb s k | _ => false end.

(** [k in c] for a string literal [k]. *)
Definition py_contains (k : string) (c : pyval) : outcome bool :=
  match c with
  | PDict d => Val (dict_has k d)
  | PList l => Val (existsb (is_str k) l)
  | PStr s => Val (is_substring k s)
  | _ => Exc (Fault (NotIterable (type_name c)))
  end.

(** [c[k]] for a string literal [k]. *)
Definition py_getitem (c : pyval) (k : string) : outcome pyval :=
  match c with
  | PDict d =>
      match dict_get k d with
      | Some v => Val v
      | None => Exc (Fault (MissingKey (quoted k)))
      end
  | PList _ | PStr _ => Exc (Fault (BadIndexType (type_name c)))
  | _ => Exc (Fault (NotSubscriptable (type_name c)))
  end.

(** [c[0]] *)
Definition py_getitem0 (c : pyval) : outcome pyval :=
  match c with
  | PList l =>
      match l with
      | v :: _ => Val v
      | [] => Exc (Fault (IndexOutOfRange "list"))
      end
  | PStr s =>
      match s with
      | String a _ => Val (PStr (String a ""))
      | EmptyString => Exc (Fault (IndexOutOfRange "str"))
      end
  | PDict _ => Exc (Fault (MissingKey "0"))
  | _ => Exc (Fault (NotSubscriptable (type_name c)))
  end.

(** [c.get(k, dflt)]; [c.get(k)] is [py_get c k PNone]. *)
Definition py_get (c : pyval) (k : string) (dflt : pyval) : outcome pyval :=
  match c with
  | PDict d =>
      match dict_get k d with
      | Some v => Val v
      | None => Val dflt
      end
  | _ => Exc (Fault (NoAttribute (type_name c) "get"))
  end.

(** [v[:n]]: strings and lists can be sliced, nothing else that JSON
    decodes to can. *)
Definition py_slice_to (n : nat) (v : pyval) : outcome pyval :=
  match v with
  | PStr s => Val (PStr (take n s))
  | PList l => Val (PList (firstn n l))
  | PDict _ => Exc (Fault DictSliced)
  | _ => Exc (Fault (NotSubscriptable (type_name v)))
  end.

(** Nothing but spaces and tabs. *)
Fixpoint is_blank_text (s : string) : bool :=
  match s with
  | EmptyString => true
  | String a s' =>
      (Nat.eqb (nat_of_ascii a) 32 || Nat.eqb (nat_of_ascii a) 9)
      && is_blank_text s'
  end.

(** The wording of CPython 3.11, used in the examples.  Of the texts that
    are no expression, [eval] is only ever given those of
    [Calculator.parse]: blank text, or an expression followed by an
    operator. *)
Definition cpython_wording : wording := fun f =>
  match f with
  | NotIterable ty => "argument of type " ++ quoted ty ++ " is not iterable"
  | NotSubscriptable ty => quoted ty ++ " object is not subscriptable"
  | DictSliced => "unhashable type: 'slice'"
  | BadIndexType ty =>
      if String.eqb ty "list"
      then "list indices must be integers or slices, not str"
      else "string indices must be integers, not 'str'"
  | MissingKey repr => repr
  | IndexOutOfRange ty =>
      if String.eqb ty "list"
      then "list index out of range"
      else "string index out of range"
  | NoAttribute ty attr =>
      quoted ty ++ " object has no attribute " ++ quoted attr
  | InvalidSyntax text =>
      if is_blank_text text
      then "invalid syntax (<string>, line 0)"
      else "invalid syntax (<string>, line 1)"
  | UndefinedName n => "name " ++ quoted n ++ " is not defined"
  | DivisionByZero op =>
      if String.eqb op "/" then "division by zero"
      else if String.eqb op "%" then "integer modulo by zero"
      else "integer division or modulo by zero"
  | TooManyDigits =>
      "Exceeds the limit (4300 digits) for integer string conversion; " ++
      "use sys.set_int_max_str_digits() to increase the limit"
  end.

End Py.

(** ** The calculator tool ([src/google_adk/agent.py], [calculate])

    [calculate] hands its argument to Python's builtin [eval].  The builtin is
    modelled on a fragment of Python's expression language: decimal integer
    literals, plain single-quoted strings, names, attribute references, calls
    with positional arguments, list displays, parentheses, unary [+ -] and
    binary [+ - * / // % **], evaluated over integers, with the float that
    true division of two integers gives.  Text or values outside the fragment
    (float literals, tuples, comparisons, arithmetic on floats, ...) give
    [Beyond]: the model says nothing about them.  So does text nested deeper
    than any interpreter is sure to take, and a power too large to be sure it
    is computed. *)

Module Calculator.
Import Py.

Inductive run (A : Type) : Type :=
| Returns (a : A)
| Raises (e : exn)
| Beyond.
Arguments Returns {A} a.
Arguments Raises {A} e.
Arguments Beyond {A}.

Definition rbind {A B} (m : run A) (k : A -> run B) : run B :=
  match m with
  | Returns a => k a
  | Raises e => Raises e
  | Beyond => Beyond
  end.

Notation "x <- m ;; k" := (rbind m (fun x => k))
  (at level 61, m at next level, right associativity).

(** *** Tokens *)

Inductive token : Type :=
| TInt (z : Z) | TName (s : string) | TStr (s : string)
| TPlus | TMinus | TStar | TSlash | TDSlash | TPercent | TDStar
| TLParen | TRParen | TLBrack | TRBrack | TComma | TDot.

Definition code (c : ascii) : nat := nat_of_ascii c.

Definition is_blank (c : ascii) : bool :=
  (Nat.eqb (code c) 32 || Nat.eqb (code c) 9)%bool.
Definition is_digit (c : ascii) : bool :=
  (Nat.leb 48 (code c) && Nat.leb (code c) 57)%bool.
Definition is_name_start (c : ascii) : bool :=
  ((Nat.leb 65 (code c) && Nat.leb (code c) 90)
   || (Nat.leb 97 (code c) && Nat.leb (code c) 122)
   || Nat.eqb (code c) 95)%bool.
Definition is_name_char (c : ascii) : bool :=
  (is_name_start c || is_digit c)%bool.
Definition is_quote (c : ascii) : bool :=
  (Nat.eqb (code c) 39 || Nat.eqb (code c) 34)%bool.
(** Printable, and neither a quote nor a backslash. *)
Definition is_plain (c : ascii) : bool :=
  (Nat.leb 32 (code c) && Nat.leb (code c) 126
   && negb (is_quote c) && negb (Nat.eqb (code c) 92))%bool.

Fixpoint span {A} (p : A -> bool) (l : list A) : list A * list A :=
  match l with
  | [] => ([], [])
  | x :: l' =>
      if p x then let (a, b) := span p l' in (x :: a, b) else ([], l)
  end.

Definition digit_value (c : ascii) : Z := Z.of_nat (code c - 48).

Definition number_of (ds : list ascii) : Z :=
  fold_left (fun acc d => 10 * acc + digit_value d) ds 0.

(** Words the grammar reserves ([__debug__] is a constant of the compiler). *)
Definition reserved : list string :=
  [ "False"; "None"; "True"; "and"; "as"; "assert"; "async"; "await";
    "break"; "class"; "continue"; "def"; "del"; "elif"; "else"; "except";
    "finally"; "for"; "from"; "global"; "if"; "import"; "in"; "is";
    "lambda"; "nonlocal"; "not"; "or"; "pass"; "raise"; "return"; "try";
    "while"; "with"; "yield"; "__debug__" ].

Definition is_reserved (s : string) : bool := existsb (String.eqb s) reserved.

Definition starts_with (p : ascii -> bool) (cs : list ascii) : bool :=
  match cs with
  | c :: _ => p c
  | [] => false
  end.

(** A digit run is a decimal integer literal when nothing glues to it (a
    letter, an underscore or a dot would make it another kind of literal),
    when it has no leading zero unless it is all zeros, and when it has at
    most 640 digits (the smallest limit on decimal conversion an interpreter
    can be configured with). *)
Definition decimal_literal (ds rest : list ascii) : bool :=
  (negb (starts_with (fun c => is_name_char c || Nat.eqb (code c) 46) rest)
   && (negb (starts_with (fun c => Nat.eqb (code c) 48) ds)
       || forallb (fun c => Nat.eqb (code c) 48) ds)
   && Nat.leb (List.length ds) 640)%bool.

Definition cons_token (t : token) (r : option (list token))
  : option (list token) :=
  match r with
  | Some ts => Some (t :: ts)
  | None => None
  end.

Fixpoint lex_aux (fuel : nat) (cs : list ascii) : option (list token) :=
  match fuel with
  | O => None
  | S fuel' =>
      match cs with
      | [] => Some []
      | c :: rest =>
          if is_blank c then lex_aux fuel' rest
          else if is_digit c then
            let (ds, rest') := span is_digit cs in
            if decimal_literal ds rest'
            then cons_token (TInt (number_of ds)) (lex_aux fuel' rest')
            else None
          else if is_name_start c then
            let (nm, rest') := span is_name_char cs in
            let name := string_of_list_ascii nm in
            if (starts_with is_quote rest' || is_reserved name)%bool
            then None
            else cons_token (TName name) (lex_aux fuel' rest')
          else if Nat.eqb (code c) 39 then
            let (body, rest') := span (fun c => negb (is_quote c)) rest in
            match body, rest' with
            | _ :: _, q :: rest'' =>
                if (Nat.eqb (code q) 39 && forallb is_plain body
                    && negb (starts_with is_quote rest''))%bool
                then cons_token (TStr (string_of_list_ascii body))
                                (lex_aux fuel' rest'')
                else None
            | _, _ => None
            end
          else
            match code c, rest with
            | 42%nat, c' :: rest' =>
                if Nat.eqb (code c') 42
                then cons_token TDStar (lex_aux fuel' rest')
                else cons_token TStar (lex_aux fuel' rest)
            | 42%nat, [] => Some [TStar]
            | 47%nat, c' :: rest' =>
                if Nat.eqb (code c') 47
                then cons_token TDSlash (lex_aux fuel' rest')
                else cons_token TSlash (lex_aux fuel' rest)
            | 47%nat, [] => Some [TSlash]
            | 43%nat, _ => cons_token TPlus (lex_aux fuel' rest)
            | 45%nat, _ => cons_token TMinus (lex_aux fuel' rest)
            | 37%nat, _ => cons_token TPercent (lex_aux fuel' rest)
            | 40%nat, _ => cons_token TLParen (lex_aux fuel' rest)
            | 41%nat, _ => cons_token TRParen (lex_aux fuel' rest)
            | 91%nat, _ => cons_token TLBrack (lex_aux fuel' rest)
            | 93%nat, _ => cons_token TRBrack (lex_aux fuel' rest)
            | 44%nat, _ => cons_token TComma (lex_aux fuel' rest)
            | 46%nat, _ =>
                if starts_with (fun c => is_digit c || Nat.eqb (code c) 46) rest
                then None
                else cons_token TDot (lex_aux fuel' rest)
            | _, _ => None
            end
      end
  end.

Definition lex (s : string) : option (list token) :=
  let cs := list_ascii_of_string s in
  lex_aux (S (List.length cs)) cs.

(** *** Expressions *)

Inductive unop : Type := UPlus | UMinus.
Inductive binop : Type := Add | Sub | Mul | Div | FloorDiv | Mod | Pow.

Inductive expr : Type :=
| EInt (z : Z)
| EStr (s : string)
| EName (x : string)
| EList (es : list expr)
| ECall (f : expr) (args : list expr)
| EAttr (e : expr) (name : string)
| EUn (op : unop) (a : expr)
| EBin (op : binop) (a b : expr).

(** Recursive descent along Python's grammar:
<<
   sum     ::= term (('+' | '-') term)*
   term    ::= factor (('*' | '/' | '//' | '%') factor)*
   factor  ::= ('+' | '-') factor | power
   power   ::= primary ['**' factor]
   primary ::= atom ('(' items ')' | '.' NAME)*
   atom    ::= INT | STRING | NAME | '(' sum ')' | '[' items ']'
   items   ::= [sum (',' sum)* [',']]
>>
    The fuel bounds the depth of the descent. *)
Fixpoint p_sum (n : nat) (ts : list token) : option (expr * list token) :=
  match n with
  | O => None
  | S n =>
      match p_term n ts with
      | Some (e, r) => p_sum_rest n e r
      | None => None
      end
  end
with p_sum_rest (n : nat) (acc : expr) (ts : list token)
  : option (expr * list token) :=
  match n with
  | O => None
  | S n =>
      match ts with
      | TPlus :: r =>
          match p_term n r with
          | Some (e, r') => p_sum_rest n (EBin Add acc e) r'
          | None => None
          end
      | TMinus :: r =>
          match p_term n r with
          | Some (e, r') => p_sum_rest n (EBin Sub acc e) r'
          | None => None
          end
      | _ => Some (acc, ts)
      end
  end
with p_term (n : nat) (ts : list token) : option (expr * list token) :=
  match n with
  | O => None
  | S n =>
      match p_factor n ts with
      | Some (e, r) => p_term_rest n e r
      | None => None
      end
  end
with p_term_rest (n : nat) (acc : expr) (ts : list token)
  : option (expr * list token) :=
  match n with
  | O => None
  | S n =>
      let continue op r :=
        match p_factor n r with
        | Some (e, r') => p_term_rest n (EBin op acc e) r'
        | None => None
        end in
      match ts with
      | TStar :: r => continue Mul r
      | TSlash :: r => continue Div r
      | TDSlash :: r => continue FloorDiv r
      | TPercent :: r => continue Mod r
      | _ => Some (acc, ts)
      end
  end
with p_factor (n : nat) (ts : list token) : option (expr * list token) :=
  match n with
  | O => None
  | S n =>
      match ts with
      | TPlus :: r =>
          match p_factor n r with
          | Some (e, r') => Some (EUn UPlus e, r')
          | None => None
          end
      | TMinus :: r =>
          match p_factor n r with
          | Some (e, r') => Some (EUn UMinus e, r')
          | None => None
          end
      | _ => p_power n ts
      end
  end
with p_power (n : nat) (ts : list token) : option (expr * list token) :=
  match n with
  | O => None
  | S n =>
      match p_primary n ts with
      | Some (e, TDStar :: r) =>
          match p_factor n r with
          | Some (f, r') => Some (EBin Pow e f, r')
          | None => None
          end
      | other => other
      end
  end
with p_primary (n : nat) (ts : list token) : option (expr * list token) :=
  match n with
  | O => None
  | S n =>
      match p_atom n ts with
      | Some (e, r) => p_trailers n e r
      | None => None
      end
  end
with p_trailers (n : nat) (e : expr) (ts : list token)
  : option (expr * list token) :=
  match n with
  | O => None
  | S n =>
      match ts with
      | TLParen :: r =>
          match p_items n false r with
          | Some (args, r') => p_trailers n (ECall e args) r'
          | None => None
          end
      | TDot :: TName x :: r => p_trailers n (EAttr e x) r
      | TDot :: _ => None
      | _ => Some (e, ts)
      end
  end
with p_atom (n : nat) (ts : list token) : option (expr * list token) :=
  match n with
  | O => None
  | S n =>
      match ts with
      | TInt z :: r => Some (EInt z, r)
      | TStr s :: r => Some (EStr s, r)
      | TName x :: r => Some (EName x, r)
      | TLParen :: r =>
          match p_sum n r with
          | Some (e, TRParen :: r') => Some (e, r')
          | _ => None
          end
      | TLBrack :: r =>
          match p_items n true r with
          | Some (es, r') => Some (EList es, r')
          | None => None
          end
      | _ => None
      end
  end
with p_items (n : nat) (bracket : bool) (ts : list token)
  : option (list expr * list token) :=
  match n with
  | O => None
  | S n =>
      let closes t :=
        match t, bracket with
        | TRBrack, true | TRParen, false => true
        | _, _ => false
        end in
      match ts with
      | [] => None
      | t :: r =>
          if closes t then Some ([], r)
          else
            match p_sum n ts with
            | Some (e, TComma :: r') =>
                match p_items n bracket r' with
                | Some (es, r'') => Some (e :: es, r'')
                | None => None
                end
            | Some (e, t' :: r') =>
                if closes t' then Some ([e], r') else None
            | _ => None
            end
      end
  end.

Definition is_operator (t : token) : bool :=
  match t with
  | TPlus | TMinus | TStar | TSlash | TDSlash | TPercent | TDStar => true
  | _ => false
  end.

(** How deep the brackets of a token list go. *)
Fixpoint nesting (level deepest : nat) (ts : list token) : nat :=
  match ts with
  | [] => deepest
  | (TLParen | TLBrack) :: r => nesting (S level) (Nat.max deepest (S level)) r
  | (TRParen | TRBrack) :: r => nesting (Nat.pred level) deepest r
  | _ :: r => nesting level deepest r
  end.

(** How deep the syntax tree of an expression goes. *)
Fixpoint depth (e : expr) : nat :=
  let deepest :=
    fix deepest (es : list expr) : nat :=
      match es with
      | [] => O
      | x :: xs => Nat.max (depth x) (deepest xs)
      end in
  match e with
  | EInt _ | EStr _ | EName _ => 1
  | EList es => S (deepest es)
  | ECall f args => S (Nat.max (depth f) (deepest args))
  | EAttr a _ => S (depth a)
  | EUn _ a => S (depth a)
  | EBin _ a b => S (Nat.max (depth a) (depth b))
  end.

(** The tokenizer of CPython gives up at 200 open brackets, its parser and
    compiler when their stack or the recursion limit is used up, which
    depends on how deep in calls [calculate] itself is run.  The model
    answers for 100 brackets and for syntax trees 200 deep, which CPython
    takes with 800 of its default 1000 frames in use. *)
Definition max_brackets : nat := 100.
Definition max_depth : nat := 200.

Inductive parsed : Type :=
| Parsed (e : expr)
| NotAnExpression        (* no Python expression at all: [SyntaxError] *)
| Outside.               (* not in the fragment *)

Definition parse_tokens (ts : list token) : option expr :=
  if Nat.leb (nesting 0 0 ts) max_brackets then
    match p_sum (12 * List.length ts + 12) ts with
    | Some (e, []) => if Nat.leb (depth e) max_depth then Some e else None
    | _ => None
    end
  else None.

(** Blank text is no expression, and neither is an expression followed by
    an operator; what the descent rejects otherwise may still be Python, and
    is left [Outside]. *)
Definition parse (s : string) : parsed :=
  match lex s with
  | None => Outside
  | Some [] => NotAnExpression
  | Some ts =>
      match parse_tokens ts with
      | Some e => Parsed e
      | None =>
          if is_operator (last ts TComma) then
            match parse_tokens (removelast ts) with
            | Some _ => NotAnExpression
            | None => Outside
            end
          else Outside
      end
  end.

(** *** Values and the namespace of [calculate] *)

(** The six builtins of the namespace, and the two that are reached from
    them: [__import__] of the module [builtins], and [exit] of the module
    [sys]. *)
Inductive builtin : Type :=
| Babs | Bround | Bmin | Bmax | Bsum | Bpow | Bimport | Bexit.

Inductive module : Type := Builtins | Sys.

Inductive value : Type :=
| VInt (z : Z)
| VFloat (f : float)
| VStr (s : string)
| VList (l : list value)
| VEmptyDict
| VFun (b : builtin)
| VModule (m : module).

Definition builtin_name (b : builtin) : string :=
  match b with
  | Babs => "abs" | Bround => "round" | Bmin => "min"
  | Bmax => "max" | Bsum => "sum" | Bpow => "pow"
  | Bimport => "__import__" | Bexit => "exit"
  end.

Definition module_name (m : module) : string :=
  match m with
  | Builtins => "builtins"
  | Sys => "sys"
  end.

(** The dictionary [calculate] passes to [eval] as its globals. *)
Definition allowed_names : list (string * value) :=
  [ ("__builtins__", VEmptyDict);
    ("abs", VFun Babs);
    ("round", VFun Bround);
    ("min", VFun Bmin);
    ("max", VFun Bmax);
    ("sum", VFun Bsum);
    ("pow", VFun Bpow) ].

Fixpoint lookup (x : string) (g : list (string * value)) : option value :=
  match g with
  | [] => None
  | (k, v) :: g' => if String.eqb x k then Some v else lookup x g'
  end.

(** A name is looked up in the globals, then in the builtins, which are what
    the globals bind to [__builtins__]: here the empty dictionary. *)
Definition load_name (g : list (string * value)) (x : string) : run value :=
  match lookup x g with
  | Some v => Returns v
  | None =>
      match lookup "__builtins__" g with
      | Some VEmptyDict => Raises (Fault (UndefinedName x))
      | _ => Beyond
      end
  end.

Fixpoint ints_of (vs : list value) : option (list Z) :=
  match vs with
  | [] => Some []
  | VInt z :: vs' =>
      match ints_of vs' with
      | Some zs => Some (z :: zs)
      | None => None
      end
  | _ :: _ => None
  end.

Definition fold_ints (f : Z -> Z -> Z) (zs : list Z) : run value :=
  match zs with
  | z :: zs' => Returns (VInt (fold_left f zs' z))
  | [] => Beyond
  end.

(** [min] and [max] take two or more numbers, or one list of them. *)
Definition extremum (f : Z -> Z -> Z) (args : list value) : run value :=
  match args with
  | [VList l] =>
      match ints_of l with
      | Some zs => fold_ints f zs
      | None => Beyond
      end
  | _ :: _ :: _ =>
      match ints_of args with
      | Some zs => fold_ints f zs
      | None => Beyond
      end
  | _ => Beyond
  end.

Definition total (zs : list Z) : Z := fold_left Z.add zs 0.

(** A power is computed when its result has at most [2^20] bits, by the
    bound [(log2 |a| + 1) * b]. *)
Definition modest_power (a b : Z) : bool :=
  (Z.log2 (Z.abs a) + 1) * b <=? 2 ^ 20.

Definition int_pow (a b : Z) : run value :=
  if (0 <=? b) && modest_power a b then Returns (VInt (a ^ b)) else Beyond.

(** The float nearest to an integer: the integer itself up to [2^53]. *)
Definition float_of_Z (z : Z) : float :=
  let m := PrimFloat.of_uint63 (Uint63.of_Z (Z.abs z)) in
  if z <? 0 then PrimFloat.opp m else m.

Definition exact_float (z : Z) : bool := Z.abs z <=? 2 ^ 53.

(** [a / b] for integers: the float nearest to the quotient.  Where both
    are floats exactly, that is the quotient of the two floats. *)
Definition true_divide (a b : Z) : run value :=
  if b =? 0 then Raises (Fault (DivisionByZero "/"))
  else if exact_float a && exact_float b
  then Returns (VFloat (PrimFloat.div (float_of_Z a) (float_of_Z b)))
  else Beyond.

(** [sys.exit(status)] raises [SystemExit(status)]. *)
Definition sys_exit (args : list value) : run value :=
  match args with
  | [] => Raises (Foreign SystemExit "")
  | [VInt z] => Raises (Foreign SystemExit (str_Z z))
  | _ => Beyond
  end.

Definition call_builtin (b : builtin) (args : list value) : run value :=
  match b, args with
  | Babs, [VInt z] => Returns (VInt (Z.abs z))
  | Bround, [VInt z] => Returns (VInt z)
  | Bround, [VInt z; VInt n] => if 0 <=? n then Returns (VInt z) else Beyond
  | Bmin, _ => extremum Z.min args
  | Bmax, _ => extremum Z.max args
  | Bsum, [VList l] =>
      match ints_of l with
      | Some zs => Returns (VInt (total zs))
      | None => Beyond
      end
  | Bsum, [VList l; VInt start] =>
      match ints_of l with
      | Some zs => Returns (VInt (start + total zs))
      | None => Beyond
      end
  | Bpow, [VInt a; VInt b] => int_pow a b
  | Bimport, [VStr name] =>
      if String.eqb name "sys" then Returns (VModule Sys) else Beyond
  | Bexit, _ => sys_exit args
  | _, _ => Beyond
  end.

(** [v.name]: a builtin function of the namespace has the module
    [builtins] as its [__self__]; that module has [__import__], and the
    module [sys] has [exit]. *)
Definition getattr (v : value) (name : string) : run value :=
  match v with
  | VFun (Babs | Bround | Bmin | Bmax | Bsum | Bpow) =>
      if String.eqb name "__self__" then Returns (VModule Builtins) else Beyond
  | VModule Builtins =>
      if String.eqb name "__import__" then Returns (VFun Bimport) else Beyond
  | VModule Sys =>
      if String.eqb name "exit" then Returns (VFun Bexit) else Beyond
  | _ => Beyond
  end.

Definition call (f : value) (args : list value) : run value :=
  match f with
  | VFun b => call_builtin b args
  | _ => Beyond
  end.

Definition apply_unop (op : unop) (v : value) : run value :=
  match op, v with
  | UPlus, VInt z => Returns (VInt z)
  | UMinus, VInt z => Returns (VInt (- z))
  | _, _ => Beyond
  end.

(** Integer arithmetic is exact; [//] and [%] round towards minus infinity,
    as [Z.div] and [Z.modulo] do.  True division of integers gives a float,
    and so does a negative exponent, which is left out. *)
Definition apply_binop (op : binop) (v w : value) : run value :=
  match v, w with
  | VInt a, VInt b =>
      match op with
      | Add => Returns (VInt (a + b))
      | Sub => Returns (VInt (a - b))
      | Mul => Returns (VInt (a * b))
      | Div => true_divide a b
      | FloorDiv =>
          if b =? 0 then Raises (Fault (DivisionByZero "//"))
          else Returns (VInt (a / b))
      | Mod =>
          if b =? 0 then Raises (Fault (DivisionByZero "%"))
          else Returns (VInt (a mod b))
      | Pow => int_pow a b
      end
  | _, _ => Beyond
  end.

(** Evaluation, left to right; a call evaluates the callee before the
    arguments. *)
Fixpoint eval_expr (g : list (string * value)) (e : expr) : run value :=
  let eval_all :=
    fix eval_all (es : list expr) : run (list value) :=
      match es with
      | [] => Returns []
      | x :: xs =>
          v <- eval_expr g x ;; vs <- eval_all xs ;; Returns (v :: vs)
      end in
  match e with
  | EInt z => Returns (VInt z)
  | EStr s => Returns (VStr s)
  | EName x => load_name g x
  | EList es => vs <- eval_all es ;; Returns (VList vs)
  | ECall f args =>
      fv <- eval_expr g f ;; vs <- eval_all args ;; call fv vs
  | EAttr a name => v <- eval_expr g a ;; getattr v name
  | EUn op a => v <- eval_expr g a ;; apply_unop op v
  | EBin op a b =>
      v <- eval_expr g a ;; w <- eval_expr g b ;; apply_binop op v w
  end.

Definition eval_all (g : list (string * value)) : list expr -> run (list value) :=
  fix eval_all (es : list expr) : run (list value) :=
    match es with
    | [] => Returns []
    | x :: xs =>
        v <- eval_expr g x ;; vs <- eval_all xs ;; Returns (v :: vs)
    end.

(** [eval(expression, globals)] *)
Definition py_eval (expression : string) (g : list (string * value))
  : run value :=
  match parse expression with
  | Parsed e => eval_expr g e
  | NotAnExpression => Raises (Fault (InvalidSyntax expression))
  | Outside => Beyond
  end.

(** *** [repr] of a float: the shortest decimal that reads back as it

    The number is [X / D], and what rounds to it is the interval from
    [(X - gl) / D] to [(X + gh) / D], with its ends when the mantissa is
    even. *)

Section Shortest.

Variables (X D gl gh : Z) (even : bool).

(** [10^p <= X / D] *)
Definition reaches (p : Z) : bool :=
  if 0 <=? p then 10 ^ p * D <=? X else D <=? X * 10 ^ (- p).

Fixpoint settle (fuel : nat) (p : Z) : Z :=
  match fuel with
  | O => p
  | S fuel' =>
      if reaches (p + 1) then settle fuel' (p + 1)
      else if reaches p then p
      else settle fuel' (p - 1)
  end.

(** The [p] with [10^p <= X / D < 10^(p+1)], from an estimate by the bits. *)
Definition magnitude : Z :=
  settle 8 ((Z.log2 X - Z.log2 D) * 30103 / 100000).

(** The decimal [d * 10^k] of [n] digits inside the interval that is
    nearest to the number, the even one of two equally near. *)
Definition candidate (n : Z) : option (Z * Z) :=
  let k := magnitude - n + 1 in
  let T := 10 ^ (Z.max 0 (- k)) in
  let M := D * 10 ^ (Z.max 0 k) in
  let N := X * T in
  let c := N / M in
  let r := N - c * M in
  let low := if even then (X - gl) * T <=? c * M else (X - gl) * T <? c * M in
  let high := if even then (c + 1) * M <=? (X + gh) * T
              else (c + 1) * M <? (X + gh) * T in
  if low && high then
    if 2 * r <? M then Some (c, k)
    else if M <? 2 * r then Some (c + 1, k)
    else if Z.even c then Some (c, k) else Some (c + 1, k)
  else if low then Some (c, k)
  else if high then Some (c + 1, k)
  else None.

Fixpoint shortest (fuel : nat) (n : Z) : option (Z * Z) :=
  match fuel with
  | O => None
  | S fuel' =>
      match candidate n with
      | Some r => Some r
      | None => shortest fuel' (n + 1)
      end
  end.

End Shortest.

Fixpoint strip_zeros (fuel : nat) (d k : Z) : Z * Z :=
  match fuel with
  | O => (d, k)
  | S fuel' =>
      if d mod 10 =? 0 then strip_zeros fuel' (d / 10) (k + 1) else (d, k)
  end.

Fixpoint zeros (n : nat) : string :=
  match n with
  | O => ""
  | S n' => String "0" (zeros n')
  end.

Fixpoint drop (n : nat) (s : string) : string :=
  match n, s with
  | O, _ => s
  | S n', String _ s' => drop n' s'
  | S _, EmptyString => ""
  end.

Fixpoint first (n : nat) (s : string) : string :=
  match n, s with
  | O, _ => ""
  | S n', String a s' => String a (first n' s')
  | S _, EmptyString => ""
  end.

(** How [repr] lays out the positive number [0.ds * 10^decpt]: with an
    exponent when [decpt <= -4] or [decpt > 16], and with [.0] after an
    integer. *)
Definition layout (ds : string) (decpt : Z) : string :=
  let nd := Z.of_nat (String.length ds) in
  if (decpt <=? -4) || (16 <? decpt) then
    let e := decpt - 1 in
    first 1 ds ++ (if 1 <? nd then "." ++ drop 1 ds else "")
    ++ "e" ++ (if e <? 0 then "-" else "+")
    ++ (if Z.abs e <? 10 then "0" else "") ++ str_Z (Z.abs e)
  else if decpt <=? 0 then "0." ++ zeros (Z.to_nat (- decpt)) ++ ds
  else if nd <=? decpt then ds ++ zeros (Z.to_nat (decpt - nd)) ++ ".0"
  else first (Z.to_nat decpt) ds ++ "." ++ drop (Z.to_nat decpt) ds.

(** The float [m * 2^e]: its lower neighbour is half as far as the upper
    one when [m] is the least mantissa of its binade. *)
Definition repr_finite (m : positive) (e : Z) : option string :=
  let m := Zpos m in
  let narrow := (m =? 2 ^ 52) && (-1074 <? e) in
  let s := e - 2 in
  let scale := 2 ^ (Z.max 0 s) in
  match shortest (4 * m * scale) (2 ^ (Z.max 0 (- s)))
                 ((if narrow then 1 else 2) * scale) (2 * scale)
                 (Z.even m) 17 1 with
  | Some (d, k) =>
      let (d', k') := strip_zeros 20 d k in
      let ds := str_Z d' in
      Some (layout ds (Z.of_nat (String.length ds) + k'))
  | None => None
  end.

Definition repr_float (f : float) : run string :=
  match Prim2SF f with
  | S754_zero false => Returns "0.0"
  | S754_zero true => Returns "-0.0"
  | S754_finite s m e =>
      match repr_finite m e with
      | Some t => Returns (if s then "-" ++ t else t)
      | None => Beyond
      end
  | S754_infinity false => Returns "inf"
  | S754_infinity true => Returns "-inf"
  | S754_nan => Returns "nan"
  end.

Section Interpreter.

(** The interpreter's wording of its exceptions, and its limit on the digits
    of an integer converted to text ([sys.get_int_max_str_digits()]: 0 for no
    limit, 4300 by default from CPython 3.11 on). *)
Variable W : wording.
Variable int_max_str_digits : nat.

Definition digits_within (z : Z) : bool :=
  (Nat.eqb int_max_str_digits 0
   || Nat.leb (String.length (str_Z (Z.abs z))) int_max_str_digits)%bool.

Definition str_int (z : Z) : run string :=
  if digits_within z then Returns (str_Z z) else Raises (Fault TooManyDigits).

Fixpoint join (sep : string) (l : list string) : string :=
  match l with
  | [] => ""
  | [x] => x
  | x :: l' => x ++ sep ++ join sep l'
  end.

(** [repr(v)] *)
Fixpoint repr_value (v : value) : run string :=
  match v with
  | VInt z => str_int z
  | VFloat f => repr_float f
  | VStr s => Returns (quoted s)
  | VList l =>
      items <-
        (fix all (l : list value) : run (list string) :=
           match l with
           | [] => Returns []
           | x :: xs =>
               s <- repr_value x ;; ss <- all xs ;; Returns (s :: ss)
           end) l ;;
      Returns ("[" ++ join ", " items ++ "]")
  | VEmptyDict => Returns "{}"
  | VFun b => Returns ("<built-in function " ++ builtin_name b ++ ">")
  | VModule m => Returns ("<module " ++ quoted (module_name m) ++ " (built-in)>")
  end.

(** [str(v)], which is what [f"{v}"] formats. *)
Definition str_value (v : value) : run string :=
  match v with
  | VStr s => Returns s
  | _ => repr_value v
  end.

(** <<
    try:
        allowed_names = {...}
        result = eval(expression, allowed_names)
        return f"The result is: {result}"
    except Exception as e:
        return f"Error calculating expression: {str(e)}"
>> *)
Definition try_except {A} (evaluated : run A) (format : A -> run string)
  : run string :=
  match (result <- evaluated ;;
         text <- format result ;;
         Returns ("The result is: " ++ text)) with
  | Raises e =>
      if caught_by_except_Exception e
      then Returns ("Error calculating expression: " ++ str_exn W e)
      else Raises e
  | other => other
  end.

Definition calculate (expression : string) : run string :=
  try_except (py_eval expression allowed_names) str_value.

End Interpreter.

Definition cpython := calculate cpython_wording 4300.

(** *** Specification side: the mathematical value of an expression

    Written from the specification's words ("arithmetic expressions using
    only permitted names and operators", "the mathematically correct
    result"), to be compared with [eval_expr]: integers, the operators, and
    calls of the six permitted names on integers or on a list of them.
    Division by zero has no value; true division and negative exponents
    leave the integers and are given none here, and neither is a power of
    more than [2^20] bits. *)

Definition permitted (f : string) : option builtin :=
  if String.eqb f "abs" then Some Babs
  else if String.eqb f "round" then Some Bround
  else if String.eqb f "min" then Some Bmin
  else if String.eqb f "max" then Some Bmax
  else if String.eqb f "sum" then Some Bsum
  else if String.eqb f "pow" then Some Bpow
  else None.


(** An argument is a number or a list of numbers. *)
Inductive operand : Type :=
| Number (z : Z)
| Numbers (zs : list Z).

Definition math_binop (op : binop) (x y : Z) : option Z :=
  match op with
  | Add => Some (x + y)
  | Sub => Some (x - y)
  | Mul => Some (x * y)
  | Div => None
  | FloorDiv => if y =? 0 then None else Some (x / y)
  | Mod => if y =? 0 then None else Some (x mod y)
  | Pow => if (0 <=? y) && modest_power x y then Some (x ^ y) else None
  end.

Fixpoint numbers_of (l : list operand) : option (list Z) :=
  match l with
  | [] => Some []
  | Number z :: l' =>
      match numbers_of l' with
      | Some zs => Some (z :: zs)
      | None => None
      end
  | Numbers _ :: _ => None
  end.

Definition least (zs : list Z) : option Z :=
  match zs with
  | z :: zs' => Some (fold_left Z.min zs' z)
  | [] => None
  end.

Definition greatest (zs : list Z) : option Z :=
  match zs with
  | z :: zs' => Some (fold_left Z.max zs' z)
  | [] => None
  end.

Definition math_call (b : builtin) (args : list operand) : option Z :=
  match b, args with
  | Babs, [Number z] => Some (Z.abs z)
  | Bround, [Number z] => Some z
  | Bround, [Number z; Number n] => if 0 <=? n then Some z else None
  | Bmin, [Numbers zs] => least zs
  | Bmax, [Numbers zs] => greatest zs
  | Bmin, _ :: _ :: _ =>
      match numbers_of args with Some zs => least zs | None => None end
  | Bmax, _ :: _ :: _ =>
      match numbers_of args with Some zs => greatest zs | None => None end
  | Bsum, [Numbers zs] => Some (fold_right Z.add 0 zs)
  | Bsum, [Numbers zs; Number start] => Some (start + fold_right Z.add 0 zs)
  | Bpow, [Number a; Number b] =>
      if (0 <=? b) && modest_power a b then Some (a ^ b) else None
  | _, _ => None
  end.

Fixpoint denote (e : expr) : option Z :=
  let denote_all :=
    fix denote_all (es : list expr) : option (list Z) :=
      match es with
      | [] => Some []
      | x :: xs =>
          match denote x, denote_all xs with
          | Some z, Some zs => Some (z :: zs)
          | _, _ => None
          end
      end in
  let operands :=
    fix operands (es : list expr) : option (list operand) :=
      match es with
      | [] => Some []
      | x :: xs =>
          match
            match x with
            | EList l => option_map Numbers (denote_all l)
            | _ => option_map Number (denote x)
            end, operands xs
          with
          | Some o, Some os => Some (o :: os)
          | _, _ => None
          end
      end in
  match e with
  | EInt z => Some z
  | EUn UPlus a => denote a
  | EUn UMinus a => option_map Z.opp (denote a)
  | EBin op a b =>
      match denote a, denote b with
      | Some x, Some y => math_binop op x y
      | _, _ => None
      end
  | ECall (EName f) args =>
      match permitted f, operands args with
      | Some b, Some os => math_call b os
      | _, _ => None
      end
  | _ => None
  end.

Definition denote_all : list expr -> option (list Z) :=
  fix denote_all (es : list expr) : option (list Z) :=
    match es with
    | [] => Some []
    | x :: xs =>
        match denote x, denote_all xs with
        | Some z, Some zs => Some (z :: zs)
        | _, _ => None
        end
    end.

Definition operand_of (x : expr) : option operand :=
  match x with
  | EList l => option_map Numbers (denote_all l)
  | _ => option_map Number (denote x)
  end.

Definition operands : list expr -> option (list operand) :=
  fix operands (es : list expr) : option (list operand) :=
    match es with
    | [] => Some []
    | x :: xs =>
        match operand_of x, operands xs with
        | Some o, Some os => Some (o :: os)
        | _, _ => None
        end
    end.

(** *** Names for what the proofs speak about *)

Definition value_of (o : operand) : value :=
  match o with
  | Number z => VInt z
  | Numbers zs => VList (map VInt zs)
  end.

Definition sound (e : expr) : Prop :=
  (forall z, denote e = Some z ->
             eval_expr allowed_names e = Returns (VInt z)) /\
  (forall o, operand_of e = Some o ->
             eval_expr allowed_names e = Returns (value_of o)).

(** The first thing evaluation comes to: the leftmost leaf. *)
Fixpoint leftmost (e : expr) : expr :=
  match e with
  | ECall f _ => leftmost f
  | EAttr a _ => leftmost a
  | EUn _ a => leftmost a
  | EBin _ a _ => leftmost a
  | EList (x :: _) => leftmost x
  | _ => e
  end.


End Calculator.

(** ** The endpoint adapter ([src/google_adk/agent.py],
       [set_thread_id_middleware])

    The middleware runs around every HTTP request of the A2A application.
    What it calls outside the repository is kept as it is seen from the
    middleware: [json.loads] and the downstream handler [call_next] are
    parameters, and the calls into the tracing library are recorded, in
    order, as events. *)

Module Adapter.
Import Py.

(** A request: its method, what [await request.body()] gives, and whether
    [request._receive] has been replaced by the closure that replays the
    body that was read. *)
Record request : Type := Request {
  method : string;
  body : outcome string;
  replays_body : bool;
}.

Record response : Type := Response { status_code : Z; content : string }.

Inductive event : Type :=
| Attach (thread_id : pyval)        (* [attach(set_value("thread_id", thread_id))] *)
| SpanStart (name : string)         (* entering [start_as_current_span(name)] *)
| SetAttribute (key : string) (v : pyval)
| CallNext (req : request)
| SpanEnd (name : string)           (* leaving the [with] block *)
| Detach (thread_id : pyval).       (* [detach(token)], the token of that [attach] *)

(** Computations that log events and may raise. *)
Definition M (A : Type) : Type := list event -> outcome A * list event.

Definition ret {A} (a : A) : M A := fun log => (Val a, log).

Definition bind {A B} (m : M A) (k : A -> M B) : M B :=
  fun log =>
    match m log with
    | (Val a, log') => k a log'
    | (Exc e, log') => (Exc e, log')
    end.

Definition emit (ev : event) : M unit := fun log => (Val tt, (log ++ [ev])%list).

Definition lift {A} (o : outcome A) : M A := fun log => (o, log).

(** [try: body finally: cleanup] *)
Definition try_finally {A} (body : M A) (cleanup : M unit) : M A :=
  fun log =>
    let (r, log') := body log in
    match cleanup log' with
    | (Val _, log'') => (r, log'')
    | (Exc e, log'') => (Exc e, log'')
    end.

(** [with tracer.start_as_current_span(name) as span: body]: the span is
    ended when the block is left, and an exception is not swallowed. *)
Definition with_span {A} (name : string) (body : M A) : M A :=
  fun log =>
    let (r, log') := body (log ++ [SpanStart name])%list in
    (r, (log' ++ [SpanEnd name])%list).

Notation "x <- m ;; k" := (bind m (fun x => k))
  (at level 61, m at next level, right associativity).
Notation "m ;;; k" := (bind m (fun _ => k))
  (at level 61, right associativity).

Section Middleware.

Variable json_loads : string -> outcome pyval.
Variable call_next : request -> outcome response.

(** The local variables the first [try] block leaves behind. *)
Record locals : Type := Locals {
  thread_id : pyval;
  request_seen : request;
}.

(** <<
    thread_id = None
    if request.method == "POST":
        try:
            body_bytes = await request.body()
            if body_bytes:
                body = json.loads(body_bytes)
                if "metadata" in body:
                    thread_id = body["metadata"].get("thread_id")
                async def receive(): ...
                request._receive = receive
        except:
            pass
>>
    The bare [except] swallows whatever is raised; the variables keep what
    they held when it was raised, and every statement that can raise comes
    before the two assignments. *)
Definition read_thread_id (req : request) : locals :=
  let unchanged := Locals PNone req in
  if String.eqb (method req) "POST" then
    match body req with
    | Exc _ => unchanged
    | Val body_bytes =>
        if String.eqb body_bytes "" then unchanged
        else
          match json_loads body_bytes with
          | Exc _ => unchanged
          | Val body =>
              match
                obind (py_contains "metadata" body) (fun has =>
                  if has
                  then obind (py_getitem body "metadata") (fun metadata =>
                         py_get metadata "thread_id" PNone)
                  else Val PNone)
              with
              | Exc _ => unchanged
              | Val tid =>
                  Locals tid (Request (method req) (Val body_bytes) true)
              end
          end
    end
  else unchanged.

(** <<
    if thread_id:
        ctx = set_value("thread_id", thread_id)
        token = attach(ctx)
    else:
        token = None
    try:
        with tracer.start_as_current_span("google_adk_agent") as span:
            if thread_id:
                span.set_attribute("langsmith.metadata.thread_id", thread_id)
            response = await call_next(request)
            return response
    finally:
        if token:
            detach(token)
>>
    The token is [Some] for the object [attach] returns, which is truthy, and
    [None] for [None]. *)
Definition set_thread_id_middleware (req : request) : M response :=
  let l := read_thread_id req in
  token <- (if truthy (thread_id l)
            then emit (Attach (thread_id l)) ;;; ret (Some (thread_id l))
            else ret None) ;;
  try_finally
    (with_span "google_adk_agent"
       ((if truthy (thread_id l)
         then emit (SetAttribute "langsmith.metadata.thread_id" (thread_id l))
         else ret tt) ;;;
        emit (CallNext (request_seen l)) ;;;
        response <- lift (call_next (request_seen l)) ;;
        ret response))
    (match token with
     | Some t => emit (Detach t)
     | None => ret tt
     end).

End Middleware.

(** Specification side: the [metadata.thread_id] field of a decoded body. *)
Definition metadata_thread_id (body : pyval) : option pyval :=
  match body with
  | PDict d =>
      match dict_get "metadata" d with
      | Some (PDict m) => dict_get "thread_id" m
      | _ => None
      end
  | _ => None
  end.

(** *** A decoder and two handlers to run the middleware on *)

Definition span_name : string := "google_adk_agent".
Definition attribute_key : string := "langsmith.metadata.thread_id".

(** A decoder and two handlers to run the middleware on. *)
Definition sample_body : pyval :=
  PDict [("jsonrpc", PStr "2.0");
         ("metadata", PDict [("thread_id", PStr "c1")])].

Definition toy_loads (raw : string) : outcome pyval :=
  if String.eqb raw "{'jsonrpc': '2.0', 'metadata': {'thread_id': 'c1'}}"
  then Val sample_body
  else if String.eqb raw "{}" then Val (PDict [])
  else Exc (Foreign (OtherException "JSONDecodeError")
              "Expecting value: line 1 column 1 (char 0)").

Definition handler_ok (_ : request) : outcome response :=
  Val (Response 200 "ok").

Definition handler_raises (_ : request) : outcome response :=
  Exc (Foreign (OtherException "RuntimeError") "agent failed").

Definition sample_raw : string :=
  "{'jsonrpc': '2.0', 'metadata': {'thread_id': 'c1'}}".

(** A decoder for which every body carries an empty thread identifier. *)
Definition empty_thread_loads (_ : string) : outcome pyval :=
  Val (PDict [("metadata", PDict [("thread_id", PStr "")])]).

(** The events of a request handled without a thread identifier, and with
    one. *)
Definition plain_events (req : request) : list event :=
  [SpanStart span_name; CallNext req; SpanEnd span_name].

Definition threaded_events (tid : pyval) (req : request) : list event :=
  [Attach tid; SpanStart span_name; SetAttribute attribute_key tid;
   CallNext req; SpanEnd span_name; Detach tid].

End Adapter.

(** ** The relay driver ([src/test_agent_conversation.py])

    The two endpoints, the HTTP client and [uuid.uuid4] are outside the
    repository.  The driver is run against a world that supplies them: a
    supply of identifiers, an oracle answering each POST from the exchanges
    so far and the request, a record of every exchange, and the console. *)

Module Relay.
Import Py.

Inductive endpoint : Type := LangChain | GoogleADK.

Record request : Type := Post {
  url : string;
  payload : pyval;                       (* the [json=] argument *)
  headers : list (string * string);
}.

(** What [session.post] and the response object give: entering the request
    raises, or there is a response with its status, the outcome of
    [await response.json()] and the outcome of [await response.text()]. *)
Inductive http_result : Type :=
| PostRaises (e : exn)
| Responded (status : Z) (json : outcome pyval) (text : outcome string).

Record exchange : Type := Exchange {
  to : endpoint;
  sent : request;
  got : http_result;
}.

(** The tuple a send function returns. *)
Record reply : Type := Reply {
  success : bool;
  response : pyval;
  new_task_id : pyval;
  new_context_id : pyval;
}.

(** What the driver prints; values are kept as values, not formatted. *)
Inductive line : Type :=
| Rule (c : string)                       (* [c * 70] *)
| Text (s : string)
| Blank
| RoundHeader (number : Z)                (* [--- Round {i + 1} ---] *)
| ContextLine (v : pyval)
| TaskLine (ep : endpoint) (v : pyval)
| Sending (ep : endpoint) (prefix : pyval)    (* [message[:60]] *)
| Said (ep : endpoint) (v : pyval)
| Failed (ep : endpoint) (v : pyval).

(** Exchanges and console, newest first.  The console holds the lines as
    they are handed to [print]; a console that refuses a line (it cannot
    encode its text, it is closed) is outside the model. *)
Record world : Type := World {
  next_uuid : nat;
  exchanges : list exchange;
  console : list line;
}.

Definition M (A : Type) : Type := world -> outcome A * world.

Definition ret {A} (a : A) : M A := fun w => (Val a, w).

Definition bind {A B} (m : M A) (k : A -> M B) : M B :=
  fun w =>
    match m w with
    | (Val a, w') => k a w'
    | (Exc e, w') => (Exc e, w')
    end.

Definition lift {A} (o : outcome A) : M A := fun w => (o, w).

Notation "x <- m ;; k" := (bind m (fun x => k))
  (at level 61, m at next level, right associativity).
Notation "m ;;; k" := (bind m (fun _ => k))
  (at level 61, right associativity).

Definition print (l : line) : M unit :=
  fun w => (Val tt, World (next_uuid w) (exchanges w) (l :: console w)).

(** [if v: print(...)] *)
Definition print_if (v : pyval) (l : line) : M unit :=
  if truthy v then print l else ret tt.

(** The parts of a payload the properties speak about. *)
Definition field (k : string) (v : pyval) : option pyval :=
  match v with
  | PDict d => dict_get k d
  | _ => None
  end.

Definition envelope (req : request) : option pyval :=
  match field "params" (payload req) with
  | Some params => field "message" params
  | None => None
  end.

Definition envelope_field (k : string) (req : request) : option pyval :=
  match envelope req with
  | Some message => field k message
  | None => None
  end.

Definition envelope_text (req : request) : option pyval :=
  match envelope_field "parts" req with
  | Some (PList [part]) => field "text" part
  | _ => None
  end.

Definition metadata_thread_id (req : request) : option pyval :=
  match field "metadata" (payload req) with
  | Some metadata => field "thread_id" metadata
  | None => None
  end.

(** <<
    message = {"role": "user",
               "parts": [{"kind": "text", "text": text}],
               "messageId": str(uuid.uuid4())}
    if context_id:
        message["contextId"] = context_id
    if task_id:
        message["taskId"] = task_id
>> *)
Definition build_message (text : pyval) (message_id : string)
    (context_id task_id : pyval) : list (string * pyval) :=
  let message :=
    [ ("role", PStr "user");
      ("parts", PList [PDict [("kind", PStr "text"); ("text", text)]]);
      ("messageId", PStr message_id) ] in
  let message :=
    if truthy context_id then dict_set "contextId" context_id message
    else message in
  if truthy task_id then dict_set "taskId" task_id message else message.

Definition build_payload (params : pyval) (id : string) (thread_id : pyval)
  : pyval :=
  PDict [ ("jsonrpc", PStr "2.0");
          ("id", PStr id);
          ("method", PStr "message/send");
          ("params", params);
          ("metadata", PDict [("thread_id", thread_id)]) ].

Definition accept_json : list (string * string) :=
  [("Accept", "application/json")].

Definition langchain_url (assistant_id : string) : string :=
  "http://127.0.0.1:2024/a2a/" ++ assistant_id.

Definition google_adk_url : string := "http://localhost:8002/".

Definition failure (message : pyval) : reply := Reply false message PNone PNone.

Section Driver.

Variable W : wording.
Variable uuid_of : nat -> string.
Variable post : list exchange -> request -> http_result.

(** [str(uuid.uuid4())] *)
Definition uuid4 : M string :=
  fun w =>
    (Val (uuid_of (next_uuid w)),
     World (S (next_uuid w)) (exchanges w) (console w)).

(** [session.post(url, json=payload, headers=headers)] *)
Definition http_post (ep : endpoint) (req : request) : M http_result :=
  fun w =>
    let r := post (exchanges w) req in
    (Val r, World (next_uuid w) (Exchange ep req r :: exchanges w) (console w)).

(** The [try] block of either send function, which is the same text in both:
<<
    try:
        async with session.post(...) as response:
            if response.status == 200:
                result = await response.json()
                if "error" in result:
                    return False, result["error"].get("message", "Unknown error"), None, None
                if "result" not in result:
                    return False, "Response missing 'result' key", None, None
                result_obj = result["result"]
                task_id = result_obj.get("id")
                context_id = result_obj.get("contextId")
                response_text = result_obj["artifacts"][0]["parts"][0]["text"]
                return True, response_text, task_id, context_id
            else:
                text = await response.text()
                return False, f"Error {response.status}: {text[:200]}", None, None
    except Exception as e:
        return False, f"Exception: {str(e)}", None, None
>> *)
Definition read_response (r : http_result) : outcome reply :=
  match r with
  | PostRaises e => Exc e
  | Responded status json text =>
      if status =? 200 then
        obind json (fun result =>
        obind (py_contains "error" result) (fun has_error =>
        if has_error then
          obind (py_getitem result "error") (fun error =>
          obind (py_get error "message" (PStr "Unknown error")) (fun message =>
          Val (failure message)))
        else
          obind (py_contains "result" result) (fun has_result =>
          if negb has_result then
            Val (failure (PStr "Response missing 'result' key"))
          else
            obind (py_getitem result "result") (fun result_obj =>
            obind (py_get result_obj "id" PNone) (fun task_id =>
            obind (py_get result_obj "contextId" PNone) (fun context_id =>
            obind (py_getitem result_obj "artifacts") (fun artifacts =>
            obind (py_getitem0 artifacts) (fun artifact =>
            obind (py_getitem artifact "parts") (fun parts =>
            obind (py_getitem0 parts) (fun part =>
            obind (py_getitem part "text") (fun response_text =>
            Val (Reply true response_text task_id context_id))))))))))))
      else
        obind text (fun text =>
        Val (failure (PStr ("Error " ++ str_Z status ++ ": " ++ take 200 text))))
  end.

Definition interpret (r : http_result) : outcome reply :=
  match read_response r with
  | Val result => Val result
  | Exc e =>
      if caught_by_except_Exception e
      then Val (failure (PStr ("Exception: " ++ str_exn W e)))
      else Exc e
  end.

Definition send_to_langchain (assistant_id : string)
    (text thread_id context_id task_id : pyval) : M reply :=
  message_id <- uuid4 ;;
  let message := build_message text message_id context_id task_id in
  let params :=
    PDict [("message", PDict message); ("messageId", PStr message_id)] in
  id <- uuid4 ;;
  let payload := build_payload params id thread_id in
  r <- http_post LangChain
         (Post (langchain_url assistant_id) payload accept_json) ;;
  lift (interpret r).

Definition send_to_google_adk (text thread_id context_id task_id : pyval)
  : M reply :=
  message_id <- uuid4 ;;
  let message := build_message text message_id context_id task_id in
  let params := PDict [("message", PDict message)] in
  id <- uuid4 ;;
  let payload := build_payload params id thread_id in
  r <- http_post GoogleADK (Post google_adk_url payload accept_json) ;;
  lift (interpret r).

(** The local variables of [simulate_conversation]. *)
Record relay_state : Type := State {
  message : pyval;
  shared_thread_id : pyval;
  context_id : pyval;
  langchain_task_id : pyval;
  adk_task_id : pyval;
}.

Inductive flow : Type :=
| Continue (st : relay_state)
| Break (st : relay_state).

(** <<
    message = response
    if new_task_id:
        langchain_task_id = new_task_id
    if new_context_id:
        context_id = new_context_id
        shared_thread_id = new_context_id
>> *)
Definition after_langchain (st : relay_state) (r : reply) : relay_state :=
  State (response r)
        (if truthy (new_context_id r) then new_context_id r
         else shared_thread_id st)
        (if truthy (new_context_id r) then new_context_id r
         else context_id st)
        (if truthy (new_task_id r) then new_task_id r
         else langchain_task_id st)
        (adk_task_id st).

(** The same, with [adk_task_id] in place of [langchain_task_id]. *)
Definition after_google_adk (st : relay_state) (r : reply) : relay_state :=
  State (response r)
        (if truthy (new_context_id r) then new_context_id r
         else shared_thread_id st)
        (if truthy (new_context_id r) then new_context_id r
         else context_id st)
        (langchain_task_id st)
        (if truthy (new_task_id r) then new_task_id r
         else adk_task_id st).

(** First half of the loop body: from [thread_id = context_id or
    shared_thread_id] to the [if success: ... else: ... break] that follows
    the call of [send_to_langchain]. *)
Definition langchain_turn (assistant_id : string) (st : relay_state)
  : M flow :=
  let thread_id := py_or (context_id st) (shared_thread_id st) in
  prefix <- lift (py_slice_to 60 (message st)) ;;
  print (Sending LangChain prefix) ;;;
  r <- send_to_langchain assistant_id (message st) thread_id
         (context_id st) PNone ;;
  if success r then
    print (Said LangChain (response r)) ;;;
    ret (Continue (after_langchain st r))
  else
    print (Failed LangChain (response r)) ;;;
    ret (Break st).

(** Second half: the same towards the Google ADK agent. *)
Definition google_adk_turn (st : relay_state) : M flow :=
  let thread_id := py_or (context_id st) (shared_thread_id st) in
  prefix <- lift (py_slice_to 60 (message st)) ;;
  print (Sending GoogleADK prefix) ;;;
  r <- send_to_google_adk (message st) thread_id (context_id st) PNone ;;
  if success r then
    print (Said GoogleADK (response r)) ;;;
    ret (Continue (after_google_adk st r))
  else
    print (Failed GoogleADK (response r)) ;;;
    ret (Break st).

(** The body of [for i in range(num_rounds)]. *)
Definition round_body (assistant_id : string) (i : Z) (st : relay_state)
  : M flow :=
  print (RoundHeader (i + 1)) ;;;
  print_if (context_id st) (ContextLine (context_id st)) ;;;
  print_if (langchain_task_id st) (TaskLine LangChain (langchain_task_id st)) ;;;
  print_if (adk_task_id st) (TaskLine GoogleADK (adk_task_id st)) ;;;
  print Blank ;;;
  f <- langchain_turn assistant_id st ;;
  match f with
  | Break st' => ret (Break st')
  | Continue st' =>
      print Blank ;;;
      f' <- google_adk_turn st' ;;
      match f' with
      | Break st'' => ret (Break st'')
      | Continue st'' =>
          print Blank ;;;
          print (Rule "-") ;;;
          print Blank ;;;
          ret (Continue st'')        (* then [asyncio.sleep(0.5)] *)
      end
  end.

(** The loop: [n] rounds still to go, [i] the loop variable. *)
Fixpoint rounds (assistant_id : string) (n : nat) (i : Z) (st : relay_state)
  : M relay_state :=
  match n with
  | O => ret st
  | S n' =>
      f <- round_body assistant_id i st ;;
      match f with
      | Continue st' => rounds assistant_id n' (i + 1) st'
      | Break st' => ret st'
      end
  end.

Definition default_message : string :=
  "Repeat this exact message back to me: Hello! I'm a LangChain agent. Can you help me calculate something?".

(** [simulate_conversation(langchain_assistant_id, num_rounds,
    initial_message)].  The Python function returns nothing; the embedding
    returns the local variables as the loop left them. *)
Definition simulate_conversation (langchain_assistant_id : string)
    (num_rounds : Z) (initial_message : option string) : M relay_state :=
  let initial_message :=
    match initial_message with
    | Some m => m
    | None => default_message
    end in
  print (Rule "=") ;;;
  print (Text "Agent-to-Agent Conversation Simulation") ;;;
  print (Rule "=") ;;;
  print (Text ("LangChain Agent: " ++ langchain_url langchain_assistant_id)) ;;;
  print (Text ("Google ADK Agent: " ++ google_adk_url)) ;;;
  print (Rule "=") ;;;
  print Blank ;;;
  shared_thread_id <- uuid4 ;;
  st <- rounds langchain_assistant_id (Z.to_nat num_rounds) 0
          (State (PStr initial_message) (PStr shared_thread_id)
                 PNone PNone PNone) ;;
  print (Rule "=") ;;;
  print (Text "Conversation completed!") ;;;
  print (Rule "=") ;;;
  ret st.

End Driver.

(** A world before anything has happened. *)
Definition fresh_world (n : nat) : world := World n [] [].

(** *** Reading a record of exchanges

    Lists of exchanges are newest first: in [x :: older], [older] is what
    happened before [x]. *)

Section Trace.

Variable W : wording.

(** The send function returned [success = True] for this exchange. *)
Definition succeeded (x : exchange) : bool :=
  match interpret W (got x) with
  | Val r => success r
  | Exc _ => false
  end.

(** The send function returned [success = False] for it. *)
Definition failed (x : exchange) : Prop :=
  exists r, interpret W (got x) = Val r /\ success r = false.

(** The context identifier this exchange's response assigned, [None] when
    the send did not succeed. *)
Definition assigned_context (x : exchange) : pyval :=
  match interpret W (got x) with
  | Val r => if success r then new_context_id r else PNone
  | Exc _ => PNone
  end.

(** The task identifier it assigned. *)
Definition assigned_task (x : exchange) : pyval :=
  match interpret W (got x) with
  | Val r => if success r then new_task_id r else PNone
  | Exc _ => PNone
  end.

(** The most recent truthy context identifier any endpoint assigned. *)
Fixpoint last_context (l : list exchange) : pyval :=
  match l with
  | [] => PNone
  | x :: older =>
      if truthy (assigned_context x) then assigned_context x
      else last_context older
  end.

(** What holds of a request, given the exchanges before it and the thread
    identifier the driver generated at the start. *)
Definition request_ok (t0 : pyval) (older : list exchange) (x : exchange)
  : Prop :=
  envelope_field "contextId" (sent x) =
    (if truthy (last_context older) then Some (last_context older) else None) /\
  envelope_field "taskId" (sent x) = None /\
  metadata_thread_id (sent x) = Some (py_or (last_context older) t0) /\
  forallb succeeded older = true /\
  field "method" (payload (sent x)) = Some (PStr "message/send").

Fixpoint trace_ok (t0 : pyval) (l : list exchange) : Prop :=
  match l with
  | [] => True
  | x :: older => request_ok t0 older x /\ trace_ok t0 older
  end.

(** The driver's variables agree with the record. *)
Definition state_ok (t0 : pyval) (st : relay_state) (l : list exchange)
  : Prop :=
  context_id st = last_context l /\
  shared_thread_id st = py_or (last_context l) t0.

End Trace.

(** *** The per-endpoint reading of the identifiers

    The specification's data model speaks of identifiers "from that specific
    endpoint's last response" and of "endpoint-local namespaces".  Written
    out over a record of exchanges: *)

Section PerEndpoint.

Variable W : wording.

Definition same_endpoint (a b : endpoint) : bool :=
  match a, b with
  | LangChain, LangChain | GoogleADK, GoogleADK => true
  | _, _ => false
  end.

(** Endpoint [ep] assigned an identifier (picked by [select]) in some
    exchange of [older]. *)
Definition assigned_by (ep : endpoint) (select : exchange -> pyval)
    (older : list exchange) : bool :=
  existsb (fun y => same_endpoint (to y) ep && truthy (select y))%bool older.

(** Each envelope has [contextId] exactly when its endpoint assigned a
    context identifier before, and [taskId] exactly when its endpoint
    assigned a task identifier before. *)
Definition per_endpoint_envelopes (l : list exchange) : Prop :=
  forall newer x older,
    l = (newer ++ x :: older)%list ->
    (envelope_field "contextId" (sent x) <> None <->
     assigned_by (to x) (assigned_context W) older = true) /\
    (envelope_field "taskId" (sent x) <> None <->
     assigned_by (to x) (assigned_task W) older = true).

(** No identifier one endpoint assigned is sent to the other. *)
Definition endpoint_local (l : list exchange) : Prop :=
  forall newer x older y v,
    l = (newer ++ x :: older)%list ->
    In y older -> to y <> to x ->
    truthy v = true ->
    assigned_context W y = v \/ assigned_task W y = v ->
    envelope_field "contextId" (sent x) <> Some v /\
    envelope_field "taskId" (sent x) <> Some v.

(** The context identifier endpoint [ep] itself assigned last. *)
Fixpoint own_context (ep : endpoint) (l : list exchange) : pyval :=
  match l with
  | [] => PNone
  | x :: older =>
      if (same_endpoint (to x) ep && truthy (assigned_context W x))%bool
      then assigned_context W x
      else own_context ep older
  end.

(** Every request carries as [metadata.thread_id] the context identifier
    its own endpoint assigned last, and before that endpoint assigned one,
    the shared thread identifier, whatever that is then. *)
Definition per_endpoint_thread_id (shared : list exchange -> pyval)
    (l : list exchange) : Prop :=
  forall newer x older,
    l = (newer ++ x :: older)%list ->
    metadata_thread_id (sent x) =
    Some (if truthy (own_context (to x) older)
          then own_context (to x) older
          else shared older).

End PerEndpoint.

(** *** Atomicity of a round, as the word would have it

    A round that ends in [break] leaves the driver's variables as they were
    when the round began. *)
Definition round_atomic (W : wording) (uuid_of : nat -> string)
    (post : list exchange -> request -> http_result)
    (assistant_id : string) : Prop :=
  forall i st w st' w',
    round_body W uuid_of post assistant_id i st w = (Val (Break st'), w') ->
    st' = st.

(** *** Names for what the proofs speak about *)

Section Reading.

Variable W : wording.
Variable uuid_of : nat -> string.
Variable post : list exchange -> request -> http_result.
Variable assistant_id : string.

(** The request a turn sends, from the driver's variables and the next
    identifier of the supply. *)
Definition turn_request (ep : endpoint) (st : relay_state) (u : nat)
  : request :=
  let m := build_message (message st) (uuid_of u) (context_id st) PNone in
  let thread_id := py_or (context_id st) (shared_thread_id st) in
  match ep with
  | LangChain =>
      Post (langchain_url assistant_id)
           (build_payload
              (PDict [("message", PDict m); ("messageId", PStr (uuid_of u))])
              (uuid_of (S u)) thread_id)
           accept_json
  | GoogleADK =>
      Post google_adk_url
           (build_payload (PDict [("message", PDict m)])
              (uuid_of (S u)) thread_id)
           accept_json
  end.

Definition turn (ep : endpoint) (st : relay_state) : M flow :=
  match ep with
  | LangChain => langchain_turn W uuid_of post assistant_id st
  | GoogleADK => google_adk_turn W uuid_of post st
  end.

Definition after (ep : endpoint) (st : relay_state) (r : reply)
  : relay_state :=
  match ep with
  | LangChain => after_langchain st r
  | GoogleADK => after_google_adk st r
  end.

(** The newest exchange failed and its error is the newest line of the
    console. *)
Definition reported (w' : world) : Prop :=
  exists x older r rest,
    exchanges w' = x :: older /\
    interpret W (got x) = Val r /\ success r = false /\
    console w' = Failed (to x) (response r) :: rest.

(** An exception left the driver: before anything was sent in this turn, or
    out of the send function. *)
Definition crashed (w' : world) : Prop :=
  forallb (succeeded W) (exchanges w') = true \/
  exists x older e, exchanges w' = x :: older /\ interpret W (got x) = Exc e.

Definition turn_post (t0 : pyval) (st : relay_state) (o : outcome flow)
    (w' : world) : Prop :=
  trace_ok W t0 (exchanges w') /\
  match o with
  | Val (Continue st') =>
      forallb (succeeded W) (exchanges w') = true /\
      state_ok W t0 st' (exchanges w')
  | Val (Break st') => st' = st /\ reported w'
  | Exc _ => crashed w'
  end.

Definition with_console (w : world) (c : list line) : world :=
  World (next_uuid w) (exchanges w) c.

Definition round_post (t0 : pyval) (o : outcome flow) (w' : world) : Prop :=
  trace_ok W t0 (exchanges w') /\
  match o with
  | Val (Continue st') =>
      forallb (succeeded W) (exchanges w') = true /\
      state_ok W t0 st' (exchanges w')
  | Val (Break _) => reported w'
  | Exc _ => crashed w'
  end.

Definition loop_post (t0 : pyval) (o : outcome relay_state) (w' : world)
  : Prop :=
  trace_ok W t0 (exchanges w') /\
  match o with
  | Val _ => forallb (succeeded W) (exchanges w') = true \/ reported w'
  | Exc _ => crashed w'
  end.

(** The whole run, from a world in which nothing has happened yet. *)
Definition run (num_rounds : Z) (initial_message : option string) (n : nat)
  : outcome relay_state * world :=
  simulate_conversation W uuid_of post assistant_id num_rounds
    initial_message (fresh_world n).

Definition completed : list line :=
  [Rule "="; Text "Conversation completed!"; Rule "="].

End Reading.

(** The object under the [result] key of a decoded response, and what it
    means for it to omit a field. *)
Definition result_object (h : http_result) : option pyval :=
  match h with
  | Responded _ (Val result) _ => field "result" result
  | _ => None
  end.

Definition omits (k : string) (h : http_result) : Prop :=
  match result_object h with
  | Some result_obj => field k result_obj = None
  | None => True
  end.

Definition or_none (o : option pyval) : pyval :=
  match o with
  | Some v => v
  | None => PNone
  end.

Definition mock_uuid (n : nat) : string := "uuid-" ++ str_Z (Z.of_nat n).

(** A successful A2A response body. *)
Definition task_body (id ctx text : string) : pyval :=
  PDict [("result",
          PDict [("id", PStr id);
                 ("contextId", PStr ctx);
                 ("artifacts",
                  PList [PDict [("parts", PList [PDict [("text", PStr text)]])]])])].

Definition ok (id ctx text : string) : http_result :=
  Responded 200 (Val (task_body id ctx text)) (Val "").

Definition http_500 : http_result :=
  Responded 500
    (Exc (Foreign (OtherException "ContentTypeError") "unexpected mimetype"))
    (Val "Internal Server Error").

(** The endpoints answer from a script, one entry for each request in turn,
    and with HTTP 500 when the script is exhausted. *)
Definition scripted (script : list http_result)
    (history : list exchange) (_ : request) : http_result :=
  nth (List.length history) script http_500.

Definition mock_run (script : list http_result) (num_rounds : Z)
    (initial_message : string) : outcome relay_state * world :=
  run cpython_wording mock_uuid (scripted script) "asst" num_rounds
    (Some initial_message) 0.

(** Endpoint A assigns "c1" and answers "Hi back"; endpoint B is down. *)
Definition scenario : outcome relay_state * world :=
  mock_run [ok "t1" "c1" "Hi back"] 5 "Hello".

(** Two full rounds, then endpoint A fails with HTTP 500. *)
Definition two_rounds : outcome relay_state * world :=
  mock_run [ok "t1" "c1" "Hi back"; ok "t2" "c2" "Hello again";
            ok "t3" "c2" "Third"; ok "t4" "c2" "Fourth"] 5 "Hello".


Definition no_exchange : exchange :=
  Exchange LangChain (Post "" PNone []) http_500.

(** The [k]-th exchange of a run, counted from the first one sent. *)
Definition nth_sent (k : nat) (w : world) : exchange :=
  nth k (rev (exchanges w)) no_exchange.


(** A response whose [result] object has no [contextId] and no [id]. *)
Definition bare_body (text : string) : pyval :=
  PDict [("result",
          PDict [("artifacts",
                  PList [PDict [("parts", PList [PDict [("text", PStr text)]])]])])].

Definition known_state : relay_state :=
  State (PStr "Hello") (PStr "c1") (PStr "c1") (PStr "t1") (PStr "t2").

Definition bare_turn : outcome flow * world :=
  langchain_turn cpython_wording mock_uuid
    (scripted [Responded 200 (Val (bare_body "Hi")) (Val "")])
    "asst" known_state (fresh_world 0).

Definition state_after (res : outcome flow * world) (dflt : relay_state)
  : relay_state :=
  match fst res with
  | Val (Continue st) | Val (Break st) => st
  | Exc _ => dflt
  end.

Definition start_state : relay_state :=
  State (PStr "Hello") (PStr "uuid-0") PNone PNone PNone.

(** The first round of [scenario]: endpoint A answers, endpoint B is down. *)
Definition half_round : outcome flow * world :=
  round_body cpython_wording mock_uuid (scripted [ok "t1" "c1" "Hi back"])
    "asst" 0 start_state (fresh_world 1).

End Relay.

(** ** More about the relay: what is relayed, to whom, under which names *)

Module Conversation.
Import Py Relay.

Section Reading.

Variable W : wording.
Variable uuid_of : nat -> string.
Variable post : list exchange -> request -> http_result.
Variable assistant_id : string.

(** The response text a successful exchange brought back. *)
Definition assigned_text (x : exchange) : option pyval :=
  match interpret W (got x) with
  | Val r => if success r then Some (response r) else None
  | Exc _ => None
  end.

(** The driver's [message] after the exchanges [l], from the initial
    message [m0]: the text of the most recent successful response. *)
Fixpoint last_text (m0 : pyval) (l : list exchange) : pyval :=
  match l with
  | [] => m0
  | x :: older =>
      match assigned_text x with
      | Some t => t
      | None => last_text m0 older
      end
  end.

(** The most recent truthy task identifier endpoint [ep] assigned. *)
Fixpoint last_task (ep : endpoint) (l : list exchange) : pyval :=
  match l with
  | [] => PNone
  | x :: older =>
      if (same_endpoint (to x) ep && truthy (assigned_task W x))%bool
      then assigned_task W x
      else last_task ep older
  end.

(** Who is addressed by the request that follows [k] earlier ones. *)
Definition endpoint_at (k : nat) : endpoint :=
  if Nat.even k then LangChain else GoogleADK.

Definition url_of (ep : endpoint) : string :=
  match ep with
  | LangChain => langchain_url assistant_id
  | GoogleADK => google_adk_url
  end.

(** The [messageId] key beside [message] in [params]: the LangChain request
    repeats the message's identifier there, the Google ADK request has no
    such key. *)
Definition params_message_id (req : request) : option pyval :=
  match field "params" (payload req) with
  | Some params => field "messageId" params
  | None => None
  end.

(** What holds of the request [x] sent after [older], in a run that started
    with the identifier supply at [n0] and the message [m0]. *)
Definition request_full (n0 : nat) (m0 : pyval) (older : list exchange)
    (x : exchange) : Prop :=
  let k := List.length older in
  to x = endpoint_at k /\
  url (sent x) = url_of (to x) /\
  headers (sent x) = accept_json /\
  got x = post older (sent x) /\
  envelope_field "role" (sent x) = Some (PStr "user") /\
  envelope_text (sent x) = Some (last_text m0 older) /\
  envelope_field "messageId" (sent x) =
    Some (PStr (uuid_of (n0 + 1 + 2 * k)%nat)) /\
  field "id" (payload (sent x)) = Some (PStr (uuid_of (n0 + 2 + 2 * k)%nat)) /\
  field "jsonrpc" (payload (sent x)) = Some (PStr "2.0") /\
  params_message_id (sent x) =
    match to x with
    | LangChain => Some (PStr (uuid_of (n0 + 1 + 2 * k)%nat))
    | GoogleADK => None
    end.

Fixpoint trace_full (n0 : nat) (m0 : pyval) (l : list exchange) : Prop :=
  match l with
  | [] => True
  | x :: older => request_full n0 m0 older x /\ trace_full n0 m0 older
  end.

(** The driver's variables, read off the record. *)
Definition state_full (n0 : nat) (m0 : pyval) (st : relay_state)
    (l : list exchange) : Prop :=
  message st = last_text m0 l /\
  context_id st = last_context W l /\
  shared_thread_id st = py_or (last_context W l) (PStr (uuid_of n0)) /\
  langchain_task_id st = last_task LangChain l /\
  adk_task_id st = last_task GoogleADK l.

(** Between two turns, as long as every send has succeeded. *)
Definition between_turns (n0 : nat) (m0 : pyval) (st : relay_state)
    (w : world) : Prop :=
  next_uuid w = (n0 + 1 + 2 * List.length (exchanges w))%nat /\
  state_full n0 m0 st (exchanges w) /\
  forallb (succeeded W) (exchanges w) = true /\
  trace_full n0 m0 (exchanges w).

(** How a run can end: the loop ran out, a send returned
    [success = False] and the loop was left by [break], or an exception left
    the driver.  The first two come with the driver's variables. *)
Inductive ending : Type :=
| Finished (st : relay_state)
| Stopped (st : relay_state)
| Raised (e : exn).

Definition ends_as (o : outcome relay_state) (how : ending) : Prop :=
  match how with
  | Finished st | Stopped st => o = Val st
  | Raised e => o = Exc e
  end.

Definition ending_ok (n0 : nat) (m0 : pyval) (how : ending)
    (l : list exchange) : Prop :=
  trace_full n0 m0 l /\
  match how with
  | Finished st =>
      forallb (succeeded W) l = true /\ state_full n0 m0 st l
  | Stopped st =>
      state_full n0 m0 st l /\
      exists x older, l = x :: older /\ failed W x /\
                      forallb (succeeded W) older = true
  | Raised e =>
      (forallb (succeeded W) l = true /\
       py_slice_to 60 (last_text m0 l) = Exc e) \/
      (exists x older, l = x :: older /\ interpret W (got x) = Exc e /\
                       forallb (succeeded W) older = true)
  end.

(** The text the first request carries. *)
Definition first_message (initial_message : option string) : pyval :=
  PStr match initial_message with
       | Some m => m
       | None => default_message
       end.

End Reading.

(** The shape of a response that makes a send succeed, with the reply it
    is read as. *)
Inductive success_shape : http_result -> reply -> Prop :=
| Shape d ro a arest p prest txt t :
    dict_get "error" d = None ->
    dict_get "result" d = Some (PDict ro) ->
    dict_get "artifacts" ro = Some (PList (PDict a :: arest)) ->
    dict_get "parts" a = Some (PList (PDict p :: prest)) ->
    dict_get "text" p = Some txt ->
    success_shape
      (Responded 200 (Val (PDict d)) t)
      (Reply true txt (or_none (dict_get "id" ro))
                      (or_none (dict_get "contextId" ro))).

(** Where an exception that gets out of a send function comes from: the
    HTTP client raised it. *)
Inductive raised_by_client (e : exn) : http_result -> Prop :=
| ByPost : raised_by_client e (PostRaises e)
| ByJson status t : raised_by_client e (Responded status (Exc e) t)
| ByText status j : raised_by_client e (Responded status j (Exc e)).

(** *** More runs against mock endpoints *)

(** Two rounds asked for, and both endpoints answer each time. *)
Definition full_run : outcome relay_state * world :=
  mock_run [ok "t1" "c1" "Hi back"; ok "t2" "c2" "Hello again";
            ok "t3" "c2" "Third"; ok "t4" "c2" "Fourth"] 2 "Hello".

(** Endpoint A answers with a number where the text should be. *)
Definition numeric_body : pyval :=
  PDict [("result",
          PDict [("id", PStr "t1");
                 ("artifacts",
                  PList [PDict [("parts", PList [PDict [("text", PInt 42)]])]])])].

Definition numeric_run : outcome relay_state * world :=
  mock_run [Responded 200 (Val numeric_body) (Val "")] 3 "Hello".

(** An endpoint that always answers the same. *)
Definition steady (_ : list exchange) (_ : request) : http_result :=
  ok "t" "c" "again".

(** The variables a run ended with. *)
Definition state_of (res : outcome relay_state * world) : relay_state :=
  match fst res with
  | Val st => st
  | Exc _ => State PNone PNone PNone PNone PNone
  end.

End Conversation.

(** ** The command line ([src/test_agent_conversation.py], [main])

    [main] reads its settings from the environment and from [sys.argv],
    and runs the relay.  The environment is a lookup, [sys.argv] a list, and
    Python's [int] on a string is a parameter: it returns the integer or
    raises [ValueError]. *)

Module Main.
Import Py Relay.

Section CommandLine.

Variable W : wording.
Variable uuid_of : nat -> string.
Variable post : list exchange -> request -> http_result.
Variable py_int : string -> outcome Z.

(** [sys.exit(1)] *)
Definition system_exit_1 : exn := Foreign SystemExit "1".

Definition raise {A} (e : exn) : M A := fun w => (Exc e, w).

Fixpoint print_all (ls : list line) : M unit :=
  match ls with
  | [] => ret tt
  | l :: ls' => print l ;;; print_all ls'
  end.

Definition usage : list line :=
  [ Text "Error: LangChain assistant ID is required";
    Blank;
    Text "Usage:";
    Text "  python test_agent_conversation.py <langchain_assistant_id>";
    Blank;
    Text "Or set environment variable:";
    Text "  export LANGCHAIN_ASSISTANT_ID=<assistant_id>";
    Blank;
    Text "To get the assistant_id:";
    Text "  1. Start LangChain agent: cd langchain_agent && langgraph dev --port 2024";
    Text "  2. Copy the assistant_id from the output" ].

(** [os.getenv(name, default)] *)
Definition getenv_or (env : string -> option string) (name dflt : string)
  : string :=
  match env name with
  | Some v => v
  | None => dflt
  end.

(** <<
    langchain_assistant_id = os.getenv("LANGCHAIN_ASSISTANT_ID")
    if len(sys.argv) > 1:
        langchain_assistant_id = sys.argv[1]
    if not langchain_assistant_id:
        print(...); sys.exit(1)
    num_rounds = int(os.getenv("NUM_ROUNDS", "5"))
    if len(sys.argv) > 2:
        num_rounds = int(sys.argv[2])
    initial_message = os.getenv("INITIAL_MESSAGE")
    if len(sys.argv) > 3:
        initial_message = sys.argv[3]
    print("Starting conversation simulation...")
    print(f"LangChain Assistant ID: {langchain_assistant_id}")
    print(f"Number of rounds: {num_rounds}")
    print()
    asyncio.run(simulate_conversation(langchain_assistant_id,
        num_rounds=num_rounds, initial_message=initial_message))
>> *)
Definition main (env : string -> option string) (argv : list string)
  : M unit :=
  let langchain_assistant_id := env "LANGCHAIN_ASSISTANT_ID" in
  let langchain_assistant_id :=
    if Nat.ltb 1 (List.length argv) then Some (nth 1 argv "")
    else langchain_assistant_id in
  match langchain_assistant_id with
  | None | Some EmptyString => print_all usage ;;; raise system_exit_1
  | Some langchain_assistant_id =>
      num_rounds <- lift (py_int (getenv_or env "NUM_ROUNDS" "5")) ;;
      num_rounds <-
        (if Nat.ltb 2 (List.length argv)
         then lift (py_int (nth 2 argv ""))
         else ret num_rounds) ;;
      let initial_message := env "INITIAL_MESSAGE" in
      let initial_message :=
        if Nat.ltb 3 (List.length argv) then Some (nth 3 argv "")
        else initial_message in
      print (Text "Starting conversation simulation...") ;;;
      print (Text ("LangChain Assistant ID: " ++ langchain_assistant_id)) ;;;
      print (Text ("Number of rounds: " ++ str_Z num_rounds)) ;;;
      print Blank ;;;
      simulate_conversation W uuid_of post langchain_assistant_id num_rounds
        initial_message ;;;
      ret tt
  end.

End CommandLine.

(** Two worlds that differ in their consoles only. *)
Definition alike (w1 w2 : world) : Prop :=
  next_uuid w1 = next_uuid w2 /\ exchanges w1 = exchanges w2.

(** A toy [int]: it knows three numerals. *)
Definition toy_int (s : string) : outcome Z :=
  if String.eqb s "5" then Val 5
  else if String.eqb s "1" then Val 1
  else if String.eqb s "2" then Val 2
  else Exc (Foreign ValueError
              ("invalid literal for int() with base 10: " ++ quoted s)).

Definition no_env (_ : string) : option string := None.

(** An environment that names the assistant and asks for rounds that are
    no number. *)
Definition bad_rounds_env (name : string) : option string :=
  if String.eqb name "LANGCHAIN_ASSISTANT_ID" then Some "asst"
  else if String.eqb name "NUM_ROUNDS" then Some "five"
  else None.

Definition good_env (name : string) : option string :=
  if String.eqb name "LANGCHAIN_ASSISTANT_ID" then Some "from-env"
  else if String.eqb name "NUM_ROUNDS" then Some "5"
  else if String.eqb name "INITIAL_MESSAGE" then Some "Hi from env"
  else None.

(** What [main] makes of the outcome of the relay: it returns nothing. *)
Definition forget {A} (o : outcome A) : outcome unit :=
  match o with
  | Val _ => Val tt
  | Exc e => Exc e
  end.

(** A computation that does not look at the console. *)
Definition insensitive {A} (m : M A) : Prop :=
  forall w1 w2,
    alike w1 w2 ->
    fst (m w1) = fst (m w2) /\ alike (snd (m w1)) (snd (m w2)).

End Main.

(** ** Properties of the calculator tool *)

Module CalculatorFacts.
Import Py Calculator.

Example parse_2_plus_2 : parse "2 + 2" = Parsed (EBin Add (EInt 2) (EInt 2)).
Proof. reflexivity. Qed.

Example parse_precedence :
  parse "-2 ** 2 + 3 * max(4, 5)" =
  Parsed (EBin Add (EUn UMinus (EBin Pow (EInt 2) (EInt 2)))
                   (EBin Mul (EInt 3) (ECall (EName "max") [EInt 4; EInt 5]))).
Proof. vm_compute. reflexivity. Qed.

Example parse_import :
  parse "__import__('os')" = Parsed (ECall (EName "__import__") [EStr "os"]).
Proof. vm_compute. reflexivity. Qed.

Example parse_float_outside : parse "0.1 + 0.2" = Outside.
Proof. vm_compute. reflexivity. Qed.

Example parse_dangling : parse "2 +" = NotAnExpression.
Proof. vm_compute. reflexivity. Qed.

Example calculate_import :
  cpython "__import__('os')" =
  Returns "Error calculating expression: name '__import__' is not defined".
Proof. vm_compute. reflexivity. Qed.

Example calculate_mixed :
  cpython "sum([1, 2, 3]) * -abs(2 - 7) // 4 + pow(2, 10) % 7" =
  Returns "The result is: -6".
Proof. vm_compute. reflexivity. Qed.

Example calculate_builtins : cpython "__builtins__" = Returns "The result is: {}".
Proof. vm_compute. reflexivity. Qed.

Example calculate_digits :
  cpython "10 ** 4300" =
  Returns ("Error calculating expression: " ++ cpython_wording TooManyDigits).
Proof. vm_compute. reflexivity. Qed.

Example calculate_syntax :
  cpython "2 +" =
  Returns "Error calculating expression: invalid syntax (<string>, line 1)".
Proof. vm_compute. reflexivity. Qed.

Example calculate_nothing :
  cpython "" =
  Returns "Error calculating expression: invalid syntax (<string>, line 0)".
Proof. vm_compute. reflexivity. Qed.

Example parse_unclosed : parse "(1 +" = Outside.
Proof. vm_compute. reflexivity. Qed.

Example parse_attribute :
  parse "abs.__self__" = Parsed (EAttr (EName "abs") "__self__").
Proof. vm_compute. reflexivity. Qed.

Example calculate_module :
  cpython "abs.__self__" = Returns "The result is: <module 'builtins' (built-in)>".
Proof. vm_compute. reflexivity. Qed.

Example calculate_quotient : cpython "7 / 2" = Returns "The result is: 3.5".
Proof. vm_compute. reflexivity. Qed.

Example calculate_small_quotient :
  cpython "1 / 30000" = Returns "The result is: 3.3333333333333335e-05".
Proof. vm_compute. reflexivity. Qed.

Example calculate_minus_zero : cpython "0 / -5" = Returns "The result is: -0.0".
Proof. vm_compute. reflexivity. Qed.

Example calculate_tie :
  cpython "9007199254740991 / 4" = Returns "The result is: 2251799813685247.8".
Proof. vm_compute. reflexivity. Qed.

Example calculate_huge_power : cpython "9 ** 9 ** 9" = Beyond.
Proof. vm_compute. reflexivity. Qed.

(** *** Induction on expressions, through the lists of sub-expressions *)

Lemma expr_ind' (P : expr -> Prop) :
  (forall z, P (EInt z)) ->
  (forall s, P (EStr s)) ->
  (forall x, P (EName x)) ->
  (forall es, Forall P es -> P (EList es)) ->
  (forall f args, P f -> Forall P args -> P (ECall f args)) ->
  (forall a name, P a -> P (EAttr a name)) ->
  (forall op a, P a -> P (EUn op a)) ->
  (forall op a b, P a -> P b -> P (EBin op a b)) ->
  forall e, P e.
Proof.
  intros HInt HStr HName HList HCall HAttr HUn HBin.
  fix IH 1. intros [z|s|x|es|f args|a name|op a|op a b].
  - apply HInt.
  - apply HStr.
  - apply HName.
  - apply HList. induction es as [|x xs IHxs]; constructor;
      [apply IH | exact IHxs].
  - apply HCall; [apply IH|].
    induction args as [|x xs IHxs]; constructor; [apply IH | exact IHxs].
  - apply HAttr, IH.
  - apply HUn, IH.
  - apply HBin; apply IH.
Qed.

(** *** The evaluator computes the mathematical value *)

Lemma ints_of_map zs : ints_of (map VInt zs) = Some zs.
Proof. induction zs as [|z zs IH]; simpl; [reflexivity | now rewrite IH]. Qed.

Lemma numbers_of_map os zs :
  numbers_of os = Some zs -> map value_of os = map VInt zs.
Proof.
  revert zs. induction os as [|[z|l] os IH]; simpl; intros zs.
  - now intros [= <-].
  - destruct (numbers_of os); [|discriminate].
    intros [= <-]. simpl. f_equal. now apply IH.
  - discriminate.
Qed.

Lemma total_fold_right zs : total zs = fold_right Z.add 0 zs.
Proof.
  unfold total.
  assert (H : forall a, fold_left Z.add zs a = a + fold_right Z.add 0 zs).
  { induction zs as [|z zs IH]; simpl; intros a; [lia|]. rewrite IH. lia. }
  rewrite H. lia.
Qed.

Lemma extremum_numbers f z1 z2 zs :
  extremum f (VInt z1 :: VInt z2 :: map VInt zs) =
  Returns (VInt (fold_left f (z2 :: zs) z1)).
Proof. simpl. now rewrite ints_of_map. Qed.

Lemma extremum_list f z zs :
  extremum f [VList (map VInt (z :: zs))] = Returns (VInt (fold_left f zs z)).
Proof. unfold extremum. now rewrite ints_of_map. Qed.

Lemma call_builtin_math b os z :
  math_call b os = Some z ->
  call_builtin b (map value_of os) = Returns (VInt z).
Proof.
  destruct b; simpl.
  - destruct os as [|[x|l] [|]]; try discriminate. now intros [= <-].
  - destruct os as [|[x|l] [|[n|l'] [|]]]; try discriminate.
    + now intros [= <-].
    + simpl. destruct (0 <=? n); [now intros [= <-] | discriminate].
  - destruct os as [|[x|l] [|o os]]; try discriminate.
    + destruct (numbers_of _) as [zs|] eqn:E; [|discriminate].
      apply numbers_of_map in E. rewrite E.
      destruct zs as [|a [|c zs]]; try discriminate.
      intros [= <-]. apply extremum_numbers.
    + destruct l as [|a l]; [discriminate|]. intros [= <-].
      apply extremum_list.
  - destruct os as [|[x|l] [|o os]]; try discriminate.
    + destruct (numbers_of _) as [zs|] eqn:E; [|discriminate].
      apply numbers_of_map in E. rewrite E.
      destruct zs as [|a [|c zs]]; try discriminate.
      intros [= <-]. apply extremum_numbers.
    + destruct l as [|a l]; [discriminate|]. intros [= <-].
      apply extremum_list.
  - destruct os as [|[x|l] [|[s|l'] [|]]]; try discriminate.
    + intros [= <-]. simpl. now rewrite ints_of_map, total_fold_right.
    + intros [= <-]. simpl. now rewrite ints_of_map, total_fold_right.
  - destruct os as [|[a|l] [|[c|l'] [|]]]; try discriminate.
    simpl. unfold int_pow.
    destruct ((0 <=? c) && modest_power a c); [now intros [= <-] | discriminate].
  - discriminate.
  - discriminate.
Qed.

Lemma permitted_bound f b :
  permitted f = Some b -> load_name allowed_names f = Returns (VFun b).
Proof.
  unfold permitted.
  repeat match goal with
         | |- context [String.eqb f ?k] =>
             destruct (String.eqb_spec f k) as [->|_];
             [intros [= <-]; reflexivity|]
         end.
  discriminate.
Qed.

Lemma apply_binop_math op x y z :
  math_binop op x y = Some z ->
  apply_binop op (VInt x) (VInt y) = Returns (VInt z).
Proof.
  destruct op; simpl; unfold int_pow; try discriminate;
    try (now intros [= <-]);
    destruct (_ : bool); try discriminate; now intros [= <-].
Qed.

Lemma sound_number e :
  (forall z, denote e = Some z ->
             eval_expr allowed_names e = Returns (VInt z)) ->
  (forall o, option_map Number (denote e) = Some o ->
             eval_expr allowed_names e = Returns (value_of o)).
Proof.
  intros H o. destruct (denote e) as [z|]; [|discriminate].
  intros [= <-]. now apply H.
Qed.

Lemma denote_all_sound es zs :
  Forall sound es -> denote_all es = Some zs ->
  eval_all allowed_names es = Returns (map VInt zs).
Proof.
  intros H. revert zs. induction H as [|x xs [Hx _] _ IH]; simpl; intros zs.
  - now intros [= <-].
  - destruct (denote x) as [z|] eqn:Ex; [|discriminate].
    destruct (denote_all xs) as [zs'|]; [|discriminate].
    intros [= <-]. rewrite (Hx _ eq_refl). simpl.
    now rewrite (IH _ eq_refl).
Qed.

Lemma operands_sound es os :
  Forall sound es -> operands es = Some os ->
  eval_all allowed_names es = Returns (map value_of os).
Proof.
  intros H. revert os. induction H as [|x xs [_ Hx] _ IH]; simpl; intros os.
  - now intros [= <-].
  - destruct (operand_of x) as [o|] eqn:Ex; [|discriminate].
    destruct (operands xs) as [os'|]; [|discriminate].
    intros [= <-]. rewrite (Hx _ eq_refl). simpl.
    now rewrite (IH _ eq_refl).
Qed.

Lemma denote_sound e : sound e.
Proof.
  induction e as [z|s|y|es IH|f args IHf IHargs|a name _|op a IHa
                  |op a b IHa IHb]
    using expr_ind'.
  - split; [now intros z' [= <-] | now intros o [= <-]].
  - split; discriminate.
  - split; discriminate.
  - split; [discriminate|].
    intros o. change (operand_of (EList es))
      with (option_map Numbers (denote_all es)).
    destruct (denote_all es) as [zs|] eqn:E; [|discriminate].
    intros [= <-].
    change (eval_expr allowed_names (EList es))
      with (vs <- eval_all allowed_names es ;; Returns (VList vs)).
    now rewrite (denote_all_sound _ _ IH E).
  - assert (H : forall z, denote (ECall f args) = Some z ->
                eval_expr allowed_names (ECall f args) = Returns (VInt z)).
    { intros z. destruct f; try discriminate.
      change (denote (ECall (EName x) args))
        with (match permitted x, operands args with
              | Some b, Some os => math_call b os
              | _, _ => None
              end).
      destruct (permitted x) as [b|] eqn:Eb; [|discriminate].
      destruct (operands args) as [os|] eqn:Eos; [|discriminate].
      intros Hm.
      change (eval_expr allowed_names (ECall (EName x) args))
        with (fv <- load_name allowed_names x ;;
              vs <- eval_all allowed_names args ;; call fv vs).
      rewrite (permitted_bound _ _ Eb). simpl.
      rewrite (operands_sound _ _ IHargs Eos). simpl.
      now apply call_builtin_math. }
    split; [exact H | exact (sound_number _ H)].
  - split; discriminate.
  - destruct IHa as [IHa _].
    assert (H : forall z, denote (EUn op a) = Some z ->
                eval_expr allowed_names (EUn op a) = Returns (VInt z)).
    { intros z. simpl. destruct op.
      - intros Ha. now rewrite (IHa _ Ha).
      - destruct (denote a) as [x|]; [|discriminate].
        intros [= <-]. now rewrite (IHa _ eq_refl). }
    split; [exact H | exact (sound_number _ H)].
  - destruct IHa as [IHa _], IHb as [IHb _].
    assert (H : forall z, denote (EBin op a b) = Some z ->
                eval_expr allowed_names (EBin op a b) = Returns (VInt z)).
    { intros z. simpl.
      destruct (denote a) as [x|]; [|discriminate].
      destruct (denote b) as [y|]; [|discriminate].
      intros Hm. rewrite (IHa _ eq_refl), (IHb _ eq_refl). simpl.
      now apply apply_binop_math. }
    split; [exact H | exact (sound_number _ H)].
Qed.

(** *** The claims about [calculate] *)








End CalculatorFacts.

(** ** More properties of the calculator tool *)

Module CalculatorTheorems.
Import Py Calculator CalculatorFacts.

(** Evaluation goes left to right, so a name that is not in the namespace
    and stands leftmost in the expression is what evaluation meets first. *)
Lemma leftmost_undefined x : forall e,
  leftmost e = EName x ->
  lookup x allowed_names = None ->
  eval_expr allowed_names e = Raises (Fault (UndefinedName x)).
Proof.
  intros e. induction e as [z|s|y|es IH|f args IHf _|a name IHa|op a IHa
                            |op a b IHa _]
    using expr_ind'; simpl leftmost; intros Hl Hx; try discriminate.
  - injection Hl as ->. simpl. unfold load_name. now rewrite Hx.
  - destruct es as [|e0 es]; [discriminate|].
    change (eval_expr allowed_names (EList (e0 :: es)))
      with (vs <- (v <- eval_expr allowed_names e0 ;;
                   vs <- eval_all allowed_names es ;; Returns (v :: vs)) ;;
            Returns (VList vs)).
    inversion IH as [|? ? H0 _]; subst. now rewrite (H0 Hl Hx).
  - change (eval_expr allowed_names (ECall f args))
      with (fv <- eval_expr allowed_names f ;;
            vs <- eval_all allowed_names args ;; call fv vs).
    now rewrite (IHf Hl Hx).
  - simpl. now rewrite (IHa Hl Hx).
  - simpl. now rewrite (IHa Hl Hx).
  - simpl. now rewrite (IHa Hl Hx).
Qed.

(** X1: Text whose leftmost name is not bound in the namespace [calculate]
    passes to [eval] (it binds the six permitted names and [__builtins__])
    is answered with the error string for that name, without any of the rest
    being evaluated: calling [__import__], [open], [exec] or [eval] gets
    nowhere, whatever the arguments and whatever is done with the result. *)
Theorem unknown_name_is_refused (W : wording) (limit : nat)
    (s : string) (e : expr) (x : string) :
  parse s = Parsed e ->
  leftmost e = EName x ->
  lookup x allowed_names = None ->
  calculate W limit s =
  Returns ("Error calculating expression: " ++ W (UndefinedName x)).
Proof.
  intros Hp Hl Hx. unfold calculate, try_except, py_eval. rewrite Hp.
  now rewrite (leftmost_undefined x e Hl Hx).
Qed.

Lemma unknown_name_is_refused_witness :
  cpython "__import__('os').system('ls') + 1 // 0" =
  Returns ("Error calculating expression: " ++
           cpython_wording (UndefinedName "__import__")).
Proof.
  apply (unknown_name_is_refused cpython_wording 4300
           "__import__('os').system('ls') + 1 // 0"
           (EBin Add
              (ECall (EAttr (ECall (EName "__import__") [EStr "os"]) "system")
                     [EStr "ls"])
              (EBin FloorDiv (EInt 1) (EInt 0)))
           "__import__").
  - vm_compute. reflexivity.
  - reflexivity.
  - reflexivity.
Defined.

(** X2: An integer result with more digits than the interpreter converts to
    text is not shown: formatting it raises inside the [try], and
    [calculate] answers with the error string although the evaluation
    succeeded with the right value. *)
Theorem oversized_result_is_an_error (W : wording) (limit : nat)
    (s : string) (e : expr) (z : Z) :
  parse s = Parsed e ->
  denote e = Some z ->
  digits_within limit z = false ->
  py_eval s allowed_names = Returns (VInt z) /\
  calculate W limit s =
  Returns ("Error calculating expression: " ++ W TooManyDigits).
Proof.
  intros Hp Hd Hl.
  assert (He : py_eval s allowed_names = Returns (VInt z)).
  { unfold py_eval. rewrite Hp. exact (proj1 (denote_sound e) z Hd). }
  split; [exact He|].
  unfold calculate, try_except. rewrite He. simpl. unfold str_int.
  now rewrite Hl.
Qed.

Lemma oversized_result_is_an_error_witness :
  py_eval "10 ** 4300" allowed_names = Returns (VInt (10 ^ 4300)) /\
  cpython "10 ** 4300" =
  Returns ("Error calculating expression: " ++ cpython_wording TooManyDigits).
Proof.
  apply (oversized_result_is_an_error cpython_wording 4300 "10 ** 4300"
           (EBin Pow (EInt 10) (EInt 4300)) (10 ^ 4300)).
  - vm_compute. reflexivity.
  - vm_compute. reflexivity.
  - vm_compute. reflexivity.
Defined.

End CalculatorTheorems.

(** ** Properties of the endpoint adapter *)

Module AdapterFacts.
Import Py Adapter.

Section Facts.
Variable json_loads : string -> outcome pyval.
Variable call_next : request -> outcome response.

(** What is handed downstream is the request that came in, body included. *)
Lemma request_seen_same req :
  method (request_seen (read_thread_id json_loads req)) = method req /\
  body (request_seen (read_thread_id json_loads req)) = body req.
Proof.
  unfold read_thread_id.
  destruct (String.eqb (method req) "POST"); [|now split].
  destruct (body req) as [raw|e] eqn:Eb; [|now split].
  destruct (String.eqb raw ""); [now split|].
  destruct (json_loads raw) as [b|e]; [|now split].
  destruct (obind _ _); now split.
Qed.

(** The two shapes a run of the middleware has. *)
Lemma middleware_without_thread req :
  truthy (thread_id (read_thread_id json_loads req)) = false ->
  set_thread_id_middleware json_loads call_next req [] =
  (call_next (request_seen (read_thread_id json_loads req)),
   [SpanStart span_name;
    CallNext (request_seen (read_thread_id json_loads req));
    SpanEnd span_name]).
Proof.
  intros H. unfold set_thread_id_middleware. rewrite H.
  unfold bind, try_finally, with_span, emit, ret, lift. simpl.
  destruct (call_next _); reflexivity.
Qed.

Lemma middleware_with_thread req :
  truthy (thread_id (read_thread_id json_loads req)) = true ->
  set_thread_id_middleware json_loads call_next req [] =
  (call_next (request_seen (read_thread_id json_loads req)),
   [Attach (thread_id (read_thread_id json_loads req));
    SpanStart span_name;
    SetAttribute attribute_key (thread_id (read_thread_id json_loads req));
    CallNext (request_seen (read_thread_id json_loads req));
    SpanEnd span_name;
    Detach (thread_id (read_thread_id json_loads req))]).
Proof.
  intros H. unfold set_thread_id_middleware. rewrite H.
  unfold bind, try_finally, with_span, emit, ret, lift. simpl.
  destruct (call_next _); reflexivity.
Qed.

(** Reading the field through [in], [[]] and [.get] finds what the
    specification calls [metadata.thread_id], or nothing. *)
Lemma lookup_chain body :
  match
    obind (py_contains "metadata" body) (fun has =>
      if has
      then obind (py_getitem body "metadata") (fun metadata =>
             py_get metadata "thread_id" PNone)
      else Val PNone)
  with
  | Val tid =>
      tid = match metadata_thread_id body with Some v => v | None => PNone end
  | Exc _ => metadata_thread_id body = None
  end.
Proof.
  destruct body as [| b | z | f | s | l | d]; simpl; try reflexivity.
  - destruct (is_substring "metadata" s); reflexivity.
  - destruct (existsb _ l); reflexivity.
  - unfold dict_has. destruct (dict_get "metadata" d) as [m|]; simpl;
      [|reflexivity].
    destruct m; simpl; try reflexivity.
    destruct (dict_get "thread_id" _); reflexivity.
Qed.

Lemma read_thread_id_absent req raw :
  body req = Val raw ->
  (raw = "" \/
   (exists e, json_loads raw = Exc e) \/
   (exists b, json_loads raw = Val b /\ metadata_thread_id b = None)) ->
  thread_id (read_thread_id json_loads req) = PNone.
Proof.
  intros Hb H. unfold read_thread_id.
  destruct (String.eqb (method req) "POST"); [|reflexivity].
  rewrite Hb.
  destruct (String.eqb_spec raw "") as [->|Hne]; [reflexivity|].
  destruct H as [-> | [[e He] | [b [Hl Hm]]]].
  - contradiction.
  - now rewrite He.
  - rewrite Hl. pose proof (lookup_chain b) as Hc.
    destruct (obind _ _) as [tid|e]; [|reflexivity].
    simpl. rewrite Hm in Hc. exact Hc.
Qed.

Lemma read_thread_id_present req raw b tid :
  method req = "POST" ->
  body req = Val raw ->
  raw <> "" ->
  json_loads raw = Val b ->
  metadata_thread_id b = Some tid ->
  read_thread_id json_loads req = Locals tid (Request "POST" (Val raw) true).
Proof.
  intros Hm Hb Hne Hl Ht. unfold read_thread_id.
  rewrite Hm, Hb. simpl.
  destruct (String.eqb_spec raw "") as [->|_]; [contradiction|].
  rewrite Hl. pose proof (lookup_chain b) as Hc. rewrite Ht in Hc.
  destruct (obind _ _) as [t|e]; [now subst | discriminate].
Qed.

End Facts.

(** C8.  A POST request whose body is empty, does not decode as JSON, or
    decodes to something without a [metadata.thread_id] field goes through
    the middleware untouched: no thread identifier is attached, the request
    that came in reaches the downstream handler, and what the handler
    produces is what the middleware produces. *)
Theorem malformed_metadata_is_ignored
    (json_loads : string -> outcome pyval)
    (call_next : request -> outcome response)
    (req : request) (raw : string) :
  method req = "POST" ->
  body req = Val raw ->
  (raw = "" \/
   (exists e, json_loads raw = Exc e) \/
   (exists b, json_loads raw = Val b /\ metadata_thread_id b = None)) ->
  exists req',
    method req' = method req /\ body req' = body req /\
    set_thread_id_middleware json_loads call_next req [] =
    (call_next req',
     [SpanStart span_name; CallNext req'; SpanEnd span_name]).
Proof.
  intros _ Hb H.
  exists (request_seen (read_thread_id json_loads req)).
  destruct (request_seen_same json_loads req) as [Hm Hbody].
  repeat split; try assumption.
  apply middleware_without_thread.
  now rewrite (read_thread_id_absent json_loads req raw Hb H).
Qed.

Lemma malformed_metadata_is_ignored_witness :
  exists req',
    method req' = "POST" /\ body req' = Val "{'jsonrpc': " /\
    set_thread_id_middleware toy_loads handler_ok
      (Request "POST" (Val "{'jsonrpc': ") false) [] =
    (Val (Response 200 "ok"),
     [SpanStart span_name; CallNext req'; SpanEnd span_name]).
Proof.
  exact (malformed_metadata_is_ignored toy_loads handler_ok
           (Request "POST" (Val "{'jsonrpc': ") false) "{'jsonrpc': "
           eq_refl eq_refl
           (or_intror (or_introl
              (ex_intro _ (Foreign (OtherException "JSONDecodeError")
                             "Expecting value: line 1 column 1 (char 0)")
                        eq_refl)))).
Defined.

(** C9.  Whenever the middleware attaches a tracing context, the run is:
    attach, open the span, set the attribute, call the handler, close the
    span, detach; and that whether the handler returns a response or raises.
    A truthy [metadata.thread_id] in the body of a POST request makes it
    attach. *)
Theorem attached_context_is_always_detached
    (json_loads : string -> outcome pyval)
    (call_next : request -> outcome response)
    (req : request) :
  (forall r log tid,
      set_thread_id_middleware json_loads call_next req [] = (r, log) ->
      In (Attach tid) log ->
      exists req',
        r = call_next req' /\
        log = [Attach tid; SpanStart span_name;
               SetAttribute attribute_key tid; CallNext req';
               SpanEnd span_name; Detach tid]) /\
  (forall raw b tid,
      method req = "POST" -> body req = Val raw -> raw <> "" ->
      json_loads raw = Val b ->
      metadata_thread_id b = Some tid -> truthy tid = true ->
      set_thread_id_middleware json_loads call_next req [] =
      (call_next (Request "POST" (Val raw) true),
       [Attach tid; SpanStart span_name;
        SetAttribute attribute_key tid;
        CallNext (Request "POST" (Val raw) true);
        SpanEnd span_name; Detach tid])).
Proof.
  split.
  - intros r log tid Hrun Hin.
    destruct (truthy (thread_id (read_thread_id json_loads req))) eqn:Ht.
    + rewrite (middleware_with_thread _ _ _ Ht) in Hrun.
      injection Hrun as <- <-.
      destruct Hin as [[= <-] | Hin].
      * eexists. split; reflexivity.
      * simpl in Hin. repeat (destruct Hin as [Hin | Hin]; [discriminate|]).
        contradiction.
    + rewrite (middleware_without_thread _ _ _ Ht) in Hrun.
      injection Hrun as <- <-.
      simpl in Hin. repeat (destruct Hin as [Hin | Hin]; [discriminate|]).
      contradiction.
  - intros raw b tid Hm Hb Hne Hl Hf Ht.
    pose proof (read_thread_id_present json_loads req raw b tid Hm Hb Hne Hl Hf)
      as Hr.
    rewrite middleware_with_thread; rewrite Hr; [reflexivity | exact Ht].
Qed.

Lemma sample_raw_nonempty : sample_raw <> "".
Proof. discriminate. Defined.

Lemma attached_context_is_always_detached_witness :
  set_thread_id_middleware toy_loads handler_raises
    (Request "POST" (Val sample_raw) false) [] =
  (Exc (Foreign (OtherException "RuntimeError") "agent failed"),
   [Attach (PStr "c1"); SpanStart span_name;
    SetAttribute attribute_key (PStr "c1");
    CallNext (Request "POST" (Val sample_raw) true);
    SpanEnd span_name; Detach (PStr "c1")]).
Proof.
  exact (proj2 (attached_context_is_always_detached toy_loads handler_raises
                  (Request "POST" (Val sample_raw) false))
           sample_raw sample_body (PStr "c1")
           eq_refl eq_refl sample_raw_nonempty eq_refl eq_refl eq_refl).
Defined.

End AdapterFacts.

(** ** More properties of the endpoint adapter *)

Module AdapterTheorems.
Import Py Adapter.

Section Any.

Variable json_loads : string -> outcome pyval.
Variable call_next : request -> outcome response.

(** The middleware run from any log: it appends its events. *)
Lemma middleware_run req log :
  set_thread_id_middleware json_loads call_next req log =
  let l := read_thread_id json_loads req in
  (call_next (request_seen l),
   (log ++ (if truthy (thread_id l)
            then threaded_events (thread_id l) (request_seen l)
            else plain_events (request_seen l)))%list).
Proof.
  unfold set_thread_id_middleware. cbv zeta.
  destruct (truthy (thread_id (read_thread_id json_loads req)));
    unfold bind, try_finally, with_span, emit, ret, lift,
      threaded_events, plain_events; simpl;
    destruct (call_next _); simpl;
    rewrite <- ?app_assoc; reflexivity.
Qed.

(** X3: For every request the downstream handler is called exactly once, on a
    request with the same method and the same body; what it returns or
    raises is what the middleware returns or raises; the span is opened
    before the call and closed after it; and a context is attached before
    the span exactly when it is detached after it. *)
Theorem handler_is_called_once (req : request) (log : list event) :
  exists req',
    method req' = method req /\ body req' = body req /\
    fst (set_thread_id_middleware json_loads call_next req log)
      = call_next req' /\
    (snd (set_thread_id_middleware json_loads call_next req log)
       = (log ++ plain_events req')%list \/
     exists tid,
       truthy tid = true /\
       snd (set_thread_id_middleware json_loads call_next req log)
         = (log ++ threaded_events tid req')%list).
Proof.
  exists (request_seen (read_thread_id json_loads req)).
  destruct (AdapterFacts.request_seen_same json_loads req) as [Hm Hb].
  rewrite middleware_run. cbv zeta. simpl.
  split; [exact Hm|]. split; [exact Hb|]. split; [reflexivity|].
  destruct (truthy (thread_id (read_thread_id json_loads req))) eqn:E.
  - right. now exists (thread_id (read_thread_id json_loads req)).
  - now left.
Qed.

(** X4: A request that is not a POST is handed on as it is: its body is not
    read, nothing is attached, whatever the body holds. *)
Theorem other_methods_pass_through (req : request) (log : list event) :
  method req <> "POST" ->
  set_thread_id_middleware json_loads call_next req log =
  (call_next req, (log ++ plain_events req)%list).
Proof.
  intros Hm. rewrite middleware_run. cbv zeta.
  unfold read_thread_id.
  destruct (String.eqb_spec (method req) "POST"); [contradiction|].
  reflexivity.
Qed.

(** X5: Whatever reading the body raises is swallowed by the bare [except],
    cancellations and interrupts included, and the request is handled
    without a thread identifier. *)
Theorem unreadable_body_is_ignored (m : string) (e : exn) (replays : bool)
    (log : list event) :
  set_thread_id_middleware json_loads call_next
    (Request m (Exc e) replays) log =
  (call_next (Request m (Exc e) replays),
   (log ++ plain_events (Request m (Exc e) replays))%list).
Proof.
  rewrite middleware_run. cbv zeta. unfold read_thread_id. simpl.
  destruct (String.eqb m "POST"); reflexivity.
Qed.

(** X6: A thread identifier that is there but falsy (an empty string, zero,
    null, false, an empty list or object) attaches nothing: the request is
    handled as if there were none, with the body set to be replayed. *)
Theorem falsy_thread_id_is_not_attached (req : request) (raw : string)
    (b tid : pyval) (log : list event) :
  method req = "POST" -> body req = Val raw -> raw <> "" ->
  json_loads raw = Val b ->
  metadata_thread_id b = Some tid ->
  truthy tid = false ->
  set_thread_id_middleware json_loads call_next req log =
  (call_next (Request "POST" (Val raw) true),
   (log ++ plain_events (Request "POST" (Val raw) true))%list).
Proof.
  intros Hm Hb Hne Hl Ht Hf. rewrite middleware_run. cbv zeta.
  rewrite (AdapterFacts.read_thread_id_present json_loads req raw b tid
             Hm Hb Hne Hl Ht).
  simpl. now rewrite Hf.
Qed.

End Any.

Lemma not_post : "GET" <> "POST".
Proof. discriminate. Defined.

Lemma other_methods_pass_through_witness :
  set_thread_id_middleware toy_loads handler_ok
    (Request "GET" (Val sample_raw) false) [] =
  (handler_ok (Request "GET" (Val sample_raw) false),
   ([] ++ plain_events (Request "GET" (Val sample_raw) false))%list).
Proof.
  exact (other_methods_pass_through toy_loads handler_ok
           (Request "GET" (Val sample_raw) false) [] not_post).
Defined.

Lemma falsy_thread_id_is_not_attached_witness :
  set_thread_id_middleware empty_thread_loads handler_ok
    (Request "POST" (Val "{}") false) [] =
  (handler_ok (Request "POST" (Val "{}") true),
   ([] ++ plain_events (Request "POST" (Val "{}") true))%list).
Proof.
  refine (falsy_thread_id_is_not_attached empty_thread_loads handler_ok
            (Request "POST" (Val "{}") false) "{}"
            (PDict [("metadata", PDict [("thread_id", PStr "")])]) (PStr "")
            [] eq_refl eq_refl _ eq_refl eq_refl eq_refl).
  discriminate.
Defined.

End AdapterTheorems.

(** ** Properties of the relay driver *)

Module RelayFacts.
Import Py Relay.

(** *** The envelope a send function builds *)

Lemma build_message_contextId text mid ctx task :
  dict_get "contextId" (build_message text mid ctx task) =
  if truthy ctx then Some ctx else None.
Proof.
  unfold build_message.
  destruct (truthy ctx), (truthy task); reflexivity.
Qed.

Lemma build_message_taskId text mid ctx task :
  dict_get "taskId" (build_message text mid ctx task) =
  if truthy task then Some task else None.
Proof.
  unfold build_message.
  destruct (truthy ctx), (truthy task); reflexivity.
Qed.

Section Runs.

Variable W : wording.
Variable uuid_of : nat -> string.
Variable post : list exchange -> request -> http_result.
Variable assistant_id : string.

(** A turn, run: nothing is sent when the message cannot be sliced for the
    console; otherwise exactly one request is sent, and the reply decides. *)
Lemma turn_run ep st w :
  turn W uuid_of post assistant_id ep st w =
  match py_slice_to 60 (message st) with
  | Exc e => (Exc e, w)
  | Val prefix =>
      let req := turn_request uuid_of assistant_id ep st (next_uuid w) in
      let x := Exchange ep req (post (exchanges w) req) in
      let sending := Sending ep prefix :: console w in
      match interpret W (got x) with
      | Exc e =>
          (Exc e, World (S (S (next_uuid w))) (x :: exchanges w) sending)
      | Val r =>
          if success r
          then (Val (Continue (after ep st r)),
                World (S (S (next_uuid w))) (x :: exchanges w)
                      (Said ep (response r) :: sending))
          else (Val (Break st),
                World (S (S (next_uuid w))) (x :: exchanges w)
                      (Failed ep (response r) :: sending))
      end
  end.
Proof.
  destruct ep; unfold turn, langchain_turn, google_adk_turn,
    send_to_langchain, send_to_google_adk, bind, lift, print, uuid4,
    http_post, ret; simpl;
    (destruct (py_slice_to 60 (message st)); [|reflexivity]); simpl;
    (destruct (interpret W _) as [r|e]; [|reflexivity]);
    destruct (success r); reflexivity.
Qed.

Lemma turn_request_contextId ep st u :
  envelope_field "contextId" (turn_request uuid_of assistant_id ep st u) =
  if truthy (context_id st) then Some (context_id st) else None.
Proof.
  destruct ep; unfold envelope_field, envelope; simpl;
    apply build_message_contextId.
Qed.

Lemma turn_request_taskId ep st u :
  envelope_field "taskId" (turn_request uuid_of assistant_id ep st u) = None.
Proof.
  destruct ep; unfold envelope_field, envelope; simpl;
    apply build_message_taskId.
Qed.

Lemma turn_request_thread_id ep st u :
  metadata_thread_id (turn_request uuid_of assistant_id ep st u) =
  Some (py_or (context_id st) (shared_thread_id st)).
Proof. destruct ep; reflexivity. Qed.

Lemma py_or_idem a b : py_or a (py_or a b) = py_or a b.
Proof.
  unfold py_or. destruct (truthy a) eqn:E; [|reflexivity].
  rewrite ?E. reflexivity.
Qed.

(** *** One turn keeps the record and the variables in step *)

Lemma turn_ok t0 ep st w o w' :
  trace_ok W t0 (exchanges w) ->
  forallb (succeeded W) (exchanges w) = true ->
  state_ok W t0 st (exchanges w) ->
  turn W uuid_of post assistant_id ep st w = (o, w') ->
  turn_post W t0 st o w'.
Proof.
  intros Htr Hall [Hctx Hsh]. rewrite turn_run.
  destruct (py_slice_to 60 (message st)) as [prefix|e];
    [|intros [= <- <-]; split; [exact Htr | now left]].
  cbv zeta.
  set (req := turn_request uuid_of assistant_id ep st (next_uuid w)).
  set (x := Exchange ep req (post (exchanges w) req)).
  assert (Hreq : request_ok W t0 (exchanges w) x).
  { unfold request_ok, x, req. simpl.
    rewrite turn_request_contextId, turn_request_taskId,
      turn_request_thread_id, Hsh, Hctx, py_or_idem.
    repeat split; try assumption. now destruct ep. }
  destruct (interpret W (got x)) as [r|e] eqn:Hi;
    [|intros [= <- <-]; split; [now split|];
      right; now exists x, (exchanges w), e].
  destruct (success r) eqn:Hs; intros [= <- <-]; (split; [now split|]).
  - split.
    + simpl. unfold succeeded at 1. rewrite Hi, Hs. exact Hall.
    + unfold state_ok. simpl. unfold assigned_context. rewrite Hi, Hs.
      destruct ep; simpl; rewrite Hctx, Hsh; unfold py_or;
        destruct (truthy (new_context_id r)) eqn:Et; rewrite ?Et;
        split; reflexivity.
  - split; [reflexivity|].
    exists x, (exchanges w), r, (Sending ep prefix :: console w).
    repeat split; assumption.
Qed.

Lemma round_body_run i st w :
  exists c,
    round_body W uuid_of post assistant_id i st w =
    (f <- turn W uuid_of post assistant_id LangChain st ;;
     match f with
     | Break st' => ret (Break st')
     | Continue st' =>
         print Blank ;;;
         f' <- turn W uuid_of post assistant_id GoogleADK st' ;;
         match f' with
         | Break st'' => ret (Break st'')
         | Continue st'' =>
             print Blank ;;; print (Rule "-") ;;; print Blank ;;;
             ret (Continue st'')
         end
     end) (with_console w c).
Proof.
  unfold round_body, print_if.
  destruct (truthy (context_id st)), (truthy (langchain_task_id st)),
    (truthy (adk_task_id st)); eexists; reflexivity.
Qed.

Lemma round_ok t0 i st w o w' :
  trace_ok W t0 (exchanges w) ->
  forallb (succeeded W) (exchanges w) = true ->
  state_ok W t0 st (exchanges w) ->
  round_body W uuid_of post assistant_id i st w = (o, w') ->
  round_post W t0 o w'.
Proof.
  intros Htr Hall Hst.
  destruct (round_body_run i st w) as [c ->].
  unfold bind at 1.
  destruct (turn W uuid_of post assistant_id LangChain st (with_console w c)) as [[[st1|st1]|e] w1] eqn:E1;
    destruct (turn_ok t0 LangChain st (with_console w c) _ _ Htr Hall Hst E1)
      as [Htr1 H1].
  - destruct H1 as [Hall1 Hst1].
    unfold bind at 1. unfold print at 1. unfold bind at 1.
    match goal with
    | |- context [turn W uuid_of post assistant_id GoogleADK st1 ?w] =>
        destruct (turn W uuid_of post assistant_id GoogleADK st1 w) as [[[st2|st2]|e] w2] eqn:E2;
        destruct (turn_ok t0 GoogleADK st1 w _ _ Htr1 Hall1 Hst1 E2)
          as [Htr2 H2]
    end.
    + intros [= <- <-]. split; [exact Htr2 | exact H2].
    + intros [= <- <-]. split; [exact Htr2 | exact (proj2 H2)].
    + intros [= <- <-]. split; [exact Htr2 | exact H2].
  - intros [= <- <-]. split; [exact Htr1 | exact (proj2 H1)].
  - intros [= <- <-]. split; [exact Htr1 | exact H1].
Qed.

Lemma rounds_ok t0 n : forall i st w o w',
  trace_ok W t0 (exchanges w) ->
  forallb (succeeded W) (exchanges w) = true ->
  state_ok W t0 st (exchanges w) ->
  rounds W uuid_of post assistant_id n i st w = (o, w') ->
  loop_post W t0 o w'.
Proof.
  induction n as [|n IH]; intros i st w o w' Htr Hall Hst.
  - intros [= <- <-]. split; [exact Htr | now left].
  - simpl. unfold bind.
    destruct (round_body W uuid_of post assistant_id i st w)
      as [[[st1|st1]|e] w1] eqn:E;
      destruct (round_ok t0 i st w _ _ Htr Hall Hst E) as [Htr1 H]; simpl in H.
    + destruct H as [Hall1 Hst1]. now apply IH.
    + intros [= <- <-]. split; [exact Htr1 | now right].
    + intros [= <- <-]. split; [exact Htr1 | exact H].
Qed.

Lemma run_ok num_rounds initial_message n o w' :
  run W uuid_of post assistant_id num_rounds initial_message n = (o, w') ->
  trace_ok W (PStr (uuid_of n)) (exchanges w') /\
  (forall st,
      o = Val st ->
      forallb (succeeded W) (exchanges w') = true \/
      exists x older r rest,
        exchanges w' = x :: older /\
        interpret W (got x) = Val r /\ success r = false /\
        console w' = (completed ++ Failed (to x) (response r) :: rest)%list) /\
  (forall e, o = Exc e -> crashed W w').
Proof.
  unfold run, simulate_conversation.
  repeat (unfold bind at 1; unfold print at 1).
  unfold bind at 1. unfold uuid4 at 1.
  cbn [fresh_world next_uuid exchanges console].
  unfold bind at 1.
  match goal with
  | |- context [rounds W uuid_of post assistant_id ?k ?i ?st ?w] =>
      destruct (rounds W uuid_of post assistant_id k i st w)
        as [[st'|e] w1] eqn:E;
      destruct (rounds_ok (PStr (uuid_of n)) k i st w _ _
                  I eq_refl (conj eq_refl eq_refl) E) as [Htr H]
  end; simpl in H.
  - intros [= <- <-]. split; [exact Htr|]. split; [|discriminate].
    intros st _. simpl.
    destruct H as [H | (x & older & r & rest & Hx & Hi & Hs & Hc)];
      [now left | right].
    exists x, older, r, rest. simpl. rewrite Hc. repeat split; assumption.
  - intros [= <- <-]. split; [exact Htr|]. split; [discriminate|].
    intros _ _. exact H.
Qed.

(** *** Reading the record *)

Lemma trace_ok_at t0 newer : forall x older,
  trace_ok W t0 (newer ++ x :: older) -> request_ok W t0 older x.
Proof.
  induction newer as [|y newer IH]; intros x older; simpl.
  - now intros [H _].
  - intros [_ H]. now apply IH.
Qed.


Lemma failed_not_succeeded x : failed W x -> succeeded W x = false.
Proof. intros (r & Hi & Hs). unfold succeeded. now rewrite Hi. Qed.

(** A truthy [last_context] was assigned by some exchange of the record. *)
Lemma last_context_source l :
  truthy (last_context W l) = true ->
  exists newer y older,
    l = (newer ++ y :: older)%list /\
    assigned_context W y = last_context W l.
Proof.
  induction l as [|x l IH]; simpl; [discriminate|].
  destruct (truthy (assigned_context W x)) eqn:E.
  - intros _. now exists [], x, l.
  - intros H. destruct (IH H) as (newer & y & older & -> & Hy).
    now exists (x :: newer), y, older.
Qed.

End Runs.

(** *** Mock endpoints to run the driver against *)

(** *** What a send function returns *)

Tactic Notation "step_obind" hyp(H) ident(v) ident(E) :=
  match type of H with
  | obind ?m _ = Val _ =>
      destruct m as [v|] eqn:E; simpl in H; [|discriminate H]
  end.

Lemma read_response_failure h r :
  read_response h = Val r -> success r = false ->
  new_task_id r = PNone /\ new_context_id r = PNone.
Proof.
  destruct h as [e|status json text]; simpl; [discriminate|].
  destruct (status =? 200).
  - intros H. step_obind H result E1. step_obind H has_error E2.
    destruct has_error.
    + step_obind H error E3. step_obind H msg E4.
      injection H as <-. now split.
    + step_obind H has_result E3. destruct (negb has_result).
      * injection H as <-. now split.
      * step_obind H result_obj E4. step_obind H task E5.
        step_obind H ctx E6. step_obind H artifacts E7.
        step_obind H artifact E8. step_obind H parts E9.
        step_obind H part E10. step_obind H txt E11.
        injection H as <-. discriminate.
  - intros H. step_obind H t E1. injection H as <-. now split.
Qed.

Lemma interpret_failure W h r :
  interpret W h = Val r -> success r = false ->
  new_task_id r = PNone /\ new_context_id r = PNone.
Proof.
  unfold interpret. destruct (read_response h) as [r'|e] eqn:E.
  - intros [= <-]. now apply read_response_failure with (h := h).
  - destruct (caught_by_except_Exception e); [|discriminate].
    intros [= <-] _. now split.
Qed.

Lemma py_get_dict c k v :
  py_get c k PNone = Val v ->
  exists d, c = PDict d /\ v = or_none (dict_get k d).
Proof.
  destruct c; try discriminate. simpl.
  destruct (dict_get k d) eqn:E; intros [= <-]; exists d; now rewrite E.
Qed.

Lemma py_getitem_dict c k v :
  py_getitem c k = Val v -> field k c = Some v.
Proof.
  destruct c; try discriminate. simpl.
  destruct (dict_get k d); [now intros [= <-] | discriminate].
Qed.

(** A successful reply carries what the [result] object holds under [id]
    and [contextId], and [None] for a field that is not there. *)
Lemma interpret_success W h r :
  interpret W h = Val r -> success r = true ->
  exists ro,
    result_object h = Some (PDict ro) /\
    new_task_id r = or_none (dict_get "id" ro) /\
    new_context_id r = or_none (dict_get "contextId" ro).
Proof.
  unfold interpret. destruct (read_response h) as [r'|e] eqn:E.
  - intros [= <-] Hs. revert E.
    destruct h as [e|status json text]; simpl; [discriminate|].
    destruct (status =? 200).
    + intros H. step_obind H result E1. step_obind H has_error E2.
      destruct has_error.
      * step_obind H error E3. step_obind H msg E4.
        injection H as <-. discriminate.
      * step_obind H has_result E3. destruct (negb has_result).
        { injection H as <-. discriminate. }
        step_obind H result_obj E4. step_obind H task E5.
        step_obind H ctx E6. step_obind H artifacts E7.
        step_obind H artifact E8. step_obind H parts E9.
        step_obind H part E10. step_obind H txt E11.
        injection H as <-. simpl.
        apply py_getitem_dict in E4.
        apply py_get_dict in E5. destruct E5 as (ro & -> & ->).
        apply py_get_dict in E6. destruct E6 as (ro' & [= <-] & ->).
        now exists ro.
    + intros H. step_obind H t E1. injection H as <-. discriminate.
  - destruct (caught_by_except_Exception e); [|discriminate].
    intros [= <-]. discriminate.
Qed.

Lemma py_get_raises c k dflt e :
  py_get c k dflt = Exc e -> caught_by_except_Exception e = true.
Proof.
  destruct c; simpl; try (intros [= <-]; reflexivity).
  destruct (dict_get k d); discriminate.
Qed.

(** *** The claims about the relay *)

Lemma assigned_context_succeeded W y :
  truthy (assigned_context W y) = true -> succeeded W y = true.
Proof.
  unfold assigned_context, succeeded.
  destruct (interpret W (got y)) as [r|e]; [|discriminate].
  destruct (success r); [reflexivity | discriminate].
Qed.

(** C1, as amended.  The driver keeps one context identifier for both
    endpoints and hands no task identifier to either send function.  So the
    envelope of every request has [contextId] exactly when some earlier
    successful response of the run, from either endpoint, carried a truthy
    [contextId], and then with the most recent such value; no envelope has
    [taskId]; and the first request of a run has neither.  (A send function
    by itself includes each field exactly when the argument it is given for
    it is truthy.) *)
Theorem envelope_identifiers
    (W : wording) (uuid_of : nat -> string)
    (post : list exchange -> request -> http_result)
    (assistant_id : string) (num_rounds : Z)
    (initial_message : option string) (n : nat) :
  (forall text message_id ctx task,
      dict_get "contextId" (build_message text message_id ctx task) =
        (if truthy ctx then Some ctx else None) /\
      dict_get "taskId" (build_message text message_id ctx task) =
        (if truthy task then Some task else None)) /\
  (forall newer x older,
      exchanges (snd (run W uuid_of post assistant_id num_rounds
                        initial_message n)) = (newer ++ x :: older)%list ->
      envelope_field "contextId" (sent x) =
        (if truthy (last_context W older)
         then Some (last_context W older) else None) /\
      envelope_field "taskId" (sent x) = None) /\
  (forall newer x,
      exchanges (snd (run W uuid_of post assistant_id num_rounds
                        initial_message n)) = (newer ++ [x])%list ->
      envelope_field "contextId" (sent x) = None /\
      envelope_field "taskId" (sent x) = None).
Proof.
  destruct (run W uuid_of post assistant_id num_rounds initial_message n)
    as [o w'] eqn:E.
  destruct (run_ok _ _ _ _ _ _ _ _ _ E) as [Htr _].
  assert (H : forall newer x older,
             exchanges w' = (newer ++ x :: older)%list ->
             envelope_field "contextId" (sent x) =
               (if truthy (last_context W older)
                then Some (last_context W older) else None) /\
             envelope_field "taskId" (sent x) = None).
  { intros newer x older Hl. simpl in Htr. rewrite Hl in Htr.
    destruct (trace_ok_at _ _ _ _ _ Htr) as (Hc & Ht & _). now split. }
  split; [|split].
  - intros. split;
      [apply build_message_contextId | apply build_message_taskId].
  - exact H.
  - intros newer x Hl. exact (H newer x [] Hl).
Qed.

Lemma envelope_identifiers_witness :
  envelope_field "contextId" (sent (nth_sent 2 (snd two_rounds))) =
    (if truthy (last_context cpython_wording
                  [nth_sent 1 (snd two_rounds); nth_sent 0 (snd two_rounds)])
     then Some (last_context cpython_wording
                  [nth_sent 1 (snd two_rounds); nth_sent 0 (snd two_rounds)])
     else None) /\
  envelope_field "taskId" (sent (nth_sent 2 (snd two_rounds))) = None.
Proof.
  apply (proj1 (proj2 (envelope_identifiers cpython_wording mock_uuid
                         (scripted [ok "t1" "c1" "Hi back";
                                    ok "t2" "c2" "Hello again";
                                    ok "t3" "c2" "Third";
                                    ok "t4" "c2" "Fourth"])
                         "asst" 5 (Some "Hello") 0))
           [nth_sent 4 (snd two_rounds); nth_sent 3 (snd two_rounds)]).
  vm_compute. reflexivity.
Defined.

Example second_request_to_langchain :
  envelope_field "contextId" (sent (nth_sent 2 (snd two_rounds))) =
    Some (PStr "c2") /\
  last_context cpython_wording
    [nth_sent 1 (snd two_rounds); nth_sent 0 (snd two_rounds)] = PStr "c2".
Proof. vm_compute. split; reflexivity. Qed.

(** C1 as stated fails.  In the run [two_rounds] the first request to the
    Google ADK agent already has the [contextId] that the LangChain agent
    assigned, and the second request to the LangChain agent has no [taskId]
    although that agent assigned one. *)
Lemma first_request_to_adk_has_contextId :
  let l := exchanges (snd two_rounds) in
  let a1 := nth_sent 0 (snd two_rounds) in
  let b1 := nth_sent 1 (snd two_rounds) in
  let a2 := nth_sent 2 (snd two_rounds) in
  (to a1 = LangChain /\ assigned_context cpython_wording a1 = PStr "c1" /\
   assigned_task cpython_wording a1 = PStr "t1") /\
  (to b1 = GoogleADK /\
   envelope_field "contextId" (sent b1) = Some (PStr "c1")) /\
  (to a2 = LangChain /\ envelope_field "taskId" (sent a2) = None) /\
  ~ per_endpoint_envelopes cpython_wording l.
Proof.
  cbv zeta. split; [|split; [|split]].
  - vm_compute. repeat split; reflexivity.
  - vm_compute. split; reflexivity.
  - vm_compute. split; reflexivity.
  - intros H.
    destruct (H [nth_sent 4 (snd two_rounds); nth_sent 3 (snd two_rounds);
                 nth_sent 2 (snd two_rounds)]
                (nth_sent 1 (snd two_rounds))
                [nth_sent 0 (snd two_rounds)]) as [[Hc _] _].
    + vm_compute. reflexivity.
    + assert (Hf : assigned_by
                     (to (nth_sent 1 (snd two_rounds)))
                     (assigned_context cpython_wording)
                     [nth_sent 0 (snd two_rounds)] = false)
        by (vm_compute; reflexivity).
      rewrite Hf in Hc. discriminate Hc.
      vm_compute. discriminate.
Qed.

(** C2, as amended.  No request carries a [taskId], so no task identifier
    is sent anywhere as one.  The context identifier is shared by design: a
    [contextId] found in a request is the one an earlier successful response
    carried, whichever endpoint that response came from. *)
Theorem identifiers_come_from_earlier_responses
    (W : wording) (uuid_of : nat -> string)
    (post : list exchange -> request -> http_result)
    (assistant_id : string) (num_rounds : Z)
    (initial_message : option string) (n : nat) :
  forall newer x older,
    exchanges (snd (run W uuid_of post assistant_id num_rounds
                      initial_message n)) = (newer ++ x :: older)%list ->
    envelope_field "taskId" (sent x) = None /\
    forall v,
      envelope_field "contextId" (sent x) = Some v ->
      exists between y before,
        older = (between ++ y :: before)%list /\
        succeeded W y = true /\
        assigned_context W y = v.
Proof.
  intros newer x older Hl.
  destruct (run W uuid_of post assistant_id num_rounds initial_message n)
    as [o w'] eqn:E.
  destruct (run_ok _ _ _ _ _ _ _ _ _ E) as [Htr _].
  simpl in Hl. rewrite Hl in Htr.
  destruct (trace_ok_at _ _ _ _ _ Htr) as (Hc & Ht & _).
  split; [exact Ht|].
  intros v Hv. rewrite Hv in Hc.
  destruct (truthy (last_context W older)) eqn:Etr; [|discriminate].
  injection Hc as ->.
  destruct (last_context_source W older Etr) as (between & y & before & Hs & Hy).
  exists between, y, before. repeat split; try assumption.
  apply assigned_context_succeeded. now rewrite Hy.
Qed.

Lemma identifiers_come_from_earlier_responses_witness :
  envelope_field "taskId" (sent (nth_sent 1 (snd scenario))) = None /\
  forall v,
    envelope_field "contextId" (sent (nth_sent 1 (snd scenario))) = Some v ->
    exists between y before,
      [nth_sent 0 (snd scenario)] = (between ++ y :: before)%list /\
      succeeded cpython_wording y = true /\
      assigned_context cpython_wording y = v.
Proof.
  apply (identifiers_come_from_earlier_responses cpython_wording mock_uuid
           (scripted [ok "t1" "c1" "Hi back"]) "asst" 5 (Some "Hello") 0
           []).
  vm_compute. reflexivity.
Defined.

(** C2 as stated fails.  In the run [scenario] the context identifier "c1"
    comes from the LangChain agent and goes to the Google ADK agent in the
    next request. *)
Lemma context_of_langchain_goes_to_adk :
  let a1 := nth_sent 0 (snd scenario) in
  let b1 := nth_sent 1 (snd scenario) in
  exchanges (snd scenario) = [b1; a1] /\
  to a1 = LangChain /\ assigned_context cpython_wording a1 = PStr "c1" /\
  to b1 = GoogleADK /\
  envelope_field "contextId" (sent b1) = Some (PStr "c1") /\
  ~ endpoint_local cpython_wording (exchanges (snd scenario)).
Proof.
  cbv zeta.
  split; [vm_compute; reflexivity|].
  split; [vm_compute; reflexivity|].
  split; [vm_compute; reflexivity|].
  split; [vm_compute; reflexivity|].
  split; [vm_compute; reflexivity|].
  intros H.
  destruct (H [] (nth_sent 1 (snd scenario)) [nth_sent 0 (snd scenario)]
              (nth_sent 0 (snd scenario)) (PStr "c1")) as [Hc _].
  - vm_compute. reflexivity.
  - now left.
  - vm_compute. discriminate.
  - reflexivity.
  - left. vm_compute. reflexivity.
  - apply Hc. vm_compute. reflexivity.
Qed.






(** C6, as amended.  Every request is a [message/send] call whose top-level
    [metadata.thread_id] is the last context identifier any successful
    response assigned, from either endpoint, and the thread identifier
    generated at the start as long as none has assigned one.  In the
    scenario of the specification the first request carries the generated
    identifier; endpoint A answers "Hello" with task "t1", context "c1" and
    text "Hi back", and the next request takes "Hi back" to endpoint B with
    [metadata.thread_id] "c1". *)
Theorem thread_id_follows_context
    (W : wording) (uuid_of : nat -> string)
    (post : list exchange -> request -> http_result)
    (assistant_id : string) (num_rounds : Z)
    (initial_message : option string) (n : nat) :
  (forall newer x older,
      exchanges (snd (run W uuid_of post assistant_id num_rounds
                        initial_message n)) = (newer ++ x :: older)%list ->
      field "method" (payload (sent x)) = Some (PStr "message/send") /\
      metadata_thread_id (sent x) =
        Some (if truthy (last_context W older)
              then last_context W older
              else PStr (uuid_of n))) /\
  (let a1 := nth_sent 0 (snd scenario) in
   let b1 := nth_sent 1 (snd scenario) in
   exchanges (snd scenario) = [b1; a1] /\
   (to a1 = LangChain /\
    envelope_text (sent a1) = Some (PStr "Hello") /\
    envelope_field "contextId" (sent a1) = None /\
    metadata_thread_id (sent a1) = Some (PStr (mock_uuid 0)) /\
    got a1 = ok "t1" "c1" "Hi back") /\
   (to b1 = GoogleADK /\
    url (sent b1) = google_adk_url /\
    envelope_text (sent b1) = Some (PStr "Hi back") /\
    metadata_thread_id (sent b1) = Some (PStr "c1"))).
Proof.
  split.
  - intros newer x older Hl.
    destruct (run W uuid_of post assistant_id num_rounds initial_message n)
      as [o w'] eqn:E.
    destruct (run_ok _ _ _ _ _ _ _ _ _ E) as [Htr _].
    simpl in Hl. rewrite Hl in Htr.
    destruct (trace_ok_at _ _ _ _ _ Htr) as (_ & _ & Ht & _ & Hm).
    now split.
  - vm_compute. repeat split; reflexivity.
Qed.

Lemma thread_id_follows_context_witness :
  field "method" (payload (sent (nth_sent 1 (snd scenario)))) =
    Some (PStr "message/send") /\
  metadata_thread_id (sent (nth_sent 1 (snd scenario))) =
    Some (if truthy (last_context cpython_wording [nth_sent 0 (snd scenario)])
          then last_context cpython_wording [nth_sent 0 (snd scenario)]
          else PStr (mock_uuid 0)).
Proof.
  apply (proj1 (thread_id_follows_context cpython_wording mock_uuid
                  (scripted [ok "t1" "c1" "Hi back"]) "asst" 5
                  (Some "Hello") 0)
           []).
  vm_compute. reflexivity.
Defined.

(** C6 as stated fails, read by endpoint as C1 and C2 are.  In the run
    [two_rounds] the LangChain agent assigns the context "c1" and the
    Google ADK agent then assigns "c2"; the second request to the LangChain
    agent carries "c2" as its thread identifier, not the "c1" of its own
    endpoint. *)
Lemma thread_id_of_langchain_comes_from_adk :
  let l := exchanges (snd two_rounds) in
  let a1 := nth_sent 0 (snd two_rounds) in
  let b1 := nth_sent 1 (snd two_rounds) in
  let a2 := nth_sent 2 (snd two_rounds) in
  (to a1 = LangChain /\ assigned_context cpython_wording a1 = PStr "c1") /\
  (to b1 = GoogleADK /\ assigned_context cpython_wording b1 = PStr "c2") /\
  (to a2 = LangChain /\
   own_context cpython_wording LangChain [b1; a1] = PStr "c1" /\
   metadata_thread_id (sent a2) = Some (PStr "c2")) /\
  forall shared, ~ per_endpoint_thread_id cpython_wording shared l.
Proof.
  cbv zeta. split; [|split; [|split]].
  - vm_compute. split; reflexivity.
  - vm_compute. split; reflexivity.
  - vm_compute. repeat split; reflexivity.
  - intros shared H.
    specialize (H [nth_sent 4 (snd two_rounds); nth_sent 3 (snd two_rounds)]
                  (nth_sent 2 (snd two_rounds))
                  [nth_sent 1 (snd two_rounds); nth_sent 0 (snd two_rounds)]).
    assert (Hl : exchanges (snd two_rounds) =
                 ([nth_sent 4 (snd two_rounds); nth_sent 3 (snd two_rounds)]
                  ++ nth_sent 2 (snd two_rounds)
                  :: [nth_sent 1 (snd two_rounds);
                      nth_sent 0 (snd two_rounds)])%list)
      by (vm_compute; reflexivity).
    specialize (H Hl).
    assert (Ho : own_context cpython_wording
                   (to (nth_sent 2 (snd two_rounds)))
                   [nth_sent 1 (snd two_rounds); nth_sent 0 (snd two_rounds)]
                 = PStr "c1") by (vm_compute; reflexivity).
    assert (Ht : metadata_thread_id (sent (nth_sent 2 (snd two_rounds)))
                 = Some (PStr "c2")) by (vm_compute; reflexivity).
    rewrite Ho, Ht in H.
    change (truthy (PStr "c1")) with true in H. cbv iota in H.
    discriminate H.
Qed.

(** *** One turn, read backwards from its result *)

Lemma cons_neq {A} (x : A) (l : list A) : x :: l <> l.
Proof.
  intros H. apply (f_equal (@List.length A)) in H. simpl in H. lia.
Qed.

Lemma turn_continue W uuid_of post assistant_id ep st w st' w' :
  turn W uuid_of post assistant_id ep st w = (Val (Continue st'), w') ->
  exists x r,
    exchanges w' = x :: exchanges w /\ to x = ep /\
    interpret W (got x) = Val r /\ success r = true /\
    st' = after ep st r.
Proof.
  rewrite turn_run.
  destruct (py_slice_to 60 (message st)) as [prefix|e]; [|discriminate].
  cbv zeta.
  destruct (interpret W _) as [r|e] eqn:Hi; [|discriminate].
  destruct (success r) eqn:Hs; [|discriminate].
  intros [= <- <-]. eexists. exists r. simpl.
  repeat split; try reflexivity; assumption.
Qed.

Lemma turn_break W uuid_of post assistant_id ep st w st' w' :
  turn W uuid_of post assistant_id ep st w = (Val (Break st'), w') ->
  st' = st /\
  exists x, exchanges w' = x :: exchanges w /\ to x = ep /\ failed W x.
Proof.
  rewrite turn_run.
  destruct (py_slice_to 60 (message st)) as [prefix|e]; [|discriminate].
  cbv zeta.
  destruct (interpret W _) as [r|e] eqn:Hi; [|discriminate].
  destruct (success r) eqn:Hs; [discriminate|].
  intros [= <- <-]. split; [reflexivity|]. eexists. simpl.
  repeat split. exists r. now split.
Qed.

Lemma turn_breaks_iff W uuid_of post assistant_id ep st w o w' :
  turn W uuid_of post assistant_id ep st w = (o, w') ->
  (o = Val (Break st) <->
   exists x, exchanges w' = x :: exchanges w /\ failed W x).
Proof.
  intros H. split.
  - intros ->. destruct (turn_break _ _ _ _ _ _ _ _ _ H) as (_ & x & Hx & _ & Hf).
    now exists x.
  - intros (x & Hx & r & Hi & Hs). revert H Hx Hi. rewrite turn_run.
    destruct (py_slice_to 60 (message st)) as [prefix|e].
    + cbv zeta. destruct (interpret W _) as [r'|e] eqn:Hi'; simpl in Hi'.
      * destruct (success r') eqn:Hs'; intros [= <- <-]; simpl;
          intros [= <-]; simpl; intros Hi; [|reflexivity].
        rewrite Hi' in Hi. injection Hi as ->. congruence.
      * intros [= <- <-]. simpl. intros [= <-]. simpl. intros Hi.
        rewrite Hi' in Hi. discriminate.
    + intros [= <- <-] Hx. symmetry in Hx. now apply cons_neq in Hx.
Qed.

Lemma kept W ep st r x :
  interpret W (got x) = Val r -> success r = true ->
  (omits "contextId" (got x) ->
   context_id (after ep st r) = context_id st /\
   shared_thread_id (after ep st r) = shared_thread_id st) /\
  (omits "id" (got x) ->
   match ep with
   | LangChain => langchain_task_id (after ep st r) = langchain_task_id st
   | GoogleADK => adk_task_id (after ep st r) = adk_task_id st
   end) /\
  match ep with
  | LangChain => adk_task_id (after ep st r) = adk_task_id st
  | GoogleADK => langchain_task_id (after ep st r) = langchain_task_id st
  end.
Proof.
  intros Hi Hs.
  destruct (interpret_success W _ _ Hi Hs) as (ro & Hro & Ht & Hc).
  unfold omits. rewrite Hro. simpl.
  split; [|split].
  - intros Ho. rewrite Ho in Hc. simpl in Hc.
    destruct ep; simpl; rewrite Hc; now split.
  - intros Ho. rewrite Ho in Ht. simpl in Ht.
    destruct ep; simpl; now rewrite Ht.
  - destruct ep; reflexivity.
Qed.

(** C7.  After a successful send whose response has no [contextId] in its
    [result] object, the driver's context identifier (and the thread
    identifier that follows it) is what it was; with no [id] there, the task
    identifier kept for that endpoint is what it was.  The other endpoint's
    task identifier is never touched. *)
Theorem omitted_identifiers_are_kept
    (W : wording) (uuid_of : nat -> string)
    (post : list exchange -> request -> http_result)
    (assistant_id : string) (st : relay_state) (w : world)
    (st' : relay_state) (w' : world) :
  (langchain_turn W uuid_of post assistant_id st w
     = (Val (Continue st'), w') ->
   exists x,
     exchanges w' = x :: exchanges w /\ to x = LangChain /\
     succeeded W x = true /\
     (omits "contextId" (got x) ->
      context_id st' = context_id st /\
      shared_thread_id st' = shared_thread_id st) /\
     (omits "id" (got x) -> langchain_task_id st' = langchain_task_id st) /\
     adk_task_id st' = adk_task_id st) /\
  (google_adk_turn W uuid_of post st w = (Val (Continue st'), w') ->
   exists x,
     exchanges w' = x :: exchanges w /\ to x = GoogleADK /\
     succeeded W x = true /\
     (omits "contextId" (got x) ->
      context_id st' = context_id st /\
      shared_thread_id st' = shared_thread_id st) /\
     (omits "id" (got x) -> adk_task_id st' = adk_task_id st) /\
     langchain_task_id st' = langchain_task_id st).
Proof.
  split; intros H.
  - destruct (turn_continue W uuid_of post assistant_id LangChain _ _ _ _ H)
      as (x & r & Hx & Hto & Hi & Hs & ->).
    exists x. split; [exact Hx|]. split; [exact Hto|].
    split; [unfold succeeded; now rewrite Hi|].
    exact (kept W LangChain st r x Hi Hs).
  - destruct (turn_continue W uuid_of post assistant_id GoogleADK _ _ _ _ H)
      as (x & r & Hx & Hto & Hi & Hs & ->).
    exists x. split; [exact Hx|]. split; [exact Hto|].
    split; [unfold succeeded; now rewrite Hi|].
    exact (kept W GoogleADK st r x Hi Hs).
Qed.

Lemma omitted_identifiers_are_kept_witness :
  exists x,
    exchanges (snd bare_turn) = x :: exchanges (fresh_world 0) /\
    to x = LangChain /\
    succeeded cpython_wording x = true /\
    (omits "contextId" (got x) ->
     context_id (state_after bare_turn known_state) = context_id known_state /\
     shared_thread_id (state_after bare_turn known_state) =
       shared_thread_id known_state) /\
    (omits "id" (got x) ->
     langchain_task_id (state_after bare_turn known_state) =
       langchain_task_id known_state) /\
    adk_task_id (state_after bare_turn known_state) = adk_task_id known_state.
Proof.
  apply (proj1 (omitted_identifiers_are_kept cpython_wording mock_uuid
                  (scripted [Responded 200 (Val (bare_body "Hi")) (Val "")])
                  "asst" known_state (fresh_world 0)
                  (state_after bare_turn known_state) (snd bare_turn))).
  vm_compute. reflexivity.
Defined.

Example bare_turn_keeps :
  state_after bare_turn known_state =
  State (PStr "Hi") (PStr "c1") (PStr "c1") (PStr "t1") (PStr "t2").
Proof. vm_compute. reflexivity. Qed.

(** C10, as amended.  A send function that returns [success = False]
    returns [None] for the task and the context identifier.  The turn in
    which that happens leaves the loop with the driver's variables exactly
    as they were just before that send, and a turn leaves the loop in no
    other case.  For a round this means: when the send to the LangChain
    agent fails, the variables are those of the start of the round; when
    the send to the Google ADK agent fails, they are those the LangChain
    agent's answer of that round left. *)
Theorem failed_send_changes_nothing
    (W : wording) (uuid_of : nat -> string)
    (post : list exchange -> request -> http_result)
    (assistant_id : string) :
  (forall h r,
      interpret W h = Val r -> success r = false ->
      new_task_id r = PNone /\ new_context_id r = PNone) /\
  (forall st w o w',
      langchain_turn W uuid_of post assistant_id st w = (o, w') ->
      (o = Val (Break st) <->
       exists x, exchanges w' = x :: exchanges w /\ failed W x) /\
      (forall st', o = Val (Break st') -> st' = st)) /\
  (forall st w o w',
      google_adk_turn W uuid_of post st w = (o, w') ->
      (o = Val (Break st) <->
       exists x, exchanges w' = x :: exchanges w /\ failed W x) /\
      (forall st', o = Val (Break st') -> st' = st)) /\
  (forall i st w st' w',
      round_body W uuid_of post assistant_id i st w
        = (Val (Break st'), w') ->
      (st' = st /\
       exists a,
         exchanges w' = a :: exchanges w /\ to a = LangChain /\ failed W a) \/
      (exists a b r,
         exchanges w' = b :: a :: exchanges w /\
         to a = LangChain /\ interpret W (got a) = Val r /\
         success r = true /\ st' = after_langchain st r /\
         to b = GoogleADK /\ failed W b)).
Proof.
  split; [exact (interpret_failure W)|].
  split; [|split].
  - intros st w o w' H. split.
    + exact (turn_breaks_iff W uuid_of post assistant_id LangChain _ _ _ _ H).
    + intros st' ->.
      exact (proj1 (turn_break W uuid_of post assistant_id LangChain
                      _ _ _ _ H)).
  - intros st w o w' H. split.
    + exact (turn_breaks_iff W uuid_of post assistant_id GoogleADK _ _ _ _ H).
    + intros st' ->.
      exact (proj1 (turn_break W uuid_of post assistant_id GoogleADK
                      _ _ _ _ H)).
  - intros i st w st' w'.
    destruct (round_body_run W uuid_of post assistant_id i st w) as [c ->].
    unfold bind at 1.
    destruct (turn W uuid_of post assistant_id LangChain st (with_console w c))
      as [[[st1|st1]|e] w1] eqn:E1; [| |discriminate].
    + destruct (turn_continue _ _ _ _ _ _ _ _ _ E1)
        as (a & r & Ha & Hto & Hi & Hs & ->).
      unfold bind at 1. unfold print at 1. unfold bind at 1.
      match goal with
      | |- context [turn W uuid_of post assistant_id GoogleADK ?s ?w0] =>
          destruct (turn W uuid_of post assistant_id GoogleADK s w0)
            as [[[st2|st2]|e] w2] eqn:E2
      end; try discriminate.
      intros [= <- <-].
      destruct (turn_break _ _ _ _ _ _ _ _ _ E2) as (-> & b & Hb & Htob & Hf).
      right. exists a, b, r. simpl in Hb, Ha. rewrite Hb, Ha.
      repeat split; assumption.
    + intros [= <- <-].
      destruct (turn_break _ _ _ _ _ _ _ _ _ E1) as (-> & a & Ha & Hto & Hf).
      left. split; [reflexivity|]. now exists a.
Qed.

Lemma failed_send_changes_nothing_witness :
  new_task_id (failure (PStr "Error 500: Internal Server Error")) = PNone /\
  new_context_id (failure (PStr "Error 500: Internal Server Error")) = PNone.
Proof.
  apply (proj1 (failed_send_changes_nothing cpython_wording mock_uuid
                  (scripted []) "asst")
           http_500 (failure (PStr "Error 500: Internal Server Error"))).
  - vm_compute. reflexivity.
  - reflexivity.
Defined.

(** C10 as stated fails for a round: in [half_round] the send to endpoint B
    fails and the round ends in [break], with the message, the context
    identifier and the LangChain task identifier already replaced by what
    endpoint A answered in that round. *)
Lemma failed_round_keeps_first_answer :
  fst half_round =
    Val (Break (State (PStr "Hi back") (PStr "c1") (PStr "c1")
                      (PStr "t1") PNone)) /\
  to (nth_sent 1 (snd half_round)) = GoogleADK /\
  failed cpython_wording (nth_sent 1 (snd half_round)) /\
  ~ round_atomic cpython_wording mock_uuid
      (scripted [ok "t1" "c1" "Hi back"]) "asst".
Proof.
  split; [vm_compute; reflexivity|].
  split; [vm_compute; reflexivity|].
  split.
  - exists (failure (PStr "Error 500: Internal Server Error")).
    split; vm_compute; reflexivity.
  - intros H.
    specialize (H 0 start_state (fresh_world 1)
                  (State (PStr "Hi back") (PStr "c1") (PStr "c1")
                         (PStr "t1") PNone)
                  (snd half_round)).
    assert (E : State (PStr "Hi back") (PStr "c1") (PStr "c1")
                      (PStr "t1") PNone = start_state).
    { apply H. vm_compute. reflexivity. }
    discriminate E.
Qed.

End RelayFacts.

(** ** More properties of the relay driver *)

Module ConversationFacts.
Import Py Relay Conversation.

Section Runs.

Variable W : wording.
Variable uuid_of : nat -> string.
Variable post : list exchange -> request -> http_result.
Variable assistant_id : string.

Lemma turn_request_full ep st u :
  let req := turn_request uuid_of assistant_id ep st u in
  url req = url_of assistant_id ep /\
  headers req = accept_json /\
  envelope_field "role" req = Some (PStr "user") /\
  envelope_text req = Some (message st) /\
  envelope_field "messageId" req = Some (PStr (uuid_of u)) /\
  field "id" (payload req) = Some (PStr (uuid_of (S u))) /\
  field "jsonrpc" (payload req) = Some (PStr "2.0") /\
  params_message_id req =
    match ep with
    | LangChain => Some (PStr (uuid_of u))
    | GoogleADK => None
    end.
Proof.
  destruct ep; cbv zeta;
    unfold envelope_text, envelope_field, envelope, params_message_id,
      turn_request, build_message; simpl;
    destruct (truthy (context_id st)); simpl; repeat split; reflexivity.
Qed.

Lemma last_text_success m0 x l r :
  interpret W (got x) = Val r -> success r = true ->
  last_text W m0 (x :: l) = response r.
Proof. intros Hi Hs. simpl. unfold assigned_text. now rewrite Hi, Hs. Qed.

Lemma last_text_other m0 x l :
  succeeded W x = false -> last_text W m0 (x :: l) = last_text W m0 l.
Proof.
  unfold succeeded. intros H. simpl. unfold assigned_text.
  destruct (interpret W (got x)) as [r|e]; [|reflexivity]. now rewrite H.
Qed.

Lemma last_context_other x l :
  succeeded W x = false -> last_context W (x :: l) = last_context W l.
Proof.
  unfold succeeded. intros H. simpl. unfold assigned_context.
  destruct (interpret W (got x)) as [r|e]; [|reflexivity]. now rewrite H.
Qed.

Lemma last_task_other ep x l :
  succeeded W x = false -> last_task W ep (x :: l) = last_task W ep l.
Proof.
  unfold succeeded. intros H. simpl. unfold assigned_task.
  destruct (interpret W (got x)) as [r|e].
  - rewrite H. simpl. now rewrite andb_false_r.
  - simpl. now rewrite andb_false_r.
Qed.

Lemma state_full_other n0 m0 st x l :
  succeeded W x = false ->
  state_full W uuid_of n0 m0 st l -> state_full W uuid_of n0 m0 st (x :: l).
Proof.
  intros H (Hm & Hc & Hs & Hl & Ha). unfold state_full.
  rewrite last_text_other, last_context_other, !last_task_other by exact H.
  repeat split; assumption.
Qed.

Lemma state_full_success n0 m0 st x l r :
  interpret W (got x) = Val r -> success r = true ->
  state_full W uuid_of n0 m0 st l ->
  state_full W uuid_of n0 m0 (after (to x) st r) (x :: l).
Proof.
  intros Hi Hs (Hm & Hc & Hsh & Hl & Ha). unfold state_full.
  rewrite (last_text_success _ _ _ _ Hi Hs).
  simpl last_context. simpl last_task.
  unfold assigned_context, assigned_task. rewrite Hi, Hs.
  destruct (to x); simpl; rewrite Hc, Hsh, Hl, Ha; unfold py_or;
    destruct (truthy (new_context_id r)) eqn:Ec; rewrite ?Ec;
    destruct (truthy (new_task_id r)) eqn:Et;
    repeat split; reflexivity.
Qed.

(** One turn. *)
Lemma turn_full n0 m0 ep st w o w' :
  ep = endpoint_at (List.length (exchanges w)) ->
  between_turns W uuid_of post assistant_id n0 m0 st w ->
  turn W uuid_of post assistant_id ep st w = (o, w') ->
  match o with
  | Val (Continue st') =>
      between_turns W uuid_of post assistant_id n0 m0 st' w' /\
      List.length (exchanges w') = S (List.length (exchanges w))
  | Val (Break st') =>
      ending_ok W uuid_of post assistant_id n0 m0 (Stopped st') (exchanges w') /\
      List.length (exchanges w') = S (List.length (exchanges w))
  | Exc e =>
      ending_ok W uuid_of post assistant_id n0 m0 (Raised e) (exchanges w') /\
      (List.length (exchanges w') <= S (List.length (exchanges w)))%nat
  end.
Proof.
  intros Hep (Hu & Hst & Hall & Htr). rewrite RelayFacts.turn_run.
  destruct (py_slice_to 60 (message st)) as [prefix|e] eqn:Hsl.
  2:{ intros [= <- <-]. split; [|lia]. split; [exact Htr|]. left.
      split; [exact Hall|]. destruct Hst as [Hm _]. now rewrite <- Hm. }
  cbv zeta.
  set (req := turn_request uuid_of assistant_id ep st (next_uuid w)).
  set (x := Exchange ep req (post (exchanges w) req)).
  assert (Hreq : request_full W uuid_of post assistant_id n0 m0 (exchanges w) x).
  { destruct (turn_request_full ep st (next_uuid w))
      as (H1 & H2 & H3 & H4 & H5 & H6 & H7 & H8).
    destruct Hst as [Hm _].
    unfold request_full, x, req. cbv zeta. cbn [to sent got].
    rewrite H1, H2, H3, H4, H5, H6, H7, H8, Hu, Hm.
    replace (S (n0 + 1 + 2 * List.length (exchanges w)))%nat
      with (n0 + 2 + 2 * List.length (exchanges w))%nat by lia.
    repeat split; try reflexivity. exact Hep. }
  destruct (interpret W (got x)) as [r|e] eqn:Hi.
  2:{ intros [= <- <-]. simpl. split; [|lia]. split; [now split|].
      right. now exists x, (exchanges w). }
  destruct (success r) eqn:Hs; intros [= <- <-]; simpl.
  - split; [|reflexivity]. split; [simpl; lia|]. split.
    + exact (state_full_success n0 m0 st x (exchanges w) r Hi Hs Hst).
    + split; [|now split].
      simpl. unfold succeeded at 1. now rewrite Hi, Hs.
  - assert (Hx : succeeded W x = false)
      by (unfold succeeded; now rewrite Hi).
    split; [|reflexivity]. split; [now split|]. split.
    + now apply state_full_other.
    + exists x, (exchanges w). repeat split; try assumption.
      exists r. now split.
Qed.

Lemma even_SS k : Nat.even (S (S k)) = Nat.even k.
Proof. reflexivity. Qed.

(** One round: two turns, the first towards the LangChain agent. *)
Lemma round_full n0 m0 i st w o w' :
  Nat.even (List.length (exchanges w)) = true ->
  between_turns W uuid_of post assistant_id n0 m0 st w ->
  round_body W uuid_of post assistant_id i st w = (o, w') ->
  match o with
  | Val (Continue st') =>
      between_turns W uuid_of post assistant_id n0 m0 st' w' /\
      List.length (exchanges w') = S (S (List.length (exchanges w)))
  | Val (Break st') =>
      ending_ok W uuid_of post assistant_id n0 m0 (Stopped st') (exchanges w') /\
      (List.length (exchanges w') <= S (S (List.length (exchanges w))))%nat
  | Exc e =>
      ending_ok W uuid_of post assistant_id n0 m0 (Raised e) (exchanges w') /\
      (List.length (exchanges w') <= S (S (List.length (exchanges w))))%nat
  end.
Proof.
  intros Hev Hb.
  destruct (RelayFacts.round_body_run W uuid_of post assistant_id i st w)
    as [c ->].
  unfold bind at 1.
  assert (Hep1 : LangChain = endpoint_at (List.length (exchanges w)))
    by (unfold endpoint_at; now rewrite Hev).
  destruct (turn W uuid_of post assistant_id LangChain st (with_console w c))
    as [[[st1|st1]|e] w1] eqn:E1;
    pose proof (turn_full n0 m0 LangChain st (with_console w c) _ _
                  Hep1 Hb E1) as H1; simpl in H1.
  - destruct H1 as [Hb1 Hlen1].
    unfold bind at 1. unfold print at 1. unfold bind at 1.
    assert (Hep2 : GoogleADK = endpoint_at (List.length (exchanges w1))).
    { unfold endpoint_at. rewrite Hlen1.
      rewrite Nat.even_succ, <- Nat.negb_even. cbn [with_console exchanges].
      now rewrite Hev. }
    match goal with
    | |- context [turn W uuid_of post assistant_id GoogleADK st1 ?w0] =>
        destruct (turn W uuid_of post assistant_id GoogleADK st1 w0)
          as [[[st2|st2]|e] w2] eqn:E2;
        pose proof (turn_full n0 m0 GoogleADK st1 w0 _ _ Hep2 Hb1 E2) as H2
    end; simpl in H2; intros [= <- <-]; simpl.
    + destruct H2 as [Hb2 Hlen2]. split; [exact Hb2|]. lia.
    + destruct H2 as [Hb2 Hlen2]. split; [exact Hb2|]. lia.
    + destruct H2 as [Hb2 Hlen2]. split; [exact Hb2|]. lia.
  - intros [= <- <-]. destruct H1 as [H1 Hlen]. split; [exact H1|]. lia.
  - intros [= <- <-]. destruct H1 as [H1 Hlen]. split; [exact H1|]. lia.
Qed.

(** The loop. *)
Lemma rounds_full n0 m0 n : forall i st w o w',
  Nat.even (List.length (exchanges w)) = true ->
  between_turns W uuid_of post assistant_id n0 m0 st w ->
  rounds W uuid_of post assistant_id n i st w = (o, w') ->
  exists how,
    ends_as o how /\
    ending_ok W uuid_of post assistant_id n0 m0 how (exchanges w') /\
    (List.length (exchanges w') <= List.length (exchanges w) + 2 * n)%nat /\
    (forall st', how = Finished st' ->
       List.length (exchanges w') = (List.length (exchanges w) + 2 * n)%nat).
Proof.
  induction n as [|n IH]; intros i st w o w' Hev Hb.
  - intros [= <- <-]. exists (Finished st).
    destruct Hb as (Hu & Hst & Hall & Htr).
    split; [reflexivity|]. split; [now split|]. split; [lia|].
    intros _ _. lia.
  - simpl. unfold bind.
    destruct (round_body W uuid_of post assistant_id i st w)
      as [[[st1|st1]|e] w1] eqn:E;
      pose proof (round_full n0 m0 i st w _ _ Hev Hb E) as H; simpl in H.
    + destruct H as [Hb1 Hlen]. intros Hr.
      assert (Hev1 : Nat.even (List.length (exchanges w1)) = true)
        by (rewrite Hlen; exact Hev).
      destruct (IH _ _ _ _ _ Hev1 Hb1 Hr) as (how & He & Hok & Hle & Heq).
      exists how. split; [exact He|]. split; [exact Hok|].
      split; [lia|]. intros st' Hf. rewrite (Heq st' Hf). lia.
    + intros [= <- <-]. destruct H as [Hok Hle].
      exists (Stopped st1). split; [reflexivity|]. split; [exact Hok|].
      split; [lia|]. discriminate.
    + intros [= <- <-]. destruct H as [Hok Hle].
      exists (Raised e). split; [reflexivity|]. split; [exact Hok|].
      split; [lia|]. discriminate.
Qed.

(** The whole run. *)
Lemma run_full num_rounds initial_message n o w' :
  run W uuid_of post assistant_id num_rounds initial_message n = (o, w') ->
  exists how,
    ends_as o how /\
    ending_ok W uuid_of post assistant_id n (first_message initial_message)
      how (exchanges w') /\
    (List.length (exchanges w') <= 2 * Z.to_nat num_rounds)%nat /\
    (forall st', how = Finished st' ->
       List.length (exchanges w') = (2 * Z.to_nat num_rounds)%nat).
Proof.
  unfold run, simulate_conversation.
  repeat (unfold bind at 1; unfold print at 1).
  unfold bind at 1. unfold uuid4 at 1.
  cbn [fresh_world next_uuid exchanges console].
  unfold bind at 1.
  match goal with
  | |- context [rounds W uuid_of post assistant_id ?k ?i ?st ?w] =>
      destruct (rounds W uuid_of post assistant_id k i st w)
        as [o1 w1] eqn:E;
      assert (Hb : between_turns W uuid_of post assistant_id n
                     (first_message initial_message) st w);
      [ split; [simpl; lia|]; split; [|split; [reflexivity | exact I]];
        repeat split
      | destruct (rounds_full n (first_message initial_message) k i st w
                    o1 w1 eq_refl Hb E) as (how & He & Hok & Hle & Heq) ]
  end.
  simpl in Hle, Heq.
  destruct o1 as [st1|e].
  - intros [= <- <-]. exists how.
    split; [exact He|]. split; [exact Hok|]. split; [exact Hle | exact Heq].
  - intros [= <- <-]. exists how.
    split; [exact He|]. split; [exact Hok|]. split; [exact Hle | exact Heq].
Qed.

Lemma trace_full_at n0 m0 newer : forall x older,
  trace_full W uuid_of post assistant_id n0 m0 (newer ++ x :: older) ->
  request_full W uuid_of post assistant_id n0 m0 older x.
Proof.
  induction newer as [|y newer IH]; intros x older; simpl.
  - now intros [H _].
  - intros [_ H]. now apply IH.
Qed.

End Runs.

End ConversationFacts.

(** ** The conversation as the driver carries it *)

Module ConversationTheorems.
Import Py Relay Conversation ConversationFacts.

Lemma forallb_tail {A} (p : A -> bool) (newer : list A) x older :
  forallb p (newer ++ x :: older) = true -> forallb p older = true.
Proof.
  rewrite forallb_app. simpl. intros H.
  apply andb_prop in H. destruct H as [_ H].
  apply andb_prop in H. tauto.
Qed.

(** In a record a run leaves, whatever came before a request succeeded. *)
Lemma earlier_succeeded W uuid_of post assistant_id n0 m0 how l newer x older :
  ending_ok W uuid_of post assistant_id n0 m0 how l ->
  l = (newer ++ x :: older)%list ->
  forallb (succeeded W) older = true.
Proof.
  intros [_ H] ->.
  assert (Htail : forall y rest,
             (newer ++ x :: older)%list = y :: rest ->
             forallb (succeeded W) rest = true ->
             forallb (succeeded W) older = true).
  { intros y rest Hl Hr. destruct newer as [|z newer]; simpl in Hl.
    - now injection Hl as _ <-.
    - injection Hl as _ <-. exact (forallb_tail _ _ _ _ Hr). }
  destruct how as [st|st|e].
  - destruct H as [H _]. exact (forallb_tail _ _ _ _ H).
  - destruct H as (_ & y & rest & Hl & _ & Hr). exact (Htail y rest Hl Hr).
  - destruct H as [[H _] | (y & rest & Hl & _ & Hr)].
    + exact (forallb_tail _ _ _ _ H).
    + exact (Htail y rest Hl Hr).
Qed.

Section Theorems.

Variable W : wording.
Variable uuid_of : nat -> string.
Variable post : list exchange -> request -> http_result.
Variable assistant_id : string.
Variable num_rounds : Z.
Variable initial_message : option string.
Variable n : nat.

(** X10: Every request carries, as the user's turn, the text the response to the
    request before it brought back; the first request carries the initial
    message. *)
Theorem text_is_relayed newer x older :
  exchanges (snd (run W uuid_of post assistant_id num_rounds initial_message n)) = (newer ++ x :: older)%list ->
  envelope_field "role" (sent x) = Some (PStr "user") /\
  match older with
  | [] => envelope_text (sent x) = Some (first_message initial_message)
  | y :: _ =>
      exists r, interpret W (got y) = Val r /\ success r = true /\
                envelope_text (sent x) = Some (response r)
  end.
Proof.
  intros Hl. destruct (run W uuid_of post assistant_id num_rounds initial_message n)
    as [o w'] eqn:E.
  destruct (run_full _ _ _ _ _ _ _ _ _ E) as (how & _ & Hok & _).
  simpl in Hl.
  pose proof (earlier_succeeded _ _ _ _ _ _ _ _ _ _ _ Hok Hl) as Hs.
  destruct Hok as [Htr _]. rewrite Hl in Htr.
  destruct (trace_full_at _ _ _ _ _ _ _ _ _ Htr)
    as (_ & _ & _ & _ & Hrole & Htext & _).
  split; [exact Hrole|].
  destruct older as [|y rest]; [exact Htext|].
  simpl in Hs. apply andb_prop in Hs. destruct Hs as [Hy _].
  unfold succeeded in Hy.
  destruct (interpret W (got y)) as [r|e] eqn:Hi; [|discriminate].
  exists r. split; [reflexivity|]. split; [exact Hy|].
  rewrite Htext. now rewrite (last_text_success W _ _ _ _ Hi Hy).
Qed.

(** X11: Requests alternate between the two endpoints, the LangChain agent
    first, each at its own address. *)
Theorem endpoints_alternate newer x older :
  exchanges (snd (run W uuid_of post assistant_id num_rounds initial_message n)) = (newer ++ x :: older)%list ->
  to x = (if Nat.even (List.length older) then LangChain else GoogleADK) /\
  url (sent x) =
    match to x with
    | LangChain => "http://127.0.0.1:2024/a2a/" ++ assistant_id
    | GoogleADK => "http://localhost:8002/"
    end /\
  headers (sent x) = [("Accept", "application/json")].
Proof.
  intros Hl. destruct (run W uuid_of post assistant_id num_rounds initial_message n)
    as [o w'] eqn:E.
  destruct (run_full _ _ _ _ _ _ _ _ _ E) as (how & _ & [Htr _] & _).
  simpl in Hl. rewrite Hl in Htr.
  destruct (trace_full_at _ _ _ _ _ _ _ _ _ Htr) as (Hto & Hurl & Hh & _).
  split; [exact Hto|]. split; [|exact Hh].
  rewrite Hurl. now destruct (to x).
Qed.

(** X12: At most two requests are sent for each round asked for, none when the
    number of rounds is zero or negative, and exactly two for each round
    when the run ends with every send successful. *)
Theorem requests_are_bounded :
  (List.length (exchanges (snd (run W uuid_of post assistant_id num_rounds initial_message n))) <= 2 * Z.to_nat num_rounds)%nat /\
  (num_rounds <= 0 -> exchanges (snd (run W uuid_of post assistant_id num_rounds initial_message n)) = []) /\
  (forall st,
      fst (run W uuid_of post assistant_id num_rounds initial_message n) = Val st ->
      forallb (succeeded W) (exchanges (snd (run W uuid_of post assistant_id num_rounds initial_message n))) = true ->
      List.length (exchanges (snd (run W uuid_of post assistant_id num_rounds initial_message n))) = (2 * Z.to_nat num_rounds)%nat).
Proof.
  destruct (run W uuid_of post assistant_id num_rounds initial_message n)
    as [o w'] eqn:E.
  destruct (run_full _ _ _ _ _ _ _ _ _ E) as (how & He & Hok & Hle & Heq).
  simpl. split; [exact Hle|]. split.
  - intros Hn. replace (Z.to_nat num_rounds) with 0%nat in Hle by lia.
    destruct (exchanges w'); [reflexivity | simpl in Hle; lia].
  - intros st -> Hall. destruct how as [st'|st'|e].
    + exact (Heq st' eq_refl).
    + destruct Hok as (_ & _ & x & older & Hl & Hf & _).
      rewrite Hl in Hall. simpl in Hall.
      rewrite (RelayFacts.failed_not_succeeded W x Hf) in Hall. discriminate.
    + discriminate He.
Qed.

(** X13: When the run ends without an exception, the driver's variables hold the
    latest of everything: the text of the last successful response, the
    last truthy context identifier from either endpoint (also as thread
    identifier, the generated one before any), and for each endpoint the
    last truthy task identifier that endpoint returned. *)
Theorem variables_follow_the_record st :
  fst (run W uuid_of post assistant_id num_rounds initial_message n) = Val st ->
  let l := exchanges (snd (run W uuid_of post assistant_id num_rounds initial_message n)) in
  message st = last_text W (first_message initial_message) l /\
  context_id st = last_context W l /\
  shared_thread_id st = py_or (last_context W l) (PStr (uuid_of n)) /\
  langchain_task_id st = last_task W LangChain l /\
  adk_task_id st = last_task W GoogleADK l.
Proof.
  destruct (run W uuid_of post assistant_id num_rounds initial_message n)
    as [o w'] eqn:E.
  destruct (run_full _ _ _ _ _ _ _ _ _ E) as (how & He & [_ Hok] & _).
  simpl. intros ->. destruct how as [st'|st'|e].
  - injection He as ->. exact (proj2 Hok).
  - injection He as ->. exact (proj1 Hok).
  - discriminate He.
Qed.

End Theorems.

(** *** Identifiers *)

Lemma str_Z_nonneg_inj a b :
  0 <= a -> 0 <= b -> str_Z a = str_Z b -> a = b.
Proof.
  intros Ha Hb H. unfold str_Z in H.
  assert (Hnn : forall z, 0 <= z ->
             Z.to_int z <> Decimal.Pos Decimal.Nil /\
             Z.to_int z <> Decimal.Neg Decimal.Nil).
  { intros [|p|p] Hz; [split; discriminate| |lia].
    split; [|discriminate]. simpl. intros [= Hp].
    now apply (DecimalPos.Unsigned.to_uint_nonnil p). }
  apply (f_equal NilZero.int_of_string) in H.
  rewrite !NilZero.isi in H by (apply Hnn; assumption).
  injection H as H. apply (f_equal Z.of_int) in H.
  now rewrite !DecimalZ.of_to in H.
Qed.

Lemma mock_uuid_inj a b : mock_uuid a = mock_uuid b -> a = b.
Proof.
  unfold mock_uuid. intros H. injection H as H.
  apply str_Z_nonneg_inj in H; lia.
Qed.

Section Identifiers.

Variable W : wording.
Variable uuid_of : nat -> string.
Variable post : list exchange -> request -> http_result.
Variable assistant_id : string.
Variable num_rounds : Z.
Variable initial_message : option string.
Variable n : nat.

Lemma identifiers_of_request newer x older :
  exchanges (snd (run W uuid_of post assistant_id num_rounds
                    initial_message n)) = (newer ++ x :: older)%list ->
  envelope_field "messageId" (sent x) =
    Some (PStr (uuid_of (n + 1 + 2 * List.length older)%nat)) /\
  field "id" (payload (sent x)) =
    Some (PStr (uuid_of (n + 2 + 2 * List.length older)%nat)) /\
  params_message_id (sent x) =
    match to x with
    | LangChain => Some (PStr (uuid_of (n + 1 + 2 * List.length older)%nat))
    | GoogleADK => None
    end.
Proof.
  intros Hl.
  destruct (run W uuid_of post assistant_id num_rounds initial_message n)
    as [o w'] eqn:E.
  destruct (run_full _ _ _ _ _ _ _ _ _ E) as (how & _ & [Htr _] & _).
  simpl in Hl. rewrite Hl in Htr.
  destruct (trace_full_at _ _ _ _ _ _ _ _ _ Htr)
    as (_ & _ & _ & _ & _ & _ & Hm & Hi & _ & Hp).
  now repeat split.
Qed.

(** X15: Every request draws two fresh identifiers: one for the message, which
    the LangChain request repeats beside the message and the Google ADK
    request does not, and one for the JSON-RPC call.  When [uuid4] never
    repeats itself, the two differ from each other and from the thread
    identifier generated at the start, in every request from the first on,
    and no two requests of a run share a message identifier or a call
    identifier. *)
Theorem identifiers_are_fresh :
  (forall a b, uuid_of a = uuid_of b -> a = b) ->
  (forall newer x older,
      exchanges (snd (run W uuid_of post assistant_id num_rounds
                        initial_message n))
        = (newer ++ x :: older)%list ->
      (params_message_id (sent x) =
         match to x with
         | LangChain => envelope_field "messageId" (sent x)
         | GoogleADK => None
         end) /\
      (exists m i,
          envelope_field "messageId" (sent x) = Some (PStr m) /\
          field "id" (payload (sent x)) = Some (PStr i) /\
          m <> i /\ m <> uuid_of n /\ i <> uuid_of n)) /\
  (forall newer x between y older,
      exchanges (snd (run W uuid_of post assistant_id num_rounds
                        initial_message n))
        = (newer ++ x :: between ++ y :: older)%list ->
      envelope_field "messageId" (sent x) <> envelope_field "messageId" (sent y) /\
      field "id" (payload (sent x)) <> field "id" (payload (sent y)) /\
      envelope_field "messageId" (sent x) <> field "id" (payload (sent y)) /\
      field "id" (payload (sent x)) <> envelope_field "messageId" (sent y)).
Proof.
  intros Hinj. split.
  - intros newer x older Hl.
    destruct (identifiers_of_request newer x older Hl) as (Hmx & Hix & Hpx).
    rewrite Hmx, Hix, Hpx. split; [now destruct (to x)|].
    eexists. eexists. split; [reflexivity|]. split; [reflexivity|].
    repeat split; intros H; apply Hinj in H; lia.
  - intros newer x between y older Hl.
    destruct (identifiers_of_request newer x (between ++ y :: older) Hl)
      as (Hmx & Hix & _).
    assert (Hl' : exchanges (snd (run W uuid_of post assistant_id num_rounds
                                    initial_message n))
                  = ((newer ++ x :: between) ++ y :: older)%list)
      by (rewrite Hl, <- app_assoc; reflexivity).
    destruct (identifiers_of_request _ y older Hl') as (Hmy & Hiy & _).
    rewrite Hmx, Hix, Hmy, Hiy.
    rewrite length_app. simpl List.length.
    repeat split; intros [= H]; apply Hinj in H; lia.
Qed.

End Identifiers.

Lemma identifiers_are_fresh_witness :
  let x := nth_sent 0 (snd scenario) in
  (params_message_id (sent x) =
     match to x with
     | LangChain => envelope_field "messageId" (sent x)
     | GoogleADK => None
     end) /\
  (exists m i,
      envelope_field "messageId" (sent x) = Some (PStr m) /\
      field "id" (payload (sent x)) = Some (PStr i) /\
      m <> i /\ m <> mock_uuid 0 /\ i <> mock_uuid 0).
Proof.
  cbv zeta.
  apply (proj1 (identifiers_are_fresh cpython_wording mock_uuid
                  (scripted [ok "t1" "c1" "Hi back"])
                  "asst" 5 (Some "Hello") 0 mock_uuid_inj)
           [nth_sent 1 (snd scenario)] (nth_sent 0 (snd scenario)) []).
  vm_compute. reflexivity.
Defined.

(** *** Witnesses *)

Lemma text_is_relayed_witness :
  envelope_field "role" (sent (nth_sent 1 (snd full_run))) =
    Some (PStr "user") /\
  exists r,
    interpret cpython_wording (got (nth_sent 0 (snd full_run))) = Val r /\
    success r = true /\
    envelope_text (sent (nth_sent 1 (snd full_run))) = Some (response r).
Proof.
  apply (text_is_relayed cpython_wording mock_uuid
           (scripted [ok "t1" "c1" "Hi back"; ok "t2" "c2" "Hello again";
                      ok "t3" "c2" "Third"; ok "t4" "c2" "Fourth"])
           "asst" 2 (Some "Hello") 0
           [nth_sent 3 (snd full_run); nth_sent 2 (snd full_run)]
           (nth_sent 1 (snd full_run)) [nth_sent 0 (snd full_run)]).
  vm_compute. reflexivity.
Defined.

Lemma endpoints_alternate_witness :
  to (nth_sent 1 (snd full_run)) =
    (if Nat.even (List.length [nth_sent 0 (snd full_run)])
     then LangChain else GoogleADK) /\
  url (sent (nth_sent 1 (snd full_run))) =
    match to (nth_sent 1 (snd full_run)) with
    | LangChain => "http://127.0.0.1:2024/a2a/" ++ "asst"
    | GoogleADK => "http://localhost:8002/"
    end /\
  headers (sent (nth_sent 1 (snd full_run))) =
    [("Accept", "application/json")].
Proof.
  apply (endpoints_alternate cpython_wording mock_uuid
           (scripted [ok "t1" "c1" "Hi back"; ok "t2" "c2" "Hello again";
                      ok "t3" "c2" "Third"; ok "t4" "c2" "Fourth"])
           "asst" 2 (Some "Hello") 0
           [nth_sent 3 (snd full_run); nth_sent 2 (snd full_run)]).
  vm_compute. reflexivity.
Defined.

Lemma requests_are_bounded_witness :
  List.length
    (exchanges (snd (run cpython_wording mock_uuid
                       (scripted [ok "t1" "c1" "Hi back";
                                  ok "t2" "c2" "Hello again";
                                  ok "t3" "c2" "Third"; ok "t4" "c2" "Fourth"])
                       "asst" 2 (Some "Hello") 0)))
  = (2 * Z.to_nat 2)%nat.
Proof.
  apply (proj2 (proj2 (requests_are_bounded cpython_wording mock_uuid
                         (scripted [ok "t1" "c1" "Hi back";
                                    ok "t2" "c2" "Hello again";
                                    ok "t3" "c2" "Third"; ok "t4" "c2" "Fourth"])
                         "asst" 2 (Some "Hello") 0))
           (state_of full_run)).
  - vm_compute. reflexivity.
  - vm_compute. reflexivity.
Defined.

Lemma variables_follow_the_record_witness :
  let l := exchanges (snd (run cpython_wording mock_uuid
                             (scripted [ok "t1" "c1" "Hi back"])
                             "asst" 5 (Some "Hello") 0)) in
  message (state_of scenario) = last_text cpython_wording
                                  (first_message (Some "Hello")) l /\
  context_id (state_of scenario) = last_context cpython_wording l /\
  shared_thread_id (state_of scenario) =
    py_or (last_context cpython_wording l) (PStr (mock_uuid 0)) /\
  langchain_task_id (state_of scenario) = last_task cpython_wording LangChain l /\
  adk_task_id (state_of scenario) = last_task cpython_wording GoogleADK l.
Proof.
  apply (variables_follow_the_record cpython_wording mock_uuid
           (scripted [ok "t1" "c1" "Hi back"]) "asst" 5 (Some "Hello") 0
           (state_of scenario)).
  vm_compute. reflexivity.
Defined.

Example scenario_variables :
  state_of scenario =
  State (PStr "Hi back") (PStr "c1") (PStr "c1") (PStr "t1") PNone.
Proof. vm_compute. reflexivity. Qed.

Example numeric_answer_stops_the_driver :
  fst numeric_run = Exc (Fault (NotSubscriptable "int")) /\
  List.length (exchanges (snd numeric_run)) = 1%nat.
Proof. vm_compute. split; reflexivity. Qed.

(** *** The send functions by themselves *)

Lemma py_contains_raises k c e :
  py_contains k c = Exc e -> caught_by_except_Exception e = true.
Proof. destruct c; simpl; intros [= <-]; reflexivity. Qed.

Lemma py_getitem_raises c k e :
  py_getitem c k = Exc e -> caught_by_except_Exception e = true.
Proof.
  destruct c; simpl; try (intros [= <-]; reflexivity).
  destruct (dict_get k d); [discriminate | intros [= <-]; reflexivity].
Qed.

Lemma py_getitem0_raises c e :
  py_getitem0 c = Exc e -> caught_by_except_Exception e = true.
Proof.
  destruct c as [| | | |s|l|d]; simpl; try (intros [= <-]; reflexivity).
  - destruct s; [intros [= <-]; reflexivity | discriminate].
  - destruct l; [intros [= <-]; reflexivity | discriminate].
Qed.

Tactic Notation "raise_step" hyp(H) ident(v) ident(E) :=
  match type of H with
  | obind ?m _ = Exc ?e =>
      destruct m as [v|] eqn:E; simpl in H;
      [| injection H as <-;
         first [ left; apply (py_contains_raises _ _ _ E)
               | left; apply (py_getitem_raises _ _ _ E)
               | left; apply (py_getitem0_raises _ _ E)
               | left; apply (RelayFacts.py_get_raises _ _ _ _ E)
               | right; constructor ] ]
  end.

(** What [read_response] raises is caught by [except Exception], unless
    the HTTP client raised it. *)
Lemma read_response_raises h e :
  read_response h = Exc e ->
  caught_by_except_Exception e = true \/ raised_by_client e h.
Proof.
  destruct h as [e'|status json text]; simpl.
  - intros [= <-]. right. constructor.
  - destruct (status =? 200).
    + intros H. raise_step H result E1. raise_step H has_error E2.
      destruct has_error.
      * raise_step H error E3. raise_step H msg E4. discriminate H.
      * raise_step H has_result E3.
        destruct (negb has_result); [discriminate H|].
        raise_step H result_obj E4. raise_step H task E5.
        raise_step H ctx E6. raise_step H artifacts E7.
        raise_step H artifact E8. raise_step H parts E9.
        raise_step H part E10. raise_step H txt E11. discriminate H.
    + intros H. raise_step H t E1. discriminate H.
Qed.

(** X7: A send succeeds exactly on status 200 with a JSON object that has no
    [error] key, whose [result] is an object, and where
    [result.artifacts[0].parts[0].text] is there; the reply then carries
    that text, [result.id] and [result.contextId] ([None] for a missing
    one). *)
Theorem success_is_the_task_shape (W : wording) (h : http_result) (r : reply) :
  (interpret W h = Val r /\ success r = true) <-> success_shape h r.
Proof.
  split.
  - intros [Hi Hs]. unfold interpret in Hi.
    destruct (read_response h) as [r'|e] eqn:E.
    2:{ destruct (caught_by_except_Exception e); [|discriminate].
        injection Hi as <-. discriminate. }
    injection Hi as ->. revert E.
    destruct h as [e|status json text]; simpl; [discriminate|].
    destruct (Z.eqb_spec status 200) as [->|_].
    2:{ intros H. destruct text; simpl in H; [|discriminate].
        injection H as <-. discriminate. }
    intros H. destruct json as [result|]; simpl in H; [|discriminate].
    destruct (py_contains "error" result) as [has_error|] eqn:E1;
      simpl in H; [|discriminate].
    destruct has_error.
    { destruct (py_getitem result "error"); simpl in H; [|discriminate].
      destruct (py_get _ _ _); simpl in H; [|discriminate].
      injection H as <-. discriminate. }
    destruct (py_contains "result" result) as [has_result|] eqn:E2;
      simpl in H; [|discriminate].
    destruct (negb has_result); [injection H as <-; discriminate|].
    destruct result as [| | | | |l|d]; try discriminate.
    simpl in E1. injection E1 as E1. unfold dict_has in E1.
    destruct (dict_get "error" d) eqn:Eerr; [discriminate|].
    simpl in H.
    destruct (dict_get "result" d) as [result_obj|] eqn:Eres;
      simpl in H; [|discriminate].
    destruct result_obj as [| | | | | |ro]; try discriminate.
    simpl in H.
    destruct (dict_get "artifacts" ro) as [artifacts|] eqn:Eart.
    2:{ destruct (dict_get "id" ro), (dict_get "contextId" ro);
          discriminate. }
    assert (Hrest :
      obind (py_getitem0 artifacts) (fun artifact =>
      obind (py_getitem artifact "parts") (fun parts =>
      obind (py_getitem0 parts) (fun part =>
      obind (py_getitem part "text") (fun response_text =>
      Val (Reply true response_text (or_none (dict_get "id" ro))
                 (or_none (dict_get "contextId" ro))))))) = Val r).
    { destruct (dict_get "id" ro), (dict_get "contextId" ro); exact H. }
    clear H.
    destruct artifacts as [| | | |s|[|artifact arest]|]; try discriminate.
    { destruct s; discriminate. }
    simpl in Hrest.
    destruct artifact as [| | | | | |a]; try discriminate.
    simpl in Hrest.
    destruct (dict_get "parts" a) as [parts|] eqn:Eparts; [|discriminate].
    simpl in Hrest.
    destruct parts as [| | | |s|[|part prest]|]; try discriminate.
    { destruct s; discriminate. }
    simpl in Hrest.
    destruct part as [| | | | | |p]; try discriminate.
    simpl in Hrest.
    destruct (dict_get "text" p) as [txt|] eqn:Etext; [|discriminate].
    injection Hrest as <-.
    exact (Shape d ro a arest p prest txt text Eerr Eres Eart Eparts Etext).
  - intros [d ro a arest p prest txt t He Hr Ha Hp Ht].
    split; [|reflexivity].
    unfold interpret. simpl. unfold dict_has. rewrite He, Hr. simpl.
    rewrite Ha.
    destruct (dict_get "id" ro), (dict_get "contextId" ro); simpl;
      rewrite Hp; simpl; rewrite Ht; reflexivity.
Qed.

Lemma success_is_the_task_shape_witness :
  interpret cpython_wording (ok "t1" "c1" "Hi back") =
    Val (Reply true (PStr "Hi back") (PStr "t1") (PStr "c1")) /\
  success (Reply true (PStr "Hi back") (PStr "t1") (PStr "c1")) = true.
Proof.
  apply (proj2 (success_is_the_task_shape cpython_wording
                  (ok "t1" "c1" "Hi back")
                  (Reply true (PStr "Hi back") (PStr "t1") (PStr "c1")))).
  exact (Shape
           [("result",
             PDict [("id", PStr "t1"); ("contextId", PStr "c1");
                    ("artifacts",
                     PList [PDict [("parts",
                                    PList [PDict [("text", PStr "Hi back")]])]])])]
           [("id", PStr "t1"); ("contextId", PStr "c1");
            ("artifacts",
             PList [PDict [("parts",
                            PList [PDict [("text", PStr "Hi back")]])]])]
           [("parts", PList [PDict [("text", PStr "Hi back")]])] []
           [("text", PStr "Hi back")] []
           (PStr "Hi back") (Val "")
           eq_refl eq_refl eq_refl eq_refl eq_refl).
Defined.

Lemma take_length n : forall s,
  py_len (take n s) = Nat.min n (py_len s).
Proof.
  intros s. revert n. induction s as [|a s IH]; intros n; simpl.
  - now destruct n.
  - destruct (is_continuation a) eqn:Ea.
    + simpl. rewrite Ea. apply IH.
    + destruct n as [|n]; simpl; [reflexivity|]. rewrite Ea. now rewrite IH.
Qed.

Lemma take_prefix n : forall s, is_prefix (take n s) s = true.
Proof.
  intros s. revert n. induction s as [|a s IH]; intros n; simpl;
    [reflexivity|].
  destruct (is_continuation a); [simpl; now rewrite Ascii.eqb_refl, IH|].
  destruct n as [|n]; simpl; [reflexivity|].
  now rewrite Ascii.eqb_refl, IH.
Qed.

Lemma take_all n : forall s, (py_len s <= n)%nat -> take n s = s.
Proof.
  intros s. revert n. induction s as [|a s IH]; intros n; simpl;
    [reflexivity|].
  destruct (is_continuation a); intros H; [f_equal; now apply IH|].
  destruct n as [|n]; [lia|]. f_equal. apply IH. lia.
Qed.

Example take_counts_characters :
  py_len "1€ = 1$" = 7%nat /\ String.length "1€ = 1$" = 9%nat /\
  take 2 "1€ = 1$" = "1€" /\ take 3 "1€ = 1$" = "1€ ".
Proof. repeat split; reflexivity. Qed.

(** X8: Any status but 200 gives [success = False] with the status and the
    first 200 characters of the body as the error text, without the JSON
    being looked at: the whole body when it has at most 200 characters, and
    never more than 200 of them. *)
Theorem other_status_is_reported (W : wording) (status : Z)
    (json : outcome pyval) (body : string) :
  status <> 200 ->
  exists shown,
    interpret W (Responded status json (Val body)) =
      Val (Reply false (PStr ("Error " ++ str_Z status ++ ": " ++ shown))
                 PNone PNone) /\
    is_prefix shown body = true /\
    py_len shown = Nat.min 200 (py_len body) /\
    ((py_len body <= 200)%nat -> shown = body).
Proof.
  intros Hne. exists (take 200 body). split.
  - unfold interpret. simpl.
    destruct (Z.eqb_spec status 200); [contradiction | reflexivity].
  - split; [apply take_prefix|]. split; [apply take_length | apply take_all].
Qed.

Lemma other_status_is_reported_witness :
  exists shown,
    interpret cpython_wording
      (Responded 404 (Val (PDict [])) (Val "Not Found")) =
      Val (Reply false (PStr ("Error " ++ str_Z 404 ++ ": " ++ shown))
                 PNone PNone) /\
    is_prefix shown "Not Found" = true /\
    py_len shown = Nat.min 200 (py_len "Not Found") /\
    ((py_len "Not Found" <= 200)%nat -> shown = "Not Found").
Proof.
  apply (other_status_is_reported cpython_wording 404 (Val (PDict []))
           "Not Found").
  discriminate.
Defined.

(** X9: No response body can make a send function raise: whatever JSON value
    the body decodes to, and whatever the status, the function returns its
    tuple.  An exception leaves a send function only when the HTTP client
    raised it and it is not an [Exception] (a cancellation, an interrupt). *)
Theorem send_survives_any_body (W : wording) :
  (forall status v text,
      exists r, interpret W (Responded status (Val v) (Val text)) = Val r) /\
  (forall h e,
      interpret W h = Exc e ->
      raised_by_client e h /\ caught_by_except_Exception e = false).
Proof.
  assert (H : forall h e,
             interpret W h = Exc e ->
             raised_by_client e h /\ caught_by_except_Exception e = false).
  { intros h e. unfold interpret.
    destruct (read_response h) as [r|e'] eqn:E; [discriminate|].
    destruct (caught_by_except_Exception e') eqn:Ec; [discriminate|].
    intros [= <-]. split; [|exact Ec].
    destruct (read_response_raises _ _ E) as [Hc | Hc]; [congruence | exact Hc]. }
  split; [|exact H].
  intros status v text.
  destruct (interpret W (Responded status (Val v) (Val text))) as [r|e] eqn:E.
  - now exists r.
  - destruct (H _ _ E) as [Hr _]. inversion Hr.
Qed.

Lemma send_survives_any_body_witness :
  raised_by_client (Foreign CancelledError "") (PostRaises (Foreign CancelledError "")) /\
  caught_by_except_Exception (Foreign CancelledError "") = false.
Proof.
  apply (proj2 (send_survives_any_body cpython_wording)).
  reflexivity.
Defined.

End ConversationTheorems.

(** ** Properties of the command line *)

Module MainFacts.
Import Py Relay Conversation Main.

Lemma insensitive_ret {A} (a : A) : insensitive (ret a).
Proof. intros w1 w2 H. now split. Qed.

Lemma insensitive_lift {A} (o : outcome A) : insensitive (lift o).
Proof. intros w1 w2 H. now split. Qed.

Lemma insensitive_raise {A} (e : exn) : insensitive (@raise A e).
Proof. intros w1 w2 H. now split. Qed.

Lemma insensitive_print l : insensitive (print l).
Proof. intros w1 w2 [Hu Hx]. now repeat split. Qed.

Lemma insensitive_print_if v l : insensitive (print_if v l).
Proof.
  unfold print_if. destruct (truthy v);
    [apply insensitive_print | apply insensitive_ret].
Qed.

Lemma insensitive_bind {A B} (m : M A) (k : A -> M B) :
  insensitive m -> (forall a, insensitive (k a)) -> insensitive (bind m k).
Proof.
  intros Hm Hk w1 w2 Ha. unfold bind.
  destruct (Hm w1 w2 Ha) as [Ho Hw].
  destruct (m w1) as [o1 v1], (m w2) as [o2 v2]. simpl in Ho, Hw. subst o2.
  destruct o1 as [a|e]; [now apply Hk | now split].
Qed.

Lemma insensitive_print_all ls : insensitive (print_all ls).
Proof.
  induction ls as [|l ls IH]; simpl; [apply insensitive_ret|].
  apply insensitive_bind; [apply insensitive_print | intros _; exact IH].
Qed.

Section Frame.

Variable W : wording.
Variable uuid_of : nat -> string.
Variable post : list exchange -> request -> http_result.

Lemma insensitive_uuid4 : insensitive (uuid4 uuid_of).
Proof.
  intros w1 w2 [Hu Hx]. unfold uuid4. simpl. rewrite Hu.
  now repeat split.
Qed.

Lemma insensitive_http_post ep req : insensitive (http_post post ep req).
Proof.
  intros w1 w2 [Hu Hx]. unfold http_post. simpl. rewrite Hx.
  now repeat split.
Qed.

Ltac insensitive_steps :=
  repeat first
    [ apply insensitive_ret
    | apply insensitive_lift
    | apply insensitive_print
    | apply insensitive_print_if
    | apply insensitive_uuid4
    | apply insensitive_http_post
    | apply insensitive_bind; [|intro] ].

Lemma insensitive_send_to_langchain aid text tid ctx task :
  insensitive (send_to_langchain W uuid_of post aid text tid ctx task).
Proof. unfold send_to_langchain. insensitive_steps. Qed.

Lemma insensitive_send_to_google_adk text tid ctx task :
  insensitive (send_to_google_adk W uuid_of post text tid ctx task).
Proof. unfold send_to_google_adk. insensitive_steps. Qed.

Lemma insensitive_langchain_turn aid st :
  insensitive (langchain_turn W uuid_of post aid st).
Proof.
  unfold langchain_turn. cbv zeta.
  apply insensitive_bind; [apply insensitive_lift | intro].
  apply insensitive_bind; [apply insensitive_print | intro].
  apply insensitive_bind; [apply insensitive_send_to_langchain | intros r].
  destruct (success r); insensitive_steps.
Qed.

Lemma insensitive_google_adk_turn st :
  insensitive (google_adk_turn W uuid_of post st).
Proof.
  unfold google_adk_turn. cbv zeta.
  apply insensitive_bind; [apply insensitive_lift | intro].
  apply insensitive_bind; [apply insensitive_print | intro].
  apply insensitive_bind; [apply insensitive_send_to_google_adk | intros r].
  destruct (success r); insensitive_steps.
Qed.

Lemma insensitive_round_body aid i st :
  insensitive (round_body W uuid_of post aid i st).
Proof.
  unfold round_body.
  do 5 (apply insensitive_bind;
        [first [apply insensitive_print | apply insensitive_print_if]
        | intro]).
  apply insensitive_bind; [apply insensitive_langchain_turn | intros f].
  destruct f as [st'|st']; [|apply insensitive_ret].
  apply insensitive_bind; [apply insensitive_print | intro].
  apply insensitive_bind; [apply insensitive_google_adk_turn | intros f'].
  destruct f'; insensitive_steps.
Qed.

Lemma insensitive_rounds aid k : forall i st,
  insensitive (rounds W uuid_of post aid k i st).
Proof.
  induction k as [|k IH]; intros i st; simpl; [apply insensitive_ret|].
  apply insensitive_bind; [apply insensitive_round_body | intros f].
  destruct f; [apply IH | apply insensitive_ret].
Qed.

Lemma insensitive_simulate aid num_rounds initial_message :
  insensitive (simulate_conversation W uuid_of post aid num_rounds
                 initial_message).
Proof.
  unfold simulate_conversation.
  do 7 (apply insensitive_bind; [apply insensitive_print | intro]).
  apply insensitive_bind; [apply insensitive_uuid4 | intro].
  apply insensitive_bind; [apply insensitive_rounds | intro].
  insensitive_steps.
Qed.

End Frame.

Section CommandLineFacts.

Variable W : wording.
Variable uuid_of : nat -> string.
Variable post : list exchange -> request -> http_result.
Variable py_int : string -> outcome Z.

Lemma print_all_run ls w :
  print_all ls w = (Val tt, with_console w (rev ls ++ console w)).
Proof.
  revert w. induction ls as [|l ls IH]; intros w.
  - now destruct w.
  - simpl print_all. unfold bind. simpl. rewrite IH. unfold with_console.
    simpl. now rewrite <- app_assoc.
Qed.

Lemma main_with_id env argv id :
  (if Nat.ltb 1 (List.length argv) then nth 1 argv ""
   else match env "LANGCHAIN_ASSISTANT_ID" with
        | Some v => v
        | None => ""
        end) = id ->
  id <> "" ->
  main W uuid_of post py_int env argv =
  (num_rounds <- lift (py_int (getenv_or env "NUM_ROUNDS" "5")) ;;
   num_rounds <-
     (if Nat.ltb 2 (List.length argv)
      then lift (py_int (nth 2 argv ""))
      else ret num_rounds) ;;
   print (Text "Starting conversation simulation...") ;;;
   print (Text ("LangChain Assistant ID: " ++ id)) ;;;
   print (Text ("Number of rounds: " ++ str_Z num_rounds)) ;;;
   print Blank ;;;
   simulate_conversation W uuid_of post id num_rounds
     (if Nat.ltb 3 (List.length argv) then Some (nth 3 argv "")
      else env "INITIAL_MESSAGE") ;;;
   ret tt).
Proof.
  intros Hid Hne. unfold main. cbv zeta.
  destruct (Nat.ltb 1 (List.length argv)).
  - subst id. destruct (nth 1 argv "") as [|a s]; [contradiction|reflexivity].
  - destruct (env "LANGCHAIN_ASSISTANT_ID") as [v|]; [|congruence].
    subst v. destruct id as [|a s]; [contradiction|reflexivity].
Qed.

Lemma main_is_a_run id k msg n :
  let m :=
    print (Text "Starting conversation simulation...") ;;;
    print (Text ("LangChain Assistant ID: " ++ id)) ;;;
    print (Text ("Number of rounds: " ++ str_Z k)) ;;;
    print Blank ;;;
    simulate_conversation W uuid_of post id k msg ;;;
    ret tt in
  fst (m (fresh_world n)) = forget (fst (run W uuid_of post id k msg n)) /\
  exchanges (snd (m (fresh_world n))) =
    exchanges (snd (run W uuid_of post id k msg n)).
Proof.
  intros m. subst m. unfold run.
  set (w0 := fresh_world n).
  set (w1 := with_console w0
               [Blank; Text ("Number of rounds: " ++ str_Z k);
                Text ("LangChain Assistant ID: " ++ id);
                Text "Starting conversation simulation..."]).
  change ((print (Text "Starting conversation simulation...") ;;;
           print (Text ("LangChain Assistant ID: " ++ id)) ;;;
           print (Text ("Number of rounds: " ++ str_Z k)) ;;;
           print Blank ;;;
           simulate_conversation W uuid_of post id k msg ;;; ret tt) w0)
    with ((simulate_conversation W uuid_of post id k msg ;;; ret tt) w1).
  assert (Ha : alike w1 w0) by (now split).
  destruct (insensitive_simulate W uuid_of post id k msg w1 w0 Ha)
    as [Ho [_ Hx]].
  unfold bind.
  destruct (simulate_conversation W uuid_of post id k msg w1) as [o1 v1].
  destruct (simulate_conversation W uuid_of post id k msg w0) as [o0 v0].
  simpl in Ho, Hx. subst o0.
  destruct o1; simpl; now split.
Qed.

(** X17: Without an assistant id, [main] prints the usage text and exits with
    status 1; nothing is sent, and the number of rounds is not looked at.
    An empty first argument counts as no id, also when the environment
    names one. *)
Theorem no_assistant_id_is_an_exit env argv w :
  (if Nat.ltb 1 (List.length argv) then nth 1 argv "" = ""
   else env "LANGCHAIN_ASSISTANT_ID" = None \/
        env "LANGCHAIN_ASSISTANT_ID" = Some "") ->
  main W uuid_of post py_int env argv w =
  (Exc system_exit_1, with_console w (rev usage ++ console w)).
Proof.
  intros H. unfold main. cbv zeta.
  destruct (Nat.ltb 1 (List.length argv)).
  - rewrite H. unfold bind. now rewrite print_all_run.
  - destruct H as [-> | ->]; unfold bind; now rewrite print_all_run.
Qed.

(** X18: With an id, a number of rounds and a message on the command line,
    [main] is the relay run on these three: it ends as that run ends and
    sends what that run sends, whatever the environment says, provided the
    number of rounds of the environment (or its default) is an integer. *)
Theorem arguments_override_the_environment
    env prog id rounds msg rest k0 k n :
  id <> "" ->
  py_int (getenv_or env "NUM_ROUNDS" "5") = Val k0 ->
  py_int rounds = Val k ->
  fst (main W uuid_of post py_int env (prog :: id :: rounds :: msg :: rest)
         (fresh_world n)) =
    forget (fst (run W uuid_of post id k (Some msg) n)) /\
  exchanges (snd (main W uuid_of post py_int env
                    (prog :: id :: rounds :: msg :: rest) (fresh_world n))) =
    exchanges (snd (run W uuid_of post id k (Some msg) n)).
Proof.
  intros Hne H0 Hk.
  rewrite (main_with_id env (prog :: id :: rounds :: msg :: rest) id
             eq_refl Hne).
  cbn [List.length Nat.ltb Nat.leb nth].
  rewrite H0, Hk. unfold bind at 1 2. unfold lift.
  apply main_is_a_run.
Qed.

(** X19: Without arguments, [main] is the relay run on what the environment
    gives: its assistant id, its number of rounds (or 5) and its initial
    message (or the default one). *)
Theorem environment_configures_the_run env argv id k n :
  (List.length argv <= 1)%nat ->
  env "LANGCHAIN_ASSISTANT_ID" = Some id ->
  id <> "" ->
  py_int (getenv_or env "NUM_ROUNDS" "5") = Val k ->
  fst (main W uuid_of post py_int env argv (fresh_world n)) =
    forget (fst (run W uuid_of post id k (env "INITIAL_MESSAGE") n)) /\
  exchanges (snd (main W uuid_of post py_int env argv (fresh_world n))) =
    exchanges (snd (run W uuid_of post id k (env "INITIAL_MESSAGE") n)).
Proof.
  intros Hlen Hid Hne Hk.
  assert (L1 : Nat.ltb 1 (List.length argv) = false)
    by (apply Nat.ltb_ge; lia).
  assert (L2 : Nat.ltb 2 (List.length argv) = false)
    by (apply Nat.ltb_ge; lia).
  assert (L3 : Nat.ltb 3 (List.length argv) = false)
    by (apply Nat.ltb_ge; lia).
  rewrite (main_with_id env argv id); [| now rewrite L1, Hid | exact Hne].
  rewrite L2, L3, Hk. unfold bind at 1 2. unfold lift, ret.
  apply main_is_a_run.
Qed.

(** X20: The number of rounds of the environment is converted before the
    command line is looked at: when it is no integer, [main] raises what
    [int] raises, with nothing printed and nothing sent, also when the
    command line gives a number of rounds. *)
Theorem environment_rounds_are_converted_first env prog id rest e w :
  id <> "" ->
  py_int (getenv_or env "NUM_ROUNDS" "5") = Exc e ->
  main W uuid_of post py_int env (prog :: id :: rest) w = (Exc e, w).
Proof.
  intros Hne He.
  rewrite (main_with_id env (prog :: id :: rest) id eq_refl Hne).
  unfold bind at 1. unfold lift. now rewrite He.
Qed.

End CommandLineFacts.

Lemma no_assistant_id_is_an_exit_witness :
  main cpython_wording mock_uuid steady toy_int good_env ["prog"; ""]
    (fresh_world 0) =
  (Exc system_exit_1,
   with_console (fresh_world 0) (rev usage ++ console (fresh_world 0))).
Proof.
  apply (no_assistant_id_is_an_exit cpython_wording mock_uuid steady toy_int
           good_env ["prog"; ""] (fresh_world 0)).
  vm_compute. reflexivity.
Defined.

Lemma arguments_override_the_environment_witness :
  fst (main cpython_wording mock_uuid steady toy_int good_env
         ("prog" :: "asst" :: "2" :: "Hello" :: []) (fresh_world 0)) =
    forget (fst (run cpython_wording mock_uuid steady "asst" 2
                   (Some "Hello") 0)) /\
  exchanges (snd (main cpython_wording mock_uuid steady toy_int good_env
                    ("prog" :: "asst" :: "2" :: "Hello" :: [])
                    (fresh_world 0))) =
    exchanges (snd (run cpython_wording mock_uuid steady "asst" 2
                      (Some "Hello") 0)).
Proof.
  apply (arguments_override_the_environment cpython_wording mock_uuid steady
           toy_int good_env "prog" "asst" "2" "Hello" [] 5 2 0).
  - discriminate.
  - vm_compute. reflexivity.
  - vm_compute. reflexivity.
Defined.

Lemma environment_configures_the_run_witness :
  fst (main cpython_wording mock_uuid steady toy_int good_env ["prog"]
         (fresh_world 0)) =
    forget (fst (run cpython_wording mock_uuid steady "from-env" 5
                   (good_env "INITIAL_MESSAGE") 0)) /\
  exchanges (snd (main cpython_wording mock_uuid steady toy_int good_env
                    ["prog"] (fresh_world 0))) =
    exchanges (snd (run cpython_wording mock_uuid steady "from-env" 5
                      (good_env "INITIAL_MESSAGE") 0)).
Proof.
  apply (environment_configures_the_run cpython_wording mock_uuid steady
           toy_int good_env ["prog"] "from-env" 5 0).
  - simpl. lia.
  - vm_compute. reflexivity.
  - discriminate.
  - vm_compute. reflexivity.
Defined.

Lemma environment_rounds_are_converted_first_witness :
  main cpython_wording mock_uuid steady toy_int bad_rounds_env
    ("prog" :: "asst" :: ["2"]) (fresh_world 0) =
  (Exc (Foreign ValueError
          "invalid literal for int() with base 10: 'five'"),
   fresh_world 0).
Proof.
  apply (environment_rounds_are_converted_first cpython_wording mock_uuid
           steady toy_int bad_rounds_env "prog" "asst" ["2"]
           (Foreign ValueError
              "invalid literal for int() with base 10: 'five'")
           (fresh_world 0)).
  - discriminate.
  - vm_compute. reflexivity.
Defined.

End MainFacts.
